(** * LoginSession: the session state machine of node-steam-session

    A shallow embedding of [src/LoginSession.ts].  The class is a mutable
    object driven by the Node.js event loop; here the object is a record
    ([Session]), the event loop is explicit state ([Machine]: timers,
    immediates, emitted events, collaborator calls), methods are computations
    in a state-and-exception monad, and an [async] method that awaits a
    collaborator is a computation that asks the collaborator for its answer.
    [_doPoll] is split at its single [await], so that other tasks can run
    while the poll request is in flight.  [startWithCredentials] and
    [submitSteamGuardCode] are given twice: run in one go, and as the steps
    between their [await]s, which the event loop can interleave with
    anything else; the first is the run of the second in which nothing
    does. *)

From Stdlib Require Import String Ascii List ZArith Lia Bool Arith.
Import ListNotations.
Local Open Scope string_scope.
Local Open Scope list_scope.

Set Implicit Arguments.

(** ** JavaScript values *)

(** An optional field of a TypeScript class is [undefined] until assigned:
    [None] below.  The three tests are JavaScript's truthiness on strings,
    booleans and numbers. *)

Definition truthy_string (s : option string) : bool :=
  match s with
  | Some EmptyString => false
  | Some _ => true
  | None => false
  end.

Definition truthy_bool (b : option bool) : bool :=
  match b with
  | Some true => true
  | _ => false
  end.

Definition truthy_number (n : option Z) : bool :=
  match n with
  | Some 0%Z => false
  | Some _ => true
  | None => false
  end.

(** [a || b] on optional strings. *)
Definition or_string (a b : option string) : option string :=
  if truthy_string a then a else b.

(** ** Enumerations *)

(** Modelled from the spec: the enum [EResult] (enums-steam/EResult) is not
    part of the source tree.  The code names three of its members; every
    other result code is [Other]. *)
Module EResult.
Inductive t : Type :=
| OK
| InvalidLoginAuthCode
| TwoFactorCodeMismatch
| Other (code : Z).

Definition eqb (a b : t) : bool :=
  match a, b with
  | OK, OK => true
  | InvalidLoginAuthCode, InvalidLoginAuthCode => true
  | TwoFactorCodeMismatch, TwoFactorCodeMismatch => true
  | Other x, Other y => Z.eqb x y
  | _, _ => false
  end.

End EResult.

(** Modelled from the spec: the enum [EAuthSessionGuardType]
    (enums-steam/EAuthSessionGuardType) is not part of the source tree.  The
    six members are the ones the [switch] of [_processStartSessionResponse]
    names; any other value the server may send is [Other]. *)
Module EAuthSessionGuardType.
Inductive t : Type :=
| None
| EmailCode
| DeviceCode
| DeviceConfirmation
| EmailConfirmation
| MachineToken
| Other (value : Z).

Definition eqb (a b : t) : bool :=
  match a, b with
  | None, None => true
  | EmailCode, EmailCode => true
  | DeviceCode, DeviceCode => true
  | DeviceConfirmation, DeviceConfirmation => true
  | EmailConfirmation, EmailConfirmation => true
  | MachineToken, MachineToken => true
  | Other x, Other y => Z.eqb x y
  | _, _ => false
  end.

End EAuthSessionGuardType.

(** Modelled from the spec: the enum [EAuthTokenPlatformType] is not part of
    the source tree; [OtherPlatform] is any other value that is not falsy. *)
Inductive EAuthTokenPlatformType : Type :=
| SteamClient
| WebBrowser
| MobileApp
| OtherPlatform.

(** ** Errors and results *)

(** A thrown value: an [Error] with its message; errors built by
    [eresultError] and the rejections of the collaborator carry [eresult]. *)
Record Error : Type := mkError {
  message : string;
  eresult : option EResult.t
}.

Definition new_Error (msg : string) : Error :=
  {| message := msg; eresult := Datatypes.None |}.

Inductive Result (A : Type) : Type :=
| Return (a : A)
| Throw (e : Error).
Arguments Return {A} a.
Arguments Throw {A} e.

(** [ex.eresult != code] *)
Definition eresult_differs (ex : Error) (code : EResult.t) : bool :=
  match eresult ex with
  | Some c => negb (EResult.eqb c code)
  | Datatypes.None => true
  end.

(** ** The state-and-exception monad

    A method runs on a state and either returns or throws; what it wrote
    before throwing stays written. *)

Definition M (St A : Type) : Type := St -> Result A * St.

Definition ret {St A} (a : A) : M St A := fun s => (Return a, s).

Definition throw {St A} (e : Error) : M St A := fun s => (Throw e, s).

Definition bind {St A B} (c : M St A) (k : A -> M St B) : M St B :=
  fun s =>
    match c s with
    | (Return a, s') => k a s'
    | (Throw e, s') => (Throw e, s')
    end.

Definition try_catch {St A} (body : M St A) (handler : Error -> M St A)
  : M St A :=
  fun s =>
    match body s with
    | (Return a, s') => (Return a, s')
    | (Throw e, s') => handler e s'
    end.

Definition gets {St A} (f : St -> A) : M St A := fun s => (Return (f s), s).

Definition modify {St} (f : St -> St) : M St unit := fun s => (Return tt, f s).

Definition liftR {St A} (r : Result A) : M St A := fun s => (r, s).

Declare Scope monad_scope.
Delimit Scope monad_scope with monad.
Notation "x <- c1 ;; c2" := (bind c1 (fun x => c2))
  (at level 61, c1 at next level, right associativity) : monad_scope.
Notation "c1 ;; c2" := (bind c1 (fun _ => c2))
  (at level 61, right associativity) : monad_scope.
Local Open Scope monad_scope.

(** ** Data model *)

(** Modelled from the spec: the interfaces of interfaces-internal and
    interfaces-external are not part of the source tree; the records below
    have the fields that [LoginSession.ts] reads and writes. *)

Record AllowedConfirmation : Type := {
  type : EAuthSessionGuardType.t;
  conf_message : option string
}.

Record StartAuthSessionWithCredentialsResponse : Type := {
  clientId : string;
  requestId : string;
  pollInterval : Z;
  allowedConfirmations : list AllowedConfirmation;
  steamId : string
}.

Record StartSessionResponseValidAction : Type := {
  action_type : EAuthSessionGuardType.t;
  detail : option string
}.

Record StartSessionResponse : Type := {
  actionRequired : bool;
  validActions : option (list StartSessionResponseValidAction)
}.

Record PollResponse : Type := {
  newClientId : option string;
  poll_accessToken : option string;
  poll_refreshToken : option string;
  poll_accountName : option string;
  hadRemoteInteraction : option bool
}.

Record CheckMachineAuthResponse : Type := {
  result : EResult.t
}.

(** The decoded claims of a token: only [sub] is read. *)
Record Jwt : Type := {
  sub : string
}.

(** A [Timeout] handle, as returned by [setTimeout]. *)
Definition Timeout : Type := nat.

Record Session : Type := mkSession {
  loginTimeout : Z;
  accountName : option string;
  _accessToken : option string;
  _refreshToken : option string;
  _platformType : EAuthTokenPlatformType;
  _steamGuardCode : option string;
  _steamGuardMachineToken : option string;
  _startSessionResponse : option StartAuthSessionWithCredentialsResponse;
  _hadRemoteInteraction : option bool;
  _pollingStartedTime : option Z;
  _pollTimer : option Timeout;
  _pollingCanceled : option bool
}.

(** [new LoginSession(platformType)]: [platformType || WebBrowser]. *)
Definition constructor (platformType : option EAuthTokenPlatformType)
  : Session :=
  {| loginTimeout := 30000;
     accountName := Datatypes.None;
     _accessToken := Datatypes.None;
     _refreshToken := Datatypes.None;
     _platformType :=
       match platformType with Some p => p | Datatypes.None => WebBrowser end;
     _steamGuardCode := Datatypes.None;
     _steamGuardMachineToken := Datatypes.None;
     _startSessionResponse := Datatypes.None;
     _hadRemoteInteraction := Datatypes.None;
     _pollingStartedTime := Datatypes.None;
     _pollTimer := Datatypes.None;
     _pollingCanceled := Datatypes.None |}.

(** Field assignments [this.f = v]. *)

Definition with_loginTimeout (v : Z) (this : Session) : Session :=
  mkSession v (accountName this) (_accessToken this) (_refreshToken this)
    (_platformType this) (_steamGuardCode this) (_steamGuardMachineToken this)
    (_startSessionResponse this) (_hadRemoteInteraction this)
    (_pollingStartedTime this) (_pollTimer this) (_pollingCanceled this).

Definition with_accountName (v : option string) (this : Session) : Session :=
  mkSession (loginTimeout this) v (_accessToken this) (_refreshToken this)
    (_platformType this) (_steamGuardCode this) (_steamGuardMachineToken this)
    (_startSessionResponse this) (_hadRemoteInteraction this)
    (_pollingStartedTime this) (_pollTimer this) (_pollingCanceled this).

Definition with_accessToken (v : option string) (this : Session) : Session :=
  mkSession (loginTimeout this) (accountName this) v (_refreshToken this)
    (_platformType this) (_steamGuardCode this) (_steamGuardMachineToken this)
    (_startSessionResponse this) (_hadRemoteInteraction this)
    (_pollingStartedTime this) (_pollTimer this) (_pollingCanceled this).

Definition with_refreshToken (v : option string) (this : Session) : Session :=
  mkSession (loginTimeout this) (accountName this) (_accessToken this) v
    (_platformType this) (_steamGuardCode this) (_steamGuardMachineToken this)
    (_startSessionResponse this) (_hadRemoteInteraction this)
    (_pollingStartedTime this) (_pollTimer this) (_pollingCanceled this).

Definition with_steamGuardCode (v : option string) (this : Session) : Session :=
  mkSession (loginTimeout this) (accountName this) (_accessToken this)
    (_refreshToken this) (_platformType this) v (_steamGuardMachineToken this)
    (_startSessionResponse this) (_hadRemoteInteraction this)
    (_pollingStartedTime this) (_pollTimer this) (_pollingCanceled this).

Definition with_steamGuardMachineToken (v : option string) (this : Session)
  : Session :=
  mkSession (loginTimeout this) (accountName this) (_accessToken this)
    (_refreshToken this) (_platformType this) (_steamGuardCode this) v
    (_startSessionResponse this) (_hadRemoteInteraction this)
    (_pollingStartedTime this) (_pollTimer this) (_pollingCanceled this).

Definition with_startSessionResponse
  (v : option StartAuthSessionWithCredentialsResponse) (this : Session)
  : Session :=
  mkSession (loginTimeout this) (accountName this) (_accessToken this)
    (_refreshToken this) (_platformType this) (_steamGuardCode this)
    (_steamGuardMachineToken this) v (_hadRemoteInteraction this)
    (_pollingStartedTime this) (_pollTimer this) (_pollingCanceled this).

Definition with_hadRemoteInteraction (v : option bool) (this : Session)
  : Session :=
  mkSession (loginTimeout this) (accountName this) (_accessToken this)
    (_refreshToken this) (_platformType this) (_steamGuardCode this)
    (_steamGuardMachineToken this) (_startSessionResponse this) v
    (_pollingStartedTime this) (_pollTimer this) (_pollingCanceled this).

Definition with_pollingStartedTime (v : option Z) (this : Session) : Session :=
  mkSession (loginTimeout this) (accountName this) (_accessToken this)
    (_refreshToken this) (_platformType this) (_steamGuardCode this)
    (_steamGuardMachineToken this) (_startSessionResponse this)
    (_hadRemoteInteraction this) v (_pollTimer this) (_pollingCanceled this).

Definition with_pollTimer (v : option Timeout) (this : Session) : Session :=
  mkSession (loginTimeout this) (accountName this) (_accessToken this)
    (_refreshToken this) (_platformType this) (_steamGuardCode this)
    (_steamGuardMachineToken this) (_startSessionResponse this)
    (_hadRemoteInteraction this) (_pollingStartedTime this) v
    (_pollingCanceled this).

Definition with_pollingCanceled (v : option bool) (this : Session) : Session :=
  mkSession (loginTimeout this) (accountName this) (_accessToken this)
    (_refreshToken this) (_platformType this) (_steamGuardCode this)
    (_steamGuardMachineToken this) (_startSessionResponse this)
    (_hadRemoteInteraction this) (_pollingStartedTime this) (_pollTimer this) v.

(** [this._startSessionResponse.clientId = v] *)
Definition with_clientId (v : string)
  (r : StartAuthSessionWithCredentialsResponse)
  : StartAuthSessionWithCredentialsResponse :=
  {| clientId := v;
     requestId := requestId r;
     pollInterval := pollInterval r;
     allowedConfirmations := allowedConfirmations r;
     steamId := steamId r |}.

(** ** Helpers that live outside the source tree *)

(** [decodeJwt] (helpers) and the [SteamID] constructor (package steamid)
    are taken as parameters: [decodeJwt] returns the claims of a token or
    throws, [SteamID_valid sub] tells whether [new SteamID(sub)] returns
    rather than throws. *)
Record Helpers : Type := {
  decodeJwt : string -> Result Jwt;
  SteamID_valid : string -> bool
}.

(** ** Token setters *)

Definition msg_not_valid_token : string :=
  "Not a valid Steam access token".
Definition msg_different_account : string :=
  "Token is for a different account. To work with a different account, create a new LoginSession.".
Definition msg_access_differs_from_refresh : string :=
  "This access token belongs to a different account from the set refresh token.".
Definition msg_refresh_differs_from_access : string :=
  "This refresh token belongs to a different account from the set access token.".

(** The three errors that report an account mismatch. *)
Definition is_mismatch_error (e : Error) : bool :=
  String.eqb (message e) msg_different_account
  || String.eqb (message e) msg_access_differs_from_refresh
  || String.eqb (message e) msg_refresh_differs_from_access.

Section TokenSetters.
Variable helpers : Helpers.

(** [this._startSessionResponse && this._startSessionResponse.steamId
     && decoded.sub != this._startSessionResponse.steamId] *)
Definition differs_from_start (decoded : Jwt) (this : Session) : bool :=
  match _startSessionResponse this with
  | Some r =>
      truthy_string (Some (steamId r))
      && negb (String.eqb (sub decoded) (steamId r))
  | Datatypes.None => false
  end.

(** [set accessToken(token)] *)
Definition set_accessToken (token : option string) : M Session unit :=
  match token with
  | Some (String _ _ as tok) =>
      decoded <- liftR (decodeJwt helpers tok) ;;
      (if SteamID_valid helpers (sub decoded) then ret tt
       else throw (new_Error msg_not_valid_token)) ;;
      start_differs <- gets (differs_from_start decoded) ;;
      (if start_differs then throw (new_Error msg_different_account)
       else ret tt) ;;
      refresh <- gets _refreshToken ;;
      match refresh with
      | Some (String _ _ as rt) =>
          decodedRefreshToken <- liftR (decodeJwt helpers rt) ;;
          if negb (String.eqb (sub decodedRefreshToken) (sub decoded))
          then throw (new_Error msg_access_differs_from_refresh)
          else ret tt
      | _ => ret tt
      end ;;
      modify (with_accessToken token)
  | _ => modify (with_accessToken token)
  end.

(** [set refreshToken(token)] *)
Definition set_refreshToken (token : option string) : M Session unit :=
  match token with
  | Some (String _ _ as tok) =>
      decoded <- liftR (decodeJwt helpers tok) ;;
      (if SteamID_valid helpers (sub decoded) then ret tt
       else throw (new_Error msg_not_valid_token)) ;;
      start_differs <- gets (differs_from_start decoded) ;;
      (if start_differs then throw (new_Error msg_different_account)
       else ret tt) ;;
      access <- gets _accessToken ;;
      match access with
      | Some (String _ _ as act) =>
          decodedAccessToken <- liftR (decodeJwt helpers act) ;;
          if negb (String.eqb (sub decodedAccessToken) (sub decoded))
          then throw (new_Error msg_refresh_differs_from_access)
          else ret tt
      | _ => ret tt
      end ;;
      modify (with_refreshToken token)
  | _ => modify (with_refreshToken token)
  end.

End TokenSetters.

(** ** The event loop and the collaborator *)

(** What the session emits through [EventEmitter.emit]; listeners return
    normally, and [error] has a listener. *)
Inductive Event : Type :=
| Ev_debug (msg : string)
| Ev_polling
| Ev_timeout
| Ev_remoteInteraction
| Ev_authenticated
| Ev_error (ex : Error).

Inductive TimerStatus : Type :=
| Pending
| Fired
| Cleared.

(** The result of [encryptPassword], spread into the start request; its
    content is never inspected. *)
Definition EncryptedPassword : Type := string.

Record StartLoginSessionWithCredentialsDetails : Type := {
  details_accountName : string;
  details_password : string;
  details_persistence : option Z;
  details_websiteId : option string;
  details_steamGuardCode : option string;
  details_steamGuardMachineToken : option string;
  details_deviceFriendlyName : option string
}.

Record StartSessionParams : Type := {
  start_deviceFriendlyName : option string;
  start_accountName : string;
  start_encryptionResult : EncryptedPassword;
  start_persistence : Z;
  start_platformType : EAuthTokenPlatformType;
  start_websiteId : option string
}.

Record SubmitSteamGuardCodeParams : Type := {
  submit_session : StartAuthSessionWithCredentialsResponse;
  authCode : string;
  authCodeType : EAuthSessionGuardType.t
}.

Record CheckMachineAuthParams : Type := {
  machineAuthToken : option string;
  check_session : StartAuthSessionWithCredentialsResponse
}.

(** The requests sent to [AuthenticationClient], in the order sent. *)
Inductive HandlerCall : Type :=
| Call_encryptPassword (accountName password : string)
| Call_startSessionWithCredentials (params : StartSessionParams)
| Call_pollLoginStatus
    (session : option StartAuthSessionWithCredentialsResponse)
| Call_submitSteamGuardCode (params : SubmitSteamGuardCodeParams)
| Call_checkMachineAuthOrSendCodeEmail (params : CheckMachineAuthParams).

(** [AuthenticationClient] is not part of the source tree: its answers are
    functions of the state of the outside world, which they may change.  An
    answer is a return value or a rejection.  [pollLoginStatus] is absent
    here: its answer arrives later, as a task of its own
    ([T_poll_settles]). *)
Record AuthenticationClient (World : Type) : Type := {
  h_encryptPassword :
    string -> string -> World -> Result EncryptedPassword * World;
  h_startSessionWithCredentials :
    StartSessionParams -> World ->
    Result StartAuthSessionWithCredentialsResponse * World;
  h_submitSteamGuardCode :
    SubmitSteamGuardCodeParams -> World -> Result unit * World;
  h_checkMachineAuthOrSendCodeEmail :
    CheckMachineAuthParams -> World -> Result CheckMachineAuthResponse * World
}.

(** The locals of the loop of [_processStartSessionResponse] while it waits
    for the attempt of a code challenge (line 186): the challenge, the
    challenges still to come, and the actions collected so far. *)
Record LoopPoint : Type := {
  at_challenge : AllowedConfirmation;
  to_come : list AllowedConfirmation;
  collected : list StartSessionResponseValidAction
}.

(** Where a call of an asynchronous method is suspended, with the locals
    that its continuation reads.  Every [await] of [startWithCredentials],
    [_processStartSessionResponse], the two attempts and
    [submitSteamGuardCode] is there, but the one of line 165, whose
    continuation only returns.  ([_doPoll] has its own: [inflight].) *)
Inductive Awaiting : Type :=
| W_encryptPassword (details : StartLoginSessionWithCredentialsDetails)
    (** [startWithCredentials] at line 151 *)
| W_startSession (params : StartSessionParams)
    (** [startWithCredentials] at line 153 *)
| W_submit (params : SubmitSteamGuardCodeParams) (caller : option LoopPoint)
    (** [submitSteamGuardCode] at line 348, called by an attempt of the
        loop or, with no loop point, from outside *)
| W_submitted (outcome : Result unit) (point : LoopPoint)
    (** an attempt at line 287 or 323, once the [submitSteamGuardCode] that
        it called has settled *)
| W_check (params : CheckMachineAuthParams) (point : LoopPoint)
    (** [_attemptEmailCodeAuth] at line 299 *)
| W_attempt (authResult : bool) (point : LoopPoint).
    (** the loop at line 186, once the attempt has returned *)

(** The session object together with the part of the Node.js runtime it
    acts on; [suspended] holds the calls of asynchronous methods that wait
    at an [await]. *)
Record Machine (World : Type) : Type := mkMachine {
  this : Session;
  timers : list (Z * TimerStatus);
  immediates : nat;
  inflight : nat;
  emitted : list Event;
  calls : list HandlerCall;
  world : World;
  suspended : list Awaiting
}.

Section Runtime.
Context {World : Type}.
Let Machine : Type := Machine World.

Definition with_this (v : Session) (m : Machine) : Machine :=
  mkMachine v (timers m) (immediates m) (inflight m) (emitted m) (calls m)
    (world m) (suspended m).

Definition with_timers (v : list (Z * TimerStatus)) (m : Machine) : Machine :=
  mkMachine (this m) v (immediates m) (inflight m) (emitted m) (calls m)
    (world m) (suspended m).

Definition with_immediates (v : nat) (m : Machine) : Machine :=
  mkMachine (this m) (timers m) v (inflight m) (emitted m) (calls m)
    (world m) (suspended m).

Definition with_inflight (v : nat) (m : Machine) : Machine :=
  mkMachine (this m) (timers m) (immediates m) v (emitted m) (calls m)
    (world m) (suspended m).

Definition with_emitted (v : list Event) (m : Machine) : Machine :=
  mkMachine (this m) (timers m) (immediates m) (inflight m) v (calls m)
    (world m) (suspended m).

Definition with_calls (v : list HandlerCall) (m : Machine) : Machine :=
  mkMachine (this m) (timers m) (immediates m) (inflight m) (emitted m) v
    (world m) (suspended m).

Definition with_world (v : World) (m : Machine) : Machine :=
  mkMachine (this m) (timers m) (immediates m) (inflight m) (emitted m)
    (calls m) v (suspended m).

Definition with_suspended (v : list Awaiting) (m : Machine) : Machine :=
  mkMachine (this m) (timers m) (immediates m) (inflight m) (emitted m)
    (calls m) (world m) v.

(** A computation on the session object, run inside the machine. *)
Definition on_session {A} (c : M Session A) : M Machine A :=
  fun m => let (r, s) := c (this m) in (r, with_this s m).

(** [this.emit(...)] *)
Definition emit (e : Event) : M Machine unit :=
  modify (fun m => with_emitted (emitted m ++ [e]) m).

(** [setImmediate(() => this._doPoll())] *)
Definition setImmediate_doPoll : M Machine unit :=
  modify (fun m => with_immediates (S (immediates m)) m).

(** [setTimeout(() => this._doPoll(), delay)]: a fresh handle. *)
Definition setTimeout_doPoll (delay : Z) : M Machine Timeout :=
  fun m => (Return (length (timers m)),
            with_timers (timers m ++ [(delay, Pending)]) m).

Fixpoint clear_timer (h : nat) (ts : list (Z * TimerStatus))
  : list (Z * TimerStatus) :=
  match ts, h with
  | [], _ => []
  | (d, Pending) :: ts', O => (d, Cleared) :: ts'
  | t :: ts', O => t :: ts'
  | t :: ts', S h' => t :: clear_timer h' ts'
  end.

(** [clearTimeout(handle)]: nothing happens for [undefined] and for a
    timer that has fired or was cleared. *)
Definition clearTimeout (handle : option Timeout) : M Machine unit :=
  match handle with
  | Some h => modify (fun m => with_timers (clear_timer h (timers m)) m)
  | Datatypes.None => ret tt
  end.

(** Is the timer behind a handle still waiting to fire? *)
Definition timer_pending (h : Timeout) (m : Machine) : bool :=
  match nth_error (timers m) h with
  | Some (_, Pending) => true
  | _ => false
  end.

(** No timer at all is waiting to fire. *)
Definition no_timer_pending (m : Machine) : bool :=
  forallb (fun t => match snd t with Pending => false | _ => true end)
    (timers m).

(** [cancelLoginAttempt()] *)
Definition cancelLoginAttempt : M Machine bool :=
  on_session (modify (with_pollingCanceled (Some true))) ;;
  pollTimer <- gets (fun m => _pollTimer (this m)) ;;
  match pollTimer with
  | Some h => clearTimeout (Some h) ;; ret true
  | Datatypes.None => ret false
  end.

End Runtime.

(** ** The methods of [LoginSession] *)

Definition msg_not_started : string :=
  "Login session has not been started yet".
Definition msg_no_guard_needed : string :=
  "No Steam Guard code is needed for this login attempt".
Definition msg_unknown_guard : string :=
  "Unknown auth session guard type ".
Definition msg_ambiguous : string :=
  "Login requires action, but we can't tell what kind of action is required".
Definition msg_undefined_property : string :=
  "TypeError: Cannot read properties of undefined".

(** Constants and tables of the enums that the methods use. *)
Record Enums : Type := {
  (** [ESessionPersistence.Persistent] *)
  ESessionPersistence_Persistent : Z;
  (** the name that the reverse lookup in [EAuthSessionGuardType] finds for
      a value, or the value printed when there is none *)
  guardTypeString : Z -> string
}.

Section LoginSession.
Context {World : Type}.
Variable helpers : Helpers.
Variable enums : Enums.
Variable handler : AuthenticationClient World.
Let Machine : Type := Machine World.

(** A request to the collaborator: logged, then answered from the world. *)
Definition ask {A} (c : HandlerCall) (answer : World -> Result A * World)
  : M Machine A :=
  fun m =>
    let (r, w) := answer (world m) in
    (r, with_world w (with_calls (calls m ++ [c]) m)).

(** [get _defaultWebsiteId] *)
Definition _defaultWebsiteId (this : Session) : string :=
  match _platformType this with
  | SteamClient => ""
  | WebBrowser => "Community"
  | MobileApp => "MobileApp"
  | OtherPlatform => "Community"
  end.

(** [_verifyStarted()] *)
Definition _verifyStarted : M Machine unit :=
  started <- gets (fun m => _startSessionResponse (this m)) ;;
  match started with
  | Some _ => ret tt
  | Datatypes.None => throw (new_Error msg_not_started)
  end.

(** Reading [this._startSessionResponse.x] when the response is
    [undefined] is a [TypeError]. *)
Definition the_startSessionResponse
  : M Machine StartAuthSessionWithCredentialsResponse :=
  started <- gets (fun m => _startSessionResponse (this m)) ;;
  match started with
  | Some r => ret r
  | Datatypes.None => throw (new_Error msg_undefined_property)
  end.

(** [allowedConfirmations.some(c => c.type == t)] *)
Definition some_confirmation (t : EAuthSessionGuardType.t)
  (r : StartAuthSessionWithCredentialsResponse) : bool :=
  existsb (fun c => EAuthSessionGuardType.eqb (type c) t)
    (allowedConfirmations r).

(** The argument of the collaborator's [submitSteamGuardCode]:
    [{...this._startSessionResponse, authCode, authCodeType}]. *)
Definition submit_params (r : StartAuthSessionWithCredentialsResponse)
  (authCode : string) : SubmitSteamGuardCodeParams :=
  {| submit_session := r;
     authCode := authCode;
     authCodeType :=
       if some_confirmation EAuthSessionGuardType.EmailCode r
       then EAuthSessionGuardType.EmailCode
       else EAuthSessionGuardType.DeviceCode |}.

(** The argument of [checkMachineAuthOrSendCodeEmail]:
    [{machineAuthToken: this._steamGuardMachineToken,
      ...this._startSessionResponse}]. *)
Definition check_params (this : Session)
  (r : StartAuthSessionWithCredentialsResponse) : CheckMachineAuthParams :=
  {| machineAuthToken := _steamGuardMachineToken this;
     check_session := r |}.

(** [submitSteamGuardCode(authCode)] *)
Definition submitSteamGuardCode (authCode : string) : M Machine unit :=
  _verifyStarted ;;
  emit (Ev_debug "submitting steam guard code") ;;
  r <- the_startSessionResponse ;;
  let needsEmailCode := some_confirmation EAuthSessionGuardType.EmailCode r in
  let needsTotpCode := some_confirmation EAuthSessionGuardType.DeviceCode r in
  if negb needsEmailCode && negb needsTotpCode
  then throw (new_Error msg_no_guard_needed)
  else
    ask (Call_submitSteamGuardCode (submit_params r authCode))
        (h_submitSteamGuardCode handler (submit_params r authCode)) ;;
    setImmediate_doPoll.

(** The [if (this._steamGuardCode) { try { ... } catch ... }] block shared
    by the two attempts: [true] when the code was submitted and accepted,
    [false] when there was no code or it was refused with [wrong_code]. *)
Definition submit_supplied_code (wrong_code : EResult.t) : M Machine bool :=
  code <- gets (fun m => _steamGuardCode (this m)) ;;
  match code with
  | Some (String _ _ as c) =>
      try_catch
        (submitSteamGuardCode c ;; ret true)
        (fun ex =>
           if eresult_differs ex wrong_code then throw ex else ret false)
  | _ => ret false
  end.

(** [_attemptEmailCodeAuth()] *)
Definition _attemptEmailCodeAuth : M Machine bool :=
  submitted <- submit_supplied_code EResult.InvalidLoginAuthCode ;;
  if submitted then ret true
  else
    r <- the_startSessionResponse ;;
    if some_confirmation EAuthSessionGuardType.MachineToken r then
      params <- gets (fun m => check_params (this m) r) ;;
      res <- ask (Call_checkMachineAuthOrSendCodeEmail params)
                 (h_checkMachineAuthOrSendCodeEmail handler params) ;;
      if EResult.eqb (result res) EResult.OK
      then setImmediate_doPoll ;; ret true
      else ret false
    else ret false.

(** [_attemptTotpCodeAuth()] *)
Definition _attemptTotpCodeAuth : M Machine bool :=
  submitted <- submit_supplied_code EResult.TwoFactorCodeMismatch ;;
  if submitted then ret true else ret false.

(** The numeric value of a guard type is only needed to print an unknown
    one. *)
Definition unknown_guard_error (value : Z) : Error :=
  new_Error (msg_unknown_guard ++ guardTypeString enums value).

(** How one round of the [for] loop ends. *)
Inductive Round : Type :=
| Returned (response : StartSessionResponse)
| Next (validActions : list StartSessionResponseValidAction).

(** The body of the loop of [_processStartSessionResponse], for the
    confirmation [i]. *)
Definition process_confirmation (i : AllowedConfirmation)
  (validActions : list StartSessionResponseValidAction) : M Machine Round :=
  match type i with
  | EAuthSessionGuardType.None =>
      emit (Ev_debug "no guard required") ;;
      setImmediate_doPoll ;;
      ret (Returned {| actionRequired := false;
                       validActions := Datatypes.None |})
  | EAuthSessionGuardType.EmailCode =>
      emit (Ev_debug "email code required") ;;
      authResult <- _attemptEmailCodeAuth ;;
      if authResult then
        ret (Returned {| actionRequired := false;
                         validActions := Datatypes.None |})
      else
        ret (Next (validActions ++
                   [{| action_type := type i;
                       detail := if truthy_string (conf_message i)
                                 then conf_message i else Datatypes.None |}]))
  | EAuthSessionGuardType.DeviceCode =>
      emit (Ev_debug "device code required") ;;
      authResult <- _attemptTotpCodeAuth ;;
      if authResult then
        ret (Returned {| actionRequired := false;
                         validActions := Datatypes.None |})
      else
        ret (Next (validActions ++
                   [{| action_type := type i;
                       detail := if truthy_string (conf_message i)
                                 then conf_message i else Datatypes.None |}]))
  | EAuthSessionGuardType.DeviceConfirmation
  | EAuthSessionGuardType.EmailConfirmation =>
      emit (Ev_debug "device or email confirmation guard required") ;;
      setImmediate_doPoll ;;
      ret (Next (validActions ++
                 [{| action_type := type i; detail := Datatypes.None |}]))
  | EAuthSessionGuardType.MachineToken =>
      ret (Next validActions)
  | EAuthSessionGuardType.Other value =>
      throw (unknown_guard_error value)
  end.

(** The [for ... of] loop. *)
Fixpoint process_confirmations (l : list AllowedConfirmation)
  (validActions : list StartSessionResponseValidAction) : M Machine Round :=
  match l with
  | [] => ret (Next validActions)
  | i :: l' =>
      round <- process_confirmation i validActions ;;
      match round with
      | Returned response => ret (Returned response)
      | Next validActions' => process_confirmations l' validActions'
      end
  end.

(** [_processStartSessionResponse()] *)
Definition _processStartSessionResponse : M Machine StartSessionResponse :=
  on_session (modify (with_pollingCanceled (Some false))) ;;
  r <- the_startSessionResponse ;;
  round <- process_confirmations (allowedConfirmations r) [] ;;
  match round with
  | Returned response => ret response
  | Next validActions =>
      if Nat.eqb (length validActions) 0
      then throw (new_Error msg_ambiguous)
      else ret {| actionRequired := true;
                  validActions := Some validActions |}
  end.

(** [details.persistence || ESessionPersistence.Persistent] *)
Definition persistence_or_default (p : option Z) : Z :=
  match p with
  | Some v => if truthy_number p then v
              else ESessionPersistence_Persistent enums
  | Datatypes.None => ESessionPersistence_Persistent enums
  end.

(** The argument of [startSessionWithCredentials]. *)
Definition start_params (details : StartLoginSessionWithCredentialsDetails)
  (encryptionResult : EncryptedPassword) (this : Session)
  : StartSessionParams :=
  {| start_deviceFriendlyName := details_deviceFriendlyName details;
     start_accountName := details_accountName details;
     start_encryptionResult := encryptionResult;
     start_persistence :=
       persistence_or_default (details_persistence details);
     start_platformType := _platformType this;
     start_websiteId :=
       or_string (details_websiteId details)
         (Some (_defaultWebsiteId this)) |}.

(** [startWithCredentials(details)] *)
Definition startWithCredentials
  (details : StartLoginSessionWithCredentialsDetails)
  : M Machine StartSessionResponse :=
  on_session (modify (with_hadRemoteInteraction (Some false))) ;;
  on_session (modify (with_steamGuardCode (details_steamGuardCode details))) ;;
  on_session (modify (with_steamGuardMachineToken
                        (details_steamGuardMachineToken details))) ;;
  encryptionResult <-
    ask (Call_encryptPassword (details_accountName details)
                              (details_password details))
        (h_encryptPassword handler (details_accountName details)
                           (details_password details)) ;;
  params <- gets (fun m => start_params details encryptionResult (this m)) ;;
  r <- ask (Call_startSessionWithCredentials params)
           (h_startSessionWithCredentials handler params) ;;
  on_session (modify (with_startSessionResponse (Some r))) ;;
  emit (Ev_debug "start session response") ;;
  _processStartSessionResponse.

End LoginSession.

(** ** The asynchronous methods, step by step

    [startWithCredentials] and [submitSteamGuardCode] above run a call from
    its start to its end, every request answered at once.  A call is in
    fact suspended at each [await], and whatever the event loop has to run
    runs before the call goes on.  The steps below are the stretches of
    code between two [await]s: each ends with the call having returned
    (or thrown) or waiting again.

    Where a call waits for a request to be answered, anything can run
    before it goes on.  Where it waits for a promise that is already
    settled (an attempt that has returned, [W_attempt], or a
    [submitSteamGuardCode] that has thrown or returned, [W_submitted]),
    only promise jobs run before it goes on; the runs below let any task
    happen there too, which adds runs and removes none. *)

(** How a step ends. *)
Inductive Step : Type :=
| Resolves (response : StartSessionResponse)
    (** [startWithCredentials] returns *)
| Done
    (** [submitSteamGuardCode], called from outside, returns *)
| Waits (k : Awaiting).

Section Steps.
Context {World : Type}.
Variable enums : Enums.
Variable handler : AuthenticationClient World.
Let Machine : Type := Machine World.

(** A request is sent: it is logged, its answer comes later. *)
Definition send (c : HandlerCall) : M Machine unit :=
  modify (fun m => with_calls (calls m ++ [c]) m).

(** The answer of a request arrives, from the world as it is then. *)
Definition receive {A} (answer : World -> Result A * World) : M Machine A :=
  fun m => let (r, w) := answer (world m) in (r, with_world w m).

(** [startWithCredentials(details)] up to its first [await]
    (lines 147-151). *)
Definition startWithCredentials_call
  (details : StartLoginSessionWithCredentialsDetails) : M Machine Step :=
  on_session (modify (with_hadRemoteInteraction (Some false))) ;;
  on_session (modify (with_steamGuardCode (details_steamGuardCode details))) ;;
  on_session (modify (with_steamGuardMachineToken
                        (details_steamGuardMachineToken details))) ;;
  send (Call_encryptPassword (details_accountName details)
                             (details_password details)) ;;
  ret (Waits (W_encryptPassword details)).

(** From the answer of [encryptPassword] to the second [await]
    (lines 151-153). *)
Definition encryptPassword_settles
  (details : StartLoginSessionWithCredentialsDetails) : M Machine Step :=
  encryptionResult <-
    receive (h_encryptPassword handler (details_accountName details)
                               (details_password details)) ;;
  params <- gets (fun m => start_params enums details encryptionResult
                             (this m)) ;;
  send (Call_startSessionWithCredentials params) ;;
  ret (Waits (W_startSession params)).

(** [submitSteamGuardCode(authCode)] up to its [await] (lines 338-348). *)
Definition submitSteamGuardCode_call (authCode : string)
  : M Machine SubmitSteamGuardCodeParams :=
  _verifyStarted ;;
  emit (Ev_debug "submitting steam guard code") ;;
  r <- the_startSessionResponse ;;
  let needsEmailCode := some_confirmation EAuthSessionGuardType.EmailCode r in
  let needsTotpCode := some_confirmation EAuthSessionGuardType.DeviceCode r in
  if negb needsEmailCode && negb needsTotpCode
  then throw (new_Error msg_no_guard_needed)
  else
    send (Call_submitSteamGuardCode (submit_params r authCode)) ;;
    ret (submit_params r authCode).

(** The same, called from outside. *)
Definition submitSteamGuardCode_called (authCode : string) : M Machine Step :=
  params <- submitSteamGuardCode_call authCode ;;
  ret (Waits (W_submit params Datatypes.None)).

(** An attempt after its [if (this._steamGuardCode)] block: the
    machine-token check of [_attemptEmailCodeAuth] (lines 297-317), the
    [return false] of [_attemptTotpCodeAuth] (line 334). *)
Definition attempt_goes_on (point : LoopPoint) : M Machine Step :=
  match type (at_challenge point) with
  | EAuthSessionGuardType.EmailCode =>
      r <- the_startSessionResponse ;;
      if some_confirmation EAuthSessionGuardType.MachineToken r then
        params <- gets (fun m => check_params (this m) r) ;;
        send (Call_checkMachineAuthOrSendCodeEmail params) ;;
        ret (Waits (W_check params point))
      else ret (Waits (W_attempt false point))
  | _ => ret (Waits (W_attempt false point))
  end.

(** An attempt from its start: a supplied code is submitted (lines 285-287,
    321-323); an error thrown by [submitSteamGuardCode] before its
    [await] reaches the attempt as a rejection. *)
Definition attempt_starts (point : LoopPoint) : M Machine Step :=
  code <- gets (fun m => _steamGuardCode (this m)) ;;
  match code with
  | Some (String _ _ as c) =>
      try_catch
        (params <- submitSteamGuardCode_call c ;;
         ret (Waits (W_submit params (Some point))))
        (fun ex => ret (Waits (W_submitted (Throw ex) point)))
  | _ => attempt_goes_on point
  end.

(** The loop of [_processStartSessionResponse] from the challenges [l] on,
    up to the next [await] or to the end of the method (lines 173-232). *)
Fixpoint loop_from (l : list AllowedConfirmation)
  (validActions : list StartSessionResponseValidAction) : M Machine Step :=
  match l with
  | [] =>
      if Nat.eqb (length validActions) 0
      then throw (new_Error msg_ambiguous)
      else ret (Resolves {| actionRequired := true;
                            validActions := Some validActions |})
  | i :: rest =>
      match type i with
      | EAuthSessionGuardType.None =>
          emit (Ev_debug "no guard required") ;;
          setImmediate_doPoll ;;
          ret (Resolves {| actionRequired := false;
                           validActions := Datatypes.None |})
      | EAuthSessionGuardType.EmailCode =>
          emit (Ev_debug "email code required") ;;
          attempt_starts {| at_challenge := i; to_come := rest;
                            collected := validActions |}
      | EAuthSessionGuardType.DeviceCode =>
          emit (Ev_debug "device code required") ;;
          attempt_starts {| at_challenge := i; to_come := rest;
                            collected := validActions |}
      | EAuthSessionGuardType.DeviceConfirmation
      | EAuthSessionGuardType.EmailConfirmation =>
          emit (Ev_debug "device or email confirmation guard required") ;;
          setImmediate_doPoll ;;
          loop_from rest
            (validActions
             ++ [{| action_type := type i; detail := Datatypes.None |}])
      | EAuthSessionGuardType.MachineToken =>
          loop_from rest validActions
      | EAuthSessionGuardType.Other value =>
          throw (unknown_guard_error enums value)
      end
  end.

(** From the answer of [startSessionWithCredentials] on: the response is
    stored, and [_processStartSessionResponse] runs up to its first
    [await] or to its end (lines 153-173). *)
Definition startSession_settles (params : StartSessionParams)
  : M Machine Step :=
  r <- receive (h_startSessionWithCredentials handler params) ;;
  on_session (modify (with_startSessionResponse (Some r))) ;;
  emit (Ev_debug "start session response") ;;
  on_session (modify (with_pollingCanceled (Some false))) ;;
  r' <- the_startSessionResponse ;;
  loop_from (allowedConfirmations r') [].

(** The answer to the request of [submitSteamGuardCode] arrives
    (lines 348-354): a poll is queued when the server accepts.  For a call
    from outside the method then returns or throws; an attempt that
    called it is to resume with the outcome. *)
Definition submit_settles (params : SubmitSteamGuardCodeParams)
  (caller : option LoopPoint) : M Machine Step :=
  match caller with
  | Datatypes.None =>
      receive (h_submitSteamGuardCode handler params) ;;
      setImmediate_doPoll ;;
      ret Done
  | Some point =>
      try_catch
        (receive (h_submitSteamGuardCode handler params) ;;
         setImmediate_doPoll ;;
         ret (Waits (W_submitted (Return tt) point)))
        (fun ex => ret (Waits (W_submitted (Throw ex) point)))
  end.

(** An attempt resumes with the outcome of [submitSteamGuardCode]
    (lines 287-295, 323-331): it returns [true], or rethrows an error
    whose result is not the wrong-code result of its challenge, or goes
    on.  An error that an attempt throws passes through the loop and
    [startWithCredentials], which do not handle it. *)
Definition submitted_resumes (outcome : Result unit) (point : LoopPoint)
  : M Machine Step :=
  match outcome with
  | Return _ => ret (Waits (W_attempt true point))
  | Throw ex =>
      if eresult_differs ex
           (match type (at_challenge point) with
            | EAuthSessionGuardType.EmailCode => EResult.InvalidLoginAuthCode
            | _ => EResult.TwoFactorCodeMismatch
            end)
      then throw ex
      else attempt_goes_on point
  end.

(** The answer of [checkMachineAuthOrSendCodeEmail] arrives
    (lines 299-317). *)
Definition check_settles (params : CheckMachineAuthParams)
  (point : LoopPoint) : M Machine Step :=
  res <- receive (h_checkMachineAuthOrSendCodeEmail handler params) ;;
  if EResult.eqb (result res) EResult.OK
  then setImmediate_doPoll ;; ret (Waits (W_attempt true point))
  else ret (Waits (W_attempt false point)).

(** The loop resumes with the result of the attempt (lines 186-199): the
    method returns, or the challenge joins the pending actions and the
    loop goes on. *)
Definition attempt_settles (authResult : bool) (point : LoopPoint)
  : M Machine Step :=
  if authResult
  then ret (Resolves {| actionRequired := false;
                        validActions := Datatypes.None |})
  else
    loop_from (to_come point)
      (collected point
       ++ [{| action_type := type (at_challenge point);
              detail := if truthy_string (conf_message (at_challenge point))
                        then conf_message (at_challenge point)
                        else Datatypes.None |}]).

(** A suspended call goes on. *)
Definition resume (k : Awaiting) : M Machine Step :=
  match k with
  | W_encryptPassword details => encryptPassword_settles details
  | W_startSession params => startSession_settles params
  | W_submit params caller => submit_settles params caller
  | W_submitted outcome point => submitted_resumes outcome point
  | W_check params point => check_settles params point
  | W_attempt authResult point => attempt_settles authResult point
  end.

(** A call that goes on as soon as it waits, nothing else running in
    between; [fuel] bounds the number of steps. *)
Fixpoint uninterrupted (fuel : nat) (s : Result Step * Machine)
  : option (Result Step * Machine) :=
  match s with
  | (Return (Waits k), m) =>
      match fuel with
      | O => Datatypes.None
      | S fuel' => uninterrupted fuel' (resume k m)
      end
  | _ => Some s
  end.

(** The machine after a step: a call that waits joins the suspended
    calls. *)
Definition suspend (s : Result Step * Machine) : Machine :=
  match fst s with
  | Return (Waits k) => with_suspended (suspended (snd s) ++ [k]) (snd s)
  | _ => snd s
  end.

End Steps.

(** [l] without its element at index [k]. *)
Fixpoint without {A : Type} (k : nat) (l : list A) : list A :=
  match l, k with
  | [], _ => []
  | _ :: l', O => l'
  | a :: l', S k' => a :: without k' l'
  end.

(** ** The polling loop *)

Section Polling.
Context {World : Type}.
Variable helpers : Helpers.
Let Machine : Type := Machine World.

(** The timestamp that a tick measures from: the recorded one, or, when
    none is recorded yet ([!this._pollingStartedTime]), the reading of the
    clock that the tick records. *)
Definition polling_start (clock_start : Z) (this : Session) : Z :=
  match _pollingStartedTime this with
  | Some t => if truthy_number (Some t) then t else clock_start
  | Datatypes.None => clock_start
  end.

(** [_doPoll()] up to its [await]: [clock_start] and [clock_now] are the
    two readings of [Date.now()].  The request to [pollLoginStatus] is
    sent; its answer comes back in [_doPoll_resume]. *)
Definition _doPoll_begin (clock_start clock_now : Z) : M Machine unit :=
  canceled <- gets (fun m => _pollingCanceled (this m)) ;;
  if truthy_bool canceled then ret tt
  else
    pollTimer <- gets (fun m => _pollTimer (this m)) ;;
    clearTimeout pollTimer ;;
    started <- gets (fun m => _pollingStartedTime (this m)) ;;
    (if negb (truthy_number started)
     then on_session (modify (with_pollingStartedTime (Some clock_start))) ;;
          emit Ev_polling
     else ret tt) ;;
    start <- gets (fun m => polling_start clock_start (this m)) ;;
    let totalPollingTime := (clock_now - start)%Z in
    timeout_ms <- gets (fun m => loginTimeout (this m)) ;;
    if (totalPollingTime >=? timeout_ms)%Z
    then emit Ev_timeout ;;
         cancelLoginAttempt ;;
         ret tt
    else
      session <- gets (fun m => _startSessionResponse (this m)) ;;
      modify (fun m =>
                with_inflight (S (inflight m))
                  (with_calls (calls m ++ [Call_pollLoginStatus session]) m)).

(** [_doPoll()] from its [await] on, with the answer of
    [pollLoginStatus]. *)
Definition _doPoll_resume (answer : Result PollResponse) : M Machine unit :=
  match answer with
  | Throw ex => emit (Ev_error ex)
  | Return pollResponse =>
      emit (Ev_debug "poll response") ;;
      r <- the_startSessionResponse ;;
      on_session
        (modify (with_startSessionResponse
                   (Some (with_clientId
                            (match newClientId pollResponse with
                             | Some (String _ _ as c) => c
                             | _ => clientId r
                             end) r)))) ;;
      seen <- gets (fun m => _hadRemoteInteraction (this m)) ;;
      (if truthy_bool (hadRemoteInteraction pollResponse)
          && negb (truthy_bool seen)
       then on_session (modify (with_hadRemoteInteraction (Some true))) ;;
            emit Ev_remoteInteraction
       else ret tt) ;;
      if truthy_string (poll_accessToken pollResponse) then
        on_session (modify (with_accountName (poll_accountName pollResponse))) ;;
        on_session (set_accessToken helpers (poll_accessToken pollResponse)) ;;
        on_session (set_refreshToken helpers (poll_refreshToken pollResponse)) ;;
        emit Ev_authenticated
      else
        canceled <- gets (fun m => _pollingCanceled (this m)) ;;
        if negb (truthy_bool canceled) then
          r' <- the_startSessionResponse ;;
          h <- setTimeout_doPoll (pollInterval r' * 1000)%Z ;;
          on_session (modify (with_pollTimer (Some h)))
        else ret tt
  end.

Fixpoint fire_timer (h : nat) (ts : list (Z * TimerStatus))
  : list (Z * TimerStatus) :=
  match ts, h with
  | [], _ => []
  | (d, _) :: ts', O => (d, Fired) :: ts'
  | t :: ts', S h' => t :: fire_timer h' ts'
  end.

End Polling.

(** ** Runs of the session *)

(** What can happen to a session: the caller assigns a public field or
    invokes a public operation, or the event loop runs a queued callback,
    fires a timer, delivers the answer of a poll request or lets a
    suspended call go on.  ([getWebCookies] changes nothing of the
    session.)

    [T_call_startWithCredentials] and [T_call_submitSteamGuardCode] are the
    calls of the two asynchronous methods, which run to their first
    [await]; [T_resumes] lets the suspended call of that index run to its
    next [await] or to its end, so that any other task can happen in
    between.  [T_startWithCredentials] and [T_submitSteamGuardCode] are the
    runs in which nothing does: the call and all its steps in a row
    ([startWithCredentials_uninterrupted],
    [submitSteamGuardCode_uninterrupted]). *)
Inductive Task : Type :=
| T_assign_loginTimeout (ms : Z)
| T_assign_accountName (name : option string)
| T_set_accessToken (token : option string)
| T_set_refreshToken (token : option string)
| T_startWithCredentials (details : StartLoginSessionWithCredentialsDetails)
| T_submitSteamGuardCode (authCode : string)
| T_cancelLoginAttempt
| T_immediate (clock_start clock_now : Z)
| T_timer (handle : Timeout) (clock_start clock_now : Z)
| T_poll_settles (answer : Result PollResponse)
| T_call_startWithCredentials
    (details : StartLoginSessionWithCredentialsDetails)
| T_call_submitSteamGuardCode (authCode : string)
| T_resumes (k : nat).

Section Runs.
Context {World : Type}.
Variable helpers : Helpers.
Variable enums : Enums.
Variable handler : AuthenticationClient World.
Let Machine : Type := Machine World.

(** A fresh session on an idle event loop. *)
Definition boot (platformType : option EAuthTokenPlatformType) (w : World)
  : Machine :=
  {| this := constructor platformType;
     timers := [];
     immediates := 0;
     inflight := 0;
     emitted := [];
     calls := [];
     world := w;
     suspended := [] |}.

(** The machine after a task; [None] when the task cannot happen (no
    callback queued, timer not pending, no poll in flight, no such
    suspended call).  A thrown error or a rejected promise goes to the
    caller and leaves the machine as it is at that point. *)
Definition perform (t : Task) (m : Machine) : option Machine :=
  match t with
  | T_assign_loginTimeout ms =>
      Some (with_this (with_loginTimeout ms (this m)) m)
  | T_assign_accountName name =>
      Some (with_this (with_accountName name (this m)) m)
  | T_set_accessToken token =>
      Some (snd (on_session (set_accessToken helpers token) m))
  | T_set_refreshToken token =>
      Some (snd (on_session (set_refreshToken helpers token) m))
  | T_startWithCredentials details =>
      Some (snd (startWithCredentials enums handler details m))
  | T_submitSteamGuardCode authCode =>
      Some (snd (submitSteamGuardCode handler authCode m))
  | T_cancelLoginAttempt =>
      Some (snd (cancelLoginAttempt m))
  | T_immediate clock_start clock_now =>
      match immediates m with
      | O => Datatypes.None
      | S n => Some (snd (_doPoll_begin clock_start clock_now
                            (with_immediates n m)))
      end
  | T_timer h clock_start clock_now =>
      if timer_pending h m
      then Some (snd (_doPoll_begin clock_start clock_now
                        (with_timers (fire_timer h (timers m)) m)))
      else Datatypes.None
  | T_poll_settles answer =>
      match inflight m with
      | O => Datatypes.None
      | S n => Some (snd (_doPoll_resume helpers answer (with_inflight n m)))
      end
  | T_call_startWithCredentials details =>
      Some (suspend (startWithCredentials_call details m))
  | T_call_submitSteamGuardCode authCode =>
      Some (suspend (submitSteamGuardCode_called authCode m))
  | T_resumes k =>
      match nth_error (suspended m) k with
      | Some w =>
          Some (suspend (resume enums handler w
                           (with_suspended (without k (suspended m)) m)))
      | Datatypes.None => Datatypes.None
      end
  end.

Fixpoint run (ts : list Task) (m : Machine) : option Machine :=
  match ts with
  | [] => Some m
  | t :: ts' =>
      match perform t m with
      | Some m' => run ts' m'
      | Datatypes.None => Datatypes.None
      end
  end.

(** The states a session can be in. *)
Definition reachable (m : Machine) : Prop :=
  exists platformType w ts, run ts (boot platformType w) = Some m.

End Runs.

(** ** Web cookies *)

Definition msg_refresh_token_required : string :=
  "A refresh token is required to get web cookies".
Definition msg_malformed_login_response : string :=
  "Malformed login response".
Definition msg_no_set_cookie : string :=
  "No Set-Cookie header in result".
Definition msg_no_steamLoginSecure : string :=
  "No steamLoginSecure cookie in result".

Record HttpHeaders : Type := {
  set_cookie : option (list string)
}.

Record HttpResponse : Type := {
  headers : option HttpHeaders
}.

Record TransferInfo : Type := {
  url : string;
  params : list (string * string)
}.

Record FinalizeData : Type := {
  error : option Z;
  transfer_info : option (list TransferInfo)
}.

Record FinalizeResponse : Type := {
  data : option FinalizeData
}.

(** [c.split(';')[0]] *)
Fixpoint before_semicolon (c : string) : string :=
  match c with
  | EmptyString => EmptyString
  | String a c' =>
      if Ascii.eqb a ";"%char then EmptyString
      else String a (before_semicolon c')
  end.

(** The white space and line terminators that [trim] removes, among the
    code units below 256 (the characters of a header value): tab, line
    feed, vertical tab, form feed, carriage return, space and no-break
    space (U+00A0). *)
Definition is_white_space (a : ascii) : bool :=
  let n := nat_of_ascii a in
  (Nat.leb 9 n && Nat.leb n 13) || Nat.eqb n 32 || Nat.eqb n 160.

Fixpoint trim_start (s : string) : string :=
  match s with
  | EmptyString => EmptyString
  | String a s' => if is_white_space a then trim_start s' else s
  end.

Fixpoint trim_end (s : string) : string :=
  match s with
  | EmptyString => EmptyString
  | String a s' =>
      match trim_end s' with
      | EmptyString => if is_white_space a then EmptyString
                       else String a EmptyString
      | rest => String a rest
      end
  end.

Definition trim (s : string) : string := trim_end (trim_start s).

(** The state of a promise once it has settled. *)
Inductive Settled (A : Type) : Type :=
| Resolved (value : A)
| Rejected (reason : option Error).
Arguments Resolved {A} value.
Arguments Rejected {A} reason.

(** One transfer of [getWebCookies], given the answer to its request.  The
    executor is an [async] function: when the request throws, neither
    [resolve] nor [reject] is called and the promise never settles
    ([None]). *)
Definition transfer (answer : Result HttpResponse)
  : option (Result (list string)) :=
  match answer with
  | Throw _ => Datatypes.None
  | Return res =>
      match headers res with
      | Some {| set_cookie := Some (c :: cs) |} =>
          if existsb (String.prefix "steamLoginSecure=") (c :: cs)
          then Some (Return (map (fun c => trim (before_semicolon c)) (c :: cs)))
          else Some (Throw (new_Error msg_no_steamLoginSecure))
      | _ => Some (Throw (new_Error msg_no_set_cookie))
      end
  end.

(** The variables of the closure of [promiseAny], and the state of the
    promise it returns ([None]: still pending). *)
Record PromiseAny (A : Type) : Type := mkPromiseAny {
  pendingPromises : Z;
  rejections : list Error;
  outcome : option (Settled A)
}.

Section PromiseAny.
Context {A : Type}.

(** [resolve] and [reject] act on a pending promise only. *)
Definition settle (o : Settled A) (p : PromiseAny A) : PromiseAny A :=
  match outcome p with
  | Some _ => p
  | Datatypes.None => mkPromiseAny (pendingPromises p) (rejections p) (Some o)
  end.

(** The [then] callback. *)
Definition on_fulfilled (result : A) (p : PromiseAny A) : PromiseAny A :=
  settle (Resolved result)
    (mkPromiseAny (pendingPromises p - 1) (rejections p) (outcome p)).

(** The [catch] callback. *)
Definition on_rejected (err : Error) (p : PromiseAny A) : PromiseAny A :=
  let p' := mkPromiseAny (pendingPromises p - 1) (rejections p ++ [err])
              (outcome p) in
  if (pendingPromises p' =? 0)%Z
  then settle (Rejected (nth_error (rejections p') 0)) p'
  else p'.

Definition deliver (s : Result A) (p : PromiseAny A) : PromiseAny A :=
  match s with
  | Return result => on_fulfilled result p
  | Throw err => on_rejected err p
  end.

(** What happens when promise [i] settles: its callback runs.  A promise
    that never settles ([None]) has no turn. *)
Definition settle_next (promises : list (option (Result A)))
  (p : PromiseAny A) (i : nat) : PromiseAny A :=
  match nth_error promises i with
  | Some (Some s) => deliver s p
  | _ => p
  end.

(** [promiseAny(promises)]: each promise is given by how it settles, if it
    does; [order] lists the promises in the order in which they settle.
    The value is the state of the returned promise once all of [order]
    has happened. *)
Definition promiseAny (promises : list (option (Result A)))
  (order : list nat) : option (Settled A) :=
  outcome
    (fold_left (settle_next promises) order
       (mkPromiseAny (Z.of_nat (length promises)) [] Datatypes.None)).

End PromiseAny.

(** The transfers that [getWebCookies] launches, one for each entry of
    [transfer_info] and in that order; [answers] holds the answers to their
    requests, in the same order (a missing answer never comes). *)
Definition launch (infos : list TransferInfo)
  (answers : list (Result HttpResponse))
  : list (option (Result (list string))) :=
  map (fun i =>
         match nth_error answers i with
         | Some answer => transfer answer
         | Datatypes.None => Datatypes.None
         end)
      (seq 0 (length infos)).

(** [getWebCookies()]: [finalizeResponse] is the answer of the finalizelogin
    request, [answers] the answers to the transfer requests, and [order] the
    order in which the transfers settle.  [eresultError] is the helper of
    that name, which is not part of the source tree. *)
Definition getWebCookies (eresultError : Z -> Error)
  (finalizeResponse : Result FinalizeResponse)
  (answers : list (Result HttpResponse)) (order : list nat)
  (this : Session) : option (Settled (list string)) :=
  if negb (truthy_string (_refreshToken this))
  then Some (Rejected (Some (new_Error msg_refresh_token_required)))
  else
    match finalizeResponse with
    | Throw ex => Some (Rejected (Some ex))
    | Return res =>
        match data res with
        | Some d =>
            if truthy_number (error d)
            then Some (Rejected
                         (Some (eresultError
                                  (match error d with
                                   | Some code => code
                                   | Datatypes.None => 0%Z
                                   end))))
            else
              match transfer_info d with
              | Some infos => promiseAny (launch infos answers) order
              | Datatypes.None =>
                  Some (Rejected (Some (new_Error msg_malformed_login_response)))
              end
        | Datatypes.None =>
            Some (Rejected (Some (new_Error msg_malformed_login_response)))
        end
    end.

(** ** Specification vocabulary *)

(** The two token slots of a session. *)
Inductive Slot : Type :=
| AccessToken
| RefreshToken.

(** [this.accessToken = token] and [this.refreshToken = token]. *)
Definition assign (helpers : Helpers) (slot : Slot) (token : option string)
  : M Session unit :=
  match slot with
  | AccessToken => set_accessToken helpers token
  | RefreshToken => set_refreshToken helpers token
  end.

Definition stored (slot : Slot) (this : Session) : option string :=
  match slot with
  | AccessToken => _accessToken this
  | RefreshToken => _refreshToken this
  end.

Definition other_slot (slot : Slot) : Slot :=
  match slot with
  | AccessToken => RefreshToken
  | RefreshToken => AccessToken
  end.

(** The subject embedded in a stored token, when the slot holds a token
    and the token decodes. *)
Definition subject (helpers : Helpers) (token : option string)
  : option string :=
  match token with
  | Some (String _ _ as t) =>
      match decodeJwt helpers t with
      | Return decoded => Some (sub decoded)
      | Throw _ => Datatypes.None
      end
  | _ => Datatypes.None
  end.

(** The candidate's subject [s] differs from the account identifier of the
    recorded session-start response, or from the subject of the token in
    the other slot. *)
Definition conflicts (helpers : Helpers) (slot : Slot) (s : string)
  (this : Session) : Prop :=
  (exists r, _startSessionResponse this = Some r
             /\ steamId r <> "" /\ s <> steamId r)
  \/ (exists s', subject helpers (stored (other_slot slot) this) = Some s'
                 /\ s' <> s).

(** Every field of the session but the token slots. *)
Definition same_but_tokens (this this' : Session) : Prop :=
  loginTimeout this' = loginTimeout this
  /\ accountName this' = accountName this
  /\ _platformType this' = _platformType this
  /\ _steamGuardCode this' = _steamGuardCode this
  /\ _steamGuardMachineToken this' = _steamGuardMachineToken this
  /\ _startSessionResponse this' = _startSessionResponse this
  /\ _hadRemoteInteraction this' = _hadRemoteInteraction this
  /\ _pollingStartedTime this' = _pollingStartedTime this
  /\ _pollTimer this' = _pollTimer this
  /\ _pollingCanceled this' = _pollingCanceled this.

(** Every part of the machine but the session object. *)
Definition same_runtime {World : Type} (m m' : Machine World) : Prop :=
  timers m' = timers m
  /\ immediates m' = immediates m
  /\ inflight m' = inflight m
  /\ emitted m' = emitted m
  /\ calls m' = calls m
  /\ world m' = world m
  /\ suspended m' = suspended m.

(** The consistency of the tokens of a session: the subjects of the two
    tokens agree, and they agree with the account identifier of the
    session-start response. *)
Definition token_invariant (helpers : Helpers) (this : Session) : Prop :=
  (forall a r,
      subject helpers (_accessToken this) = Some a ->
      subject helpers (_refreshToken this) = Some r -> a = r)
  /\ (forall resp slot x,
         _startSessionResponse this = Some resp ->
         subject helpers (stored slot this) = Some x -> x = steamId resp).

(** The result code with which the server refuses a wrong code of the
    kind that a challenge asks for. *)
Definition wrong_code_for (t : EAuthSessionGuardType.t) : EResult.t :=
  match t with
  | EAuthSessionGuardType.EmailCode => EResult.InvalidLoginAuthCode
  | _ => EResult.TwoFactorCodeMismatch
  end.

Definition is_code_challenge (t : EAuthSessionGuardType.t) : bool :=
  match t with
  | EAuthSessionGuardType.EmailCode
  | EAuthSessionGuardType.DeviceCode => true
  | _ => false
  end.

(** Challenges whose round sends no request and always goes on to the next
    round. *)
Definition is_passive (t : EAuthSessionGuardType.t) : bool :=
  match t with
  | EAuthSessionGuardType.MachineToken
  | EAuthSessionGuardType.DeviceConfirmation
  | EAuthSessionGuardType.EmailConfirmation => true
  | _ => false
  end.

(** The entry of the caller-facing list for a code challenge that is left
    to the user. *)
Definition pending_action (i : AllowedConfirmation)
  : StartSessionResponseValidAction :=
  {| action_type := type i;
     detail := if truthy_string (conf_message i) then conf_message i
               else Datatypes.None |}.

(** The machine once [_processStartSessionResponse] has reset the
    cancellation flag. *)
Definition polling_reopened {World : Type} (m : Machine World)
  : Machine World :=
  with_this (with_pollingCanceled (Some false) (this m)) m.

(** The machine once [submitSteamGuardCode] has sent its request and the
    world has moved to [w]. *)
Definition code_submitted {World : Type}
  (r : StartAuthSessionWithCredentialsResponse) (authCode : string)
  (w : World) (m : Machine World) : Machine World :=
  with_world w
    (with_calls (calls m ++ [Call_submitSteamGuardCode (submit_params r authCode)])
       (with_emitted (emitted m ++ [Ev_debug "submitting steam guard code"]) m)).

(** The value of the promise that is fulfilled first, in the order in
    which the promises settle. *)
Fixpoint first_fulfilled {A : Type} (promises : list (option (Result A)))
  (order : list nat) : option A :=
  match order with
  | [] => Datatypes.None
  | i :: order' =>
      match nth_error promises i with
      | Some (Some (Return v)) => Some v
      | _ => first_fulfilled promises order'
      end
  end.

(** The reason with which promise [i] is rejected. *)
Definition failure_of {A : Type} (promises : list (option (Result A)))
  (i : nat) : option Error :=
  match nth_error promises i with
  | Some (Some (Throw e)) => Some e
  | _ => Datatypes.None
  end.

(** The state of the promise of [promiseAny] by the order of settling: the
    first fulfilment; or, when there is none and all promises have settled,
    the rejection that came first; or still pending. *)
Definition first_success_else_first_failure {A : Type}
  (promises : list (option (Result A))) (order : list nat)
  : option (Settled A) :=
  match first_fulfilled promises order with
  | Some v => Some (Resolved v)
  | Datatypes.None =>
      match order with
      | [] => Datatypes.None
      | i :: _ =>
          if Nat.eqb (length order) (length promises)
          then Some (Rejected (failure_of promises i))
          else Datatypes.None
      end
  end.

(** [order] is an order in which promises settle: no promise twice, and
    only promises that settle. *)
Definition settling_order {A : Type} (promises : list (option (Result A)))
  (order : list nat) : Prop :=
  NoDup order
  /\ forall i, In i order -> exists s, nth_error promises i = Some (Some s).

(** ** Stand-ins for the collaborators, for concrete runs *)

Module Doubles.

(** Tokens of the form [jwt:<subject>]. *)
Definition decodeJwt (token : string) : Result Jwt :=
  if String.prefix "jwt:" token
  then Return {| sub := String.substring 4 (String.length token - 4) token |}
  else Throw (new_Error "Invalid JWT").

Definition is_digit (a : ascii) : bool :=
  let n := nat_of_ascii a in Nat.leb 48 n && Nat.leb n 57.

(** Account identifiers in their 64-bit decimal rendering. *)
Definition SteamID_valid (s : string) : bool :=
  negb (String.eqb s "") && forallb is_digit (list_ascii_of_string s).

Definition helpers : Helpers :=
  Build_Helpers decodeJwt SteamID_valid.

Definition enums : Enums :=
  {| ESessionPersistence_Persistent := 1;
     guardTypeString := fun _ => "?" |}.

(** A server that always gives the same answers. *)
Definition handler (started : StartAuthSessionWithCredentialsResponse)
  (submitted : Result unit) (checked : Result CheckMachineAuthResponse)
  : AuthenticationClient unit :=
  {| h_encryptPassword := fun _ _ w => (Return "encrypted", w);
     h_startSessionWithCredentials := fun _ w => (Return started, w);
     h_submitSteamGuardCode := fun _ w => (submitted, w);
     h_checkMachineAuthOrSendCodeEmail := fun _ w => (checked, w) |}.

Definition alice : string := "76561198000000001".
Definition bob : string := "76561198000000002".

Definition confirmation (t : EAuthSessionGuardType.t) : AllowedConfirmation :=
  {| type := t; conf_message := Datatypes.None |}.

Definition started_for (account : string)
  (confirmations : list EAuthSessionGuardType.t)
  : StartAuthSessionWithCredentialsResponse :=
  {| clientId := "client";
     requestId := "request";
     pollInterval := 5;
     allowedConfirmations := map confirmation confirmations;
     steamId := account |}.

Definition login (code : option string)
  : StartLoginSessionWithCredentialsDetails :=
  {| details_accountName := "alice";
     details_password := "secret";
     details_persistence := Datatypes.None;
     details_websiteId := Datatypes.None;
     details_steamGuardCode := code;
     details_steamGuardMachineToken := Datatypes.None;
     details_deviceFriendlyName := Datatypes.None |}.

Definition rejection (code : EResult.t) : Error :=
  {| message := "rejected"; eresult := Some code |}.

Definition accepted : Result CheckMachineAuthResponse :=
  Return {| result := EResult.OK |}.

Definition fresh : Machine unit := boot Datatypes.None tt.

Definition token_of (account : string) : string := "jwt:" ++ account.

(** The answer of a poll while the login is not confirmed yet. *)
Definition not_yet : PollResponse :=
  {| newClientId := Datatypes.None;
     poll_accessToken := Datatypes.None;
     poll_refreshToken := Datatypes.None;
     poll_accountName := Datatypes.None;
     hadRemoteInteraction := Datatypes.None |}.

(** The answer of a poll once the login is confirmed. *)
Definition tokens_of (account : string) : PollResponse :=
  {| newClientId := Datatypes.None;
     poll_accessToken := Some (token_of account);
     poll_refreshToken := Some (token_of account);
     poll_accountName := Some "alice";
     hadRemoteInteraction := Datatypes.None |}.

(** A server that asks for a confirmation on the device of [account]. *)
Definition confirming (account : string) : AuthenticationClient unit :=
  handler (started_for account [EAuthSessionGuardType.DeviceConfirmation])
    (Return tt) accepted.

(** The machine after a run from a fresh session. *)
Definition after (server : AuthenticationClient unit) (ts : list Task)
  : Machine unit :=
  match run helpers enums server ts fresh with
  | Some m => m
  | Datatypes.None => fresh
  end.

(** A login that waits: the first tick has polled, the answer was
    [not_yet], the next tick is scheduled. *)
Definition waiting : list Task :=
  [T_startWithCredentials (login Datatypes.None);
   T_immediate 1000 1000;
   T_poll_settles (Return not_yet)].

(** A login that went through: the scheduled tick has fired and its poll
    brought the tokens. *)
Definition logged_in : list Task :=
  waiting ++ [T_timer 0 6000 6000; T_poll_settles (Return (tokens_of alice))].

(** A login canceled while it waited. *)
Definition canceled_waiting : list Task :=
  waiting ++ [T_cancelLoginAttempt].


(** A session that holds an access token of [alice]. *)
Definition holding_token : list Task :=
  [T_set_accessToken (Some (token_of alice))].

(** The same session logging in again. *)
Definition relogin : list Task :=
  holding_token ++ [T_startWithCredentials (login Datatypes.None)].

(** Servers and sessions for the code challenges. *)
Definition email_and_machine : StartAuthSessionWithCredentialsResponse :=
  started_for alice [EAuthSessionGuardType.EmailCode;
                     EAuthSessionGuardType.MachineToken].

Definition machine_token_only : StartAuthSessionWithCredentialsResponse :=
  started_for alice [EAuthSessionGuardType.MachineToken].

Definition refusing_then_trusting : AuthenticationClient unit :=
  handler email_and_machine
    (Throw (rejection EResult.InvalidLoginAuthCode)) accepted.

Definition started_with (started : StartAuthSessionWithCredentialsResponse)
  : Machine unit :=
  with_this (with_startSessionResponse (Some started) (this fresh)) fresh.

Definition holding_refresh_token : Session :=
  with_refreshToken (Some (token_of alice)) (constructor Datatypes.None).

(** Answers of transfer endpoints: no headers, cookies without the session
    marker, and a usable set of cookies. *)
Definition without_headers : Result HttpResponse :=
  Return {| headers := Datatypes.None |}.

Definition without_marker : Result HttpResponse :=
  Return {| headers := Some {| set_cookie := Some ["lang=en; Path=/"] |} |}.

Definition with_marker : Result HttpResponse :=
  Return {| headers :=
              Some {| set_cookie :=
                        Some ["steamLoginSecure=abc; Path=/; Secure";
                              "sessionid=123; Path=/"] |} |}.

Definition three_endpoints : list TransferInfo :=
  [ {| url := "https://a/"; params := [] |};
    {| url := "https://b/"; params := [] |};
    {| url := "https://c/"; params := [] |} ].

Definition three_transfers : FinalizeData :=
  {| error := Datatypes.None; transfer_info := Some three_endpoints |}.

Definition eresultError (code : Z) : Error :=
  {| message := "Error"; eresult := Some (EResult.Other code) |}.

(** Three transfers of which the second succeeds, and three that fail. *)
Definition second_succeeds : list (Result HttpResponse) :=
  [without_headers; with_marker; without_marker].

Definition all_fail : list (Result HttpResponse) :=
  [without_headers; without_marker; without_headers].

End Doubles.

(** ** The [steamID] getter *)

Section SteamID.
Variable helpers : Helpers.

(** The error that [new SteamID(input)] throws for an input it refuses; the
    package is not part of the source tree. *)
Variable SteamID_error : string -> Error.

(** [new SteamID(input)]: the identifier object is represented by the input
    it was built from. *)
Definition new_SteamID (input : string) : Result string :=
  if SteamID_valid helpers input then Return input
  else Throw (SteamID_error input).

(** [get steamID()]: [None] is [null].  The token that is decoded is
    [this.accessToken || this.refreshToken]. *)
Definition steamID (this : Session) : Result (option string) :=
  match _startSessionResponse this with
  | Some r =>
      match new_SteamID (steamId r) with
      | Return id => Return (Some id)
      | Throw e => Throw e
      end
  | Datatypes.None =>
      match or_string (_accessToken this) (_refreshToken this) with
      | Some (String _ _ as token) =>
          match decodeJwt helpers token with
          | Return decodedToken =>
              match new_SteamID (sub decodedToken) with
              | Return id => Return (Some id)
              | Throw e => Throw e
              end
          | Throw e => Throw e
          end
      | _ => Return Datatypes.None
      end
  end.

End SteamID.

(** ** More vocabulary *)

(** A computation keeps a property of the machine: the property holds after
    it, returning or throwing, when it held before. *)
Definition keeps {St A : Type} (I : St -> Prop) (c : M St A) : Prop :=
  forall s, I s -> I (snd (c s)).

(** The tokens that the session holds decode, and their subjects are
    account identifiers. *)
Definition tokens_wellformed (helpers : Helpers) (this : Session) : Prop :=
  forall slot t,
    stored slot this = Some t -> t <> "" ->
    exists decoded,
      decodeJwt helpers t = Return decoded
      /\ SteamID_valid helpers (sub decoded) = true.

(** The session-start response, if there is one, names an account. *)
Definition account_named (this : Session) : Prop :=
  forall r, _startSessionResponse this = Some r -> steamId r <> "".

(** The candidate's subject agrees with the session-start response: the
    test of the setters, as a proposition. *)
Definition agrees_with_start (s : string) (this : Session) : Prop :=
  forall r, _startSessionResponse this = Some r ->
            steamId r = "" \/ s = steamId r.

(** The candidate's subject agrees with the token of a slot: the slot is
    empty, or its token decodes and has the same subject. *)
Definition agrees_with_slot (helpers : Helpers) (s : string) (slot : Slot)
  (this : Session) : Prop :=
  truthy_string (stored slot this) = false
  \/ subject helpers (stored slot this) = Some s.

(** What [startWithCredentials] and the guard resolution leave alone: the
    identity and the polling history of the session, and the timers. *)
Definition same_login_state {World : Type} (m m' : Machine World) : Prop :=
  loginTimeout (this m') = loginTimeout (this m)
  /\ accountName (this m') = accountName (this m)
  /\ _accessToken (this m') = _accessToken (this m)
  /\ _refreshToken (this m') = _refreshToken (this m)
  /\ _platformType (this m') = _platformType (this m)
  /\ _pollingStartedTime (this m') = _pollingStartedTime (this m)
  /\ _pollTimer (this m') = _pollTimer (this m)
  /\ timers m' = timers m
  /\ inflight m' = inflight m.

(** The entry of the pending-action list for a challenge that is left to
    the user: a code challenge carries its message, a confirmation does
    not. *)
Definition action_for (i : AllowedConfirmation)
  : StartSessionResponseValidAction :=
  if is_code_challenge (type i) then pending_action i
  else {| action_type := type i; detail := Datatypes.None |}.

Definition is_confirmation (t : EAuthSessionGuardType.t) : bool :=
  match t with
  | EAuthSessionGuardType.DeviceConfirmation
  | EAuthSessionGuardType.EmailConfirmation => true
  | _ => false
  end.

(** The challenges of a list that reach the pending-action list when no
    challenge is resolved: all but [MachineToken]. *)
Definition surfaced (l : list AllowedConfirmation)
  : list StartSessionResponseValidAction :=
  map action_for
    (filter (fun i => negb (EAuthSessionGuardType.eqb (type i)
                              EAuthSessionGuardType.MachineToken)) l).

(** The number of polls that the confirmations of a list queue. *)
Definition polls_queued (l : list AllowedConfirmation) : nat :=
  length (filter (fun i => is_confirmation (type i)) l).

(** Does a character occur in a string? *)
Fixpoint occurs (a : ascii) (s : string) : bool :=
  match s with
  | EmptyString => false
  | String b s' => Ascii.eqb a b || occurs a s'
  end.

(** The round of challenge [i] is local: it sends no request and resolves
    nothing.  So it is for a passive challenge, and for a code challenge
    when no guard code was supplied and, for [EmailCode], [MachineToken] is
    not among the allowed confirmations [r]. *)
Definition left_to_user (this : Session)
  (r : StartAuthSessionWithCredentialsResponse) (i : AllowedConfirmation)
  : Prop :=
  is_passive (type i) = true
  \/ (is_code_challenge (type i) = true
      /\ truthy_string (_steamGuardCode this) = false
      /\ (type i = EAuthSessionGuardType.EmailCode ->
          some_confirmation EAuthSessionGuardType.MachineToken r = false)).

Definition is_remoteInteraction (e : Event) : bool :=
  match e with
  | Ev_remoteInteraction => true
  | _ => false
  end.

(** Does the answer of a poll request make the tick schedule the next
    one? *)
Definition reschedules {World : Type} (answer : Result PollResponse)
  (m : Machine World) : bool :=
  match answer with
  | Return p =>
      negb (truthy_string (poll_accessToken p))
      && negb (truthy_bool (_pollingCanceled (this m)))
  | Throw _ => false
  end.

(** How many times [remoteInteraction] was emitted. *)
Definition remoteInteractions (l : list Event) : nat :=
  length (filter is_remoteInteraction l).

(** The [remoteInteraction] events emitted so far, and the one that may
    still come while the flag that guards the event is not set. *)
Definition remote_budget {World : Type} (m : Machine World) : nat :=
  remoteInteractions (emitted m)
  + (if truthy_bool (_hadRemoteInteraction (this m)) then 0 else 1).

(** From [m] to [m'] no [remoteInteraction] event is lost, and none is
    emitted beyond the budget. *)
Definition remote_step {World : Type} (m m' : Machine World) : Prop :=
  remoteInteractions (emitted m) <= remoteInteractions (emitted m')
  /\ remote_budget m' <= remote_budget m.

(** How many poll requests were sent. *)
Definition is_poll_request (c : HandlerCall) : bool :=
  match c with
  | Call_pollLoginStatus _ => true
  | _ => false
  end.

Definition poll_requests (l : list HandlerCall) : nat :=
  length (filter is_poll_request l).

(** How a call ends, as the last step of the call, from the outcome of
    the method run in one go: of the loop of
    [_processStartSessionResponse] and the lines after it, of
    [startWithCredentials], of [submitSteamGuardCode]. *)
Definition loop_ends {World : Type} (c : Result Round * Machine World)
  : Result Step * Machine World :=
  match c with
  | (Return (Returned response), m) => (Return (Resolves response), m)
  | (Return (Next validActions), m) =>
      if Nat.eqb (length validActions) 0
      then (Throw (new_Error msg_ambiguous), m)
      else (Return (Resolves {| actionRequired := true;
                                validActions := Some validActions |}), m)
  | (Throw ex, m) => (Throw ex, m)
  end.

Definition resolves {World : Type}
  (c : Result StartSessionResponse * Machine World)
  : Result Step * Machine World :=
  match c with
  | (Return response, m) => (Return (Resolves response), m)
  | (Throw ex, m) => (Throw ex, m)
  end.

Definition returns {World : Type} (c : Result unit * Machine World)
  : Result Step * Machine World :=
  match c with
  | (Return _, m) => (Return Done, m)
  | (Throw ex, m) => (Throw ex, m)
  end.

(** The arrival of a session-start response: the step of
    [startWithCredentials] that stores it and resets the cancellation flag
    (lines 153-169), alone or within the uninterrupted run of the
    method. *)
Definition awaits_start_response (w : Awaiting) : bool :=
  match w with
  | W_startSession _ => true
  | _ => false
  end.

Definition stores_start_response {World : Type} (t : Task)
  (m : Machine World) : bool :=
  match t with
  | T_startWithCredentials _ => true
  | T_resumes k =>
      match nth_error (suspended m) k with
      | Some w => awaits_start_response w
      | Datatypes.None => false
      end
  | _ => false
  end.

(** No session-start response arrives in the run of [ts] from [m]. *)
Fixpoint no_start_response {World : Type} (helpers : Helpers)
  (enums : Enums) (handler : AuthenticationClient World) (ts : list Task)
  (m : Machine World) : bool :=
  match ts with
  | [] => true
  | t :: ts' =>
      negb (stores_start_response t m)
      && match perform helpers enums handler t m with
         | Some m' => no_start_response helpers enums handler ts' m'
         | Datatypes.None => true
         end
  end.

(** From [m] to [m'] the attempt stays canceled: the flag is set, no poll
    request is sent and no timer is scheduled. *)
Definition stays_canceled {World : Type} (m m' : Machine World) : Prop :=
  truthy_bool (_pollingCanceled (this m')) = true
  /\ poll_requests (calls m') = poll_requests (calls m)
  /\ length (timers m') = length (timers m).

(** The answer of a poll reports a remote interaction that the session has
    not noted yet (line 266). *)
Definition first_remote_interaction (p : PollResponse) (this : Session)
  : bool :=
  truthy_bool (hadRemoteInteraction p)
  && negb (truthy_bool (_hadRemoteInteraction this)).

(** The session-start response once the answer of a poll has updated its
    client id (line 264): [newClientId || clientId]. *)
Definition rotated (p : PollResponse)
  (r : StartAuthSessionWithCredentialsResponse)
  : StartAuthSessionWithCredentialsResponse :=
  with_clientId
    (match newClientId p with
     | Some (String _ _ as c) => c
     | _ => clientId r
     end) r.

(** The session once the answer of a poll has been noted (lines 264-269):
    the client id is updated and a first remote interaction is recorded. *)
Definition noted (p : PollResponse)
  (r : StartAuthSessionWithCredentialsResponse) (this : Session) : Session :=
  if first_remote_interaction p this
  then with_hadRemoteInteraction (Some true)
         (with_startSessionResponse (Some (rotated p r)) this)
  else with_startSessionResponse (Some (rotated p r)) this.

(** The session in which the tokens of the answer are assigned (line 272
    has overwritten the account name). *)
Definition polled (p : PollResponse)
  (r : StartAuthSessionWithCredentialsResponse) (this : Session) : Session :=
  with_accountName (poll_accountName p) (noted p r this).

(** What the answer of a poll makes the session emit before any token is
    assigned (lines 257-268). *)
Definition poll_events (p : PollResponse) (this : Session) : list Event :=
  Ev_debug "poll response"
  :: (if first_remote_interaction p this then [Ev_remoteInteraction] else []).

(** ** Further scenarios *)

Module Scenes.

(** A response that asks for a confirmation on the device or a code from
    the authenticator. *)
Definition device_or_code : StartAuthSessionWithCredentialsResponse :=
  Doubles.started_for Doubles.alice
    [EAuthSessionGuardType.DeviceConfirmation;
     EAuthSessionGuardType.DeviceCode].

(** A response whose second challenge needs nothing, and whose third is of
    a type that the code does not know. *)
Definition none_in_the_middle : StartAuthSessionWithCredentialsResponse :=
  Doubles.started_for Doubles.alice
    [EAuthSessionGuardType.DeviceConfirmation;
     EAuthSessionGuardType.None;
     EAuthSessionGuardType.Other 99].

(** A response whose second challenge is of an unknown type. *)
Definition unknown_in_the_middle : StartAuthSessionWithCredentialsResponse :=
  Doubles.started_for Doubles.alice
    [EAuthSessionGuardType.EmailConfirmation;
     EAuthSessionGuardType.Other 99;
     EAuthSessionGuardType.None].

(** A server that refuses to start a session. *)
Definition refusing_start : AuthenticationClient unit :=
  {| h_encryptPassword := fun _ _ w => (Return "encrypted", w);
     h_startSessionWithCredentials :=
       fun _ w => (Throw (Doubles.rejection (EResult.Other 5)), w);
     h_submitSteamGuardCode := fun _ w => (Return tt, w);
     h_checkMachineAuthOrSendCodeEmail := fun _ w => (Doubles.accepted, w) |}.

(** The answer of a poll that reports an interaction with the login on
    another device, the login not being confirmed yet. *)
Definition seen_remotely : PollResponse :=
  {| newClientId := Some "client2";
     poll_accessToken := Datatypes.None;
     poll_refreshToken := Datatypes.None;
     poll_accountName := Datatypes.None;
     hadRemoteInteraction := Some true |}.

(** A session of [alice] that has just been started. *)
Definition just_started : Machine unit :=
  Doubles.after (Doubles.confirming Doubles.alice)
    [T_startWithCredentials (Doubles.login Datatypes.None)].

(** Two ticks, each of which learns of the remote interaction. *)
Definition seen_twice : list Task :=
  [T_immediate 1000 1000;
   T_poll_settles (Return seen_remotely);
   T_timer 0 6000 6000;
   T_poll_settles (Return seen_remotely)].

Definition after_seen_twice : Machine unit :=
  match run Doubles.helpers Doubles.enums (Doubles.confirming Doubles.alice)
          seen_twice just_started with
  | Some m => m
  | Datatypes.None => just_started
  end.

(** Three transfers of which the second request fails and the others
    bring no usable cookies. *)
Definition one_request_fails : list (Result HttpResponse) :=
  [Doubles.without_headers;
   Throw (new_Error "socket hang up");
   Doubles.without_marker].

(** A login that was canceled while it waited, and what the caller and the
    event loop do afterwards: a code is submitted, the poll that this
    queues runs, [startWithCredentials] is called again and its password
    is encrypted. *)
Definition canceled : Machine unit :=
  Doubles.after
    (Doubles.handler device_or_code (Return tt) Doubles.accepted)
    ([T_startWithCredentials (Doubles.login Datatypes.None);
      T_immediate 1000 1000;
      T_poll_settles (Return Doubles.not_yet);
      T_cancelLoginAttempt]).

Definition code_after_cancel : list Task :=
  [T_submitSteamGuardCode "12345"; T_immediate 2000 2000;
   T_call_startWithCredentials (Doubles.login Datatypes.None);
   T_resumes 0].

Definition after_code_after_cancel : Machine unit :=
  match run Doubles.helpers Doubles.enums
          (Doubles.handler device_or_code (Return tt) Doubles.accepted)
          code_after_cancel canceled with
  | Some m => m
  | Datatypes.None => canceled
  end.

(** [startWithCredentials] is called and its password is encrypted; the
    attempt is canceled while the call waits for the session-start
    response. *)
Definition canceled_while_starting : Machine unit :=
  Doubles.after (Doubles.confirming Doubles.alice)
    [T_call_startWithCredentials (Doubles.login Datatypes.None);
     T_resumes 0;
     T_cancelLoginAttempt].

(** The answer of a poll whose access token is of [alice] and whose refresh
    token is of [bob]. *)
Definition mixed_tokens : PollResponse :=
  {| newClientId := Datatypes.None;
     poll_accessToken := Some (Doubles.token_of Doubles.alice);
     poll_refreshToken := Some (Doubles.token_of Doubles.bob);
     poll_accountName := Some "alice";
     hadRemoteInteraction := Datatypes.None |}.

End Scenes.

(** * Properties *)

Lemma truthy_string_Some (s : option string) :
  truthy_string s = true -> exists t, s = Some t /\ t <> "".
Proof.
  destruct s as [[|c t]|]; simpl; try discriminate.
  intros _. exists (String c t). split; [reflexivity|discriminate].
Qed.

Lemma truthy_string_nonempty (t : string) :
  t <> "" -> truthy_string (Some t) = true.
Proof. destruct t; [congruence|reflexivity]. Qed.

Lemma EResult_eqb_eq (a b : EResult.t) : EResult.eqb a b = true <-> a = b.
Proof.
  destruct a, b; simpl; split; intros H;
    try reflexivity; try discriminate.
  - apply Z.eqb_eq in H. now subst.
  - injection H as ->. apply Z.eqb_refl.
Qed.

Lemma EAuthSessionGuardType_eqb_eq (a b : EAuthSessionGuardType.t) :
  EAuthSessionGuardType.eqb a b = true <-> a = b.
Proof.
  destruct a, b; simpl; split; intros H;
    try reflexivity; try discriminate.
  - apply Z.eqb_eq in H. now subst.
  - injection H as ->. apply Z.eqb_refl.
Qed.

(** Unfolding of the monad. *)
Ltac run_monad :=
  unfold bind, ret, throw, gets, modify, liftR, try_catch in *; simpl in *.

(** *** Token assignment *)

Lemma subject_Some (helpers : Helpers) (token : option string) (s : string) :
  subject helpers token = Some s ->
  exists t decoded,
    token = Some t /\ t <> "" /\ decodeJwt helpers t = Return decoded
    /\ sub decoded = s.
Proof.
  unfold subject. destruct token as [[|c t]|]; try discriminate.
  destruct (decodeJwt helpers (String c t)) as [d|e] eqn:E; try discriminate.
  intros [= <-]. exists (String c t), d. repeat split; [discriminate|exact E].
Qed.

(** A setter that throws leaves the session as it was. *)
Lemma assign_throw_unchanged (helpers : Helpers) (slot : Slot)
  (token : option string) (this this' : Session) (e : Error) :
  assign helpers slot token this = (Throw e, this') -> this' = this.
Proof.
  destruct slot; simpl; unfold set_accessToken, set_refreshToken;
    destruct token as [[|c t]|]; run_monad; try discriminate;
    destruct (decodeJwt helpers (String c t)) as [d|e1]; simpl;
    try (intros [= _ <-]; reflexivity);
    destruct (SteamID_valid helpers (sub d)); simpl;
    try (intros [= _ <-]; reflexivity);
    destruct (differs_from_start d this); simpl;
    try (intros [= _ <-]; reflexivity).
  - destruct (_refreshToken this) as [[|c' t']|]; simpl; try discriminate.
    destruct (decodeJwt helpers (String c' t')) as [d'|e2]; simpl;
      try (intros [= _ <-]; reflexivity).
    destruct (String.eqb (sub d') (sub d)); simpl;
      [discriminate | intros [= _ <-]; reflexivity].
  - destruct (_accessToken this) as [[|c' t']|]; simpl; try discriminate.
    destruct (decodeJwt helpers (String c' t')) as [d'|e2]; simpl;
      try (intros [= _ <-]; reflexivity).
    destruct (String.eqb (sub d') (sub d)); simpl;
      [discriminate | intros [= _ <-]; reflexivity].
Qed.

(** A setter that returns has stored the token. *)
Lemma assign_return_stored (helpers : Helpers) (slot : Slot)
  (token : option string) (this this' : Session) :
  assign helpers slot token this = (Return tt, this') ->
  this' = match slot with
          | AccessToken => with_accessToken token this
          | RefreshToken => with_refreshToken token this
          end.
Proof.
  destruct slot; simpl; unfold set_accessToken, set_refreshToken;
    destruct token as [[|c t]|]; run_monad;
    try (intros [= <-]; reflexivity);
    destruct (decodeJwt helpers (String c t)) as [d|e1]; simpl;
    try discriminate;
    destruct (SteamID_valid helpers (sub d)); simpl; try discriminate;
    destruct (differs_from_start d this); simpl; try discriminate.
  - destruct (_refreshToken this) as [[|c' t']|]; simpl;
      try (intros [= <-]; reflexivity).
    destruct (decodeJwt helpers (String c' t')) as [d'|e2]; simpl;
      try discriminate.
    destruct (String.eqb (sub d') (sub d)); simpl;
      [intros [= <-]; reflexivity | discriminate].
  - destruct (_accessToken this) as [[|c' t']|]; simpl;
      try (intros [= <-]; reflexivity).
    destruct (decodeJwt helpers (String c' t')) as [d'|e2]; simpl;
      try discriminate.
    destruct (String.eqb (sub d') (sub d)); simpl;
      [intros [= <-]; reflexivity | discriminate].
Qed.

(** C1.  For every session and every candidate token whose embedded subject
    (a valid account identifier, in a token that decodes) differs from the
    subject of the token already set in the other slot, or from the account
    identifier of the recorded session-start response, assigning the token
    to the access-token slot, or symmetrically to the refresh-token slot,
    throws a mismatch error and leaves the session, hence the previously
    stored token, unchanged. *)
Theorem assign_mismatch_rejected (helpers : Helpers) (slot : Slot)
  (this : Session) (token : string) (decoded : Jwt) :
  token <> "" ->
  decodeJwt helpers token = Return decoded ->
  SteamID_valid helpers (sub decoded) = true ->
  conflicts helpers slot (sub decoded) this ->
  exists e,
    assign helpers slot (Some token) this = (Throw e, this)
    /\ is_mismatch_error e = true
    /\ stored slot (snd (assign helpers slot (Some token) this))
       = stored slot this.
Proof.
  intros Hne Hdec Hvalid Hconf.
  assert (Hthrow : exists e,
             assign helpers slot (Some token) this = (Throw e, this)
             /\ is_mismatch_error e = true).
  { destruct token as [|c t]; [congruence|].
    destruct (differs_from_start decoded this) eqn:Hstart.
    - exists (new_Error msg_different_account).
      split; [|reflexivity].
      destruct slot; simpl; unfold set_accessToken, set_refreshToken;
        run_monad; rewrite Hdec; simpl; rewrite Hvalid; simpl;
        rewrite Hstart; reflexivity.
    - destruct Hconf as [(r & Hr & Hid & Hdiff) | (s' & Hs' & Hdiff)].
      + exfalso. unfold differs_from_start in Hstart. rewrite Hr in Hstart.
        rewrite (truthy_string_nonempty Hid) in Hstart. simpl in Hstart.
        apply negb_false_iff, String.eqb_eq in Hstart. contradiction.
      + apply subject_Some in Hs'.
        destruct Hs' as (rt & d' & Hrt & Hrtne & Hd' & Hsub).
        destruct rt as [|c' t']; [congruence|].
        assert (Hneq : String.eqb (sub d') (sub decoded) = false)
          by (apply String.eqb_neq; congruence).
        destruct slot; simpl in Hrt.
        * exists (new_Error msg_access_differs_from_refresh).
          split; [|reflexivity].
          simpl; unfold set_accessToken; run_monad.
          rewrite Hdec; simpl; rewrite Hvalid; simpl; rewrite Hstart; simpl.
          rewrite Hrt; simpl. rewrite Hd'; simpl. rewrite Hneq. reflexivity.
        * exists (new_Error msg_refresh_differs_from_access).
          split; [|reflexivity].
          simpl; unfold set_refreshToken; run_monad.
          rewrite Hdec; simpl; rewrite Hvalid; simpl; rewrite Hstart; simpl.
          rewrite Hrt; simpl. rewrite Hd'; simpl. rewrite Hneq. reflexivity. }
  destruct Hthrow as (e & He & Hm). exists e.
  repeat split; try assumption. now rewrite He.
Qed.

(** A refresh token for one account is set; an access token for another
    account is refused. *)
Lemma assign_mismatch_rejected_witness :
  exists e,
    assign Doubles.helpers AccessToken (Some (Doubles.token_of Doubles.bob))
      Doubles.holding_refresh_token
    = (Throw e, Doubles.holding_refresh_token)
    /\ is_mismatch_error e = true
    /\ stored AccessToken
         (snd (assign Doubles.helpers AccessToken
                 (Some (Doubles.token_of Doubles.bob))
                 Doubles.holding_refresh_token))
       = stored AccessToken Doubles.holding_refresh_token.
Proof.
  apply (@assign_mismatch_rejected Doubles.helpers AccessToken
           Doubles.holding_refresh_token (Doubles.token_of Doubles.bob)
           {| sub := Doubles.bob |}).
  - discriminate.
  - reflexivity.
  - reflexivity.
  - right. exists Doubles.alice. split; [reflexivity | discriminate].
Defined.

(** The order of the checks: a candidate whose subject is not an account
    identifier is refused as not valid before any comparison of subjects,
    also when its subject differs from that of the other token. *)
Lemma assign_invalid_subject_first :
  decodeJwt Doubles.helpers "jwt:abc" = Return {| sub := "abc" |}
  /\ SteamID_valid Doubles.helpers "abc" = false
  /\ subject Doubles.helpers (_refreshToken Doubles.holding_refresh_token)
     = Some Doubles.alice
  /\ assign Doubles.helpers AccessToken (Some "jwt:abc")
       Doubles.holding_refresh_token
     = (Throw (new_Error msg_not_valid_token), Doubles.holding_refresh_token).
Proof. repeat split. Qed.

(** C9.  Whether it returns or throws, assigning the access token changes
    no field of the session other than the access-token slot, and nothing
    of the event loop; assigning the refresh token changes no field other
    than the refresh-token slot. *)
Theorem assign_frame (helpers : Helpers) (World : Type) (slot : Slot)
  (token : option string) (m : Machine World) :
  let this' := snd (assign helpers slot token (this m)) in
  let m' := snd (on_session (assign helpers slot token) m) in
  same_but_tokens (this m) this'
  /\ stored (other_slot slot) this' = stored (other_slot slot) (this m)
  /\ this m' = this'
  /\ same_runtime m m'.
Proof.
  intros this' m'. subst this' m'. unfold on_session.
  destruct (assign helpers slot token (this m)) as [[[]|e] s] eqn:E; simpl.
  - apply assign_return_stored in E. subst s.
    destruct slot; repeat split; reflexivity.
  - apply assign_throw_unchanged in E. subst s.
    destruct slot; repeat split; reflexivity.
Qed.

(** *** Guard resolution *)

Section GuardResolution.
Context {World : Type}.
Variable enums : Enums.
Variable handler : AuthenticationClient World.

Lemma some_confirmation_In (t : EAuthSessionGuardType.t)
  (r : StartAuthSessionWithCredentialsResponse) (i : AllowedConfirmation) :
  In i (allowedConfirmations r) -> type i = t ->
  some_confirmation t r = true.
Proof.
  intros Hin Ht. unfold some_confirmation. apply existsb_exists.
  exists i. split; [assumption|].
  apply EAuthSessionGuardType_eqb_eq. assumption.
Qed.

(** What [submitSteamGuardCode] does when the session has started and a
    code is called for. *)
Lemma submitSteamGuardCode_sent (authCode : string) (m : Machine World)
  (r : StartAuthSessionWithCredentialsResponse) :
  _startSessionResponse (this m) = Some r ->
  some_confirmation EAuthSessionGuardType.EmailCode r
  || some_confirmation EAuthSessionGuardType.DeviceCode r = true ->
  submitSteamGuardCode handler authCode m
  = match h_submitSteamGuardCode handler (submit_params r authCode) (world m)
    with
    | (Return u, w) =>
        (Return tt,
         with_immediates (S (immediates m)) (code_submitted r authCode w m))
    | (Throw ex, w) => (Throw ex, code_submitted r authCode w m)
    end.
Proof.
  intros Hr Hneeds.
  unfold submitSteamGuardCode, _verifyStarted, the_startSessionResponse,
    emit, ask, setImmediate_doPoll.
  run_monad. rewrite Hr. simpl. rewrite Hr. simpl.
  destruct (some_confirmation EAuthSessionGuardType.EmailCode r);
    destruct (some_confirmation EAuthSessionGuardType.DeviceCode r);
    simpl in *; try discriminate;
    destruct (h_submitSteamGuardCode handler (submit_params r authCode)
                (world m)) as [[[]|ex] w]; reflexivity.
Qed.

(** The shared submission block, when the server refuses the code. *)
Lemma submit_supplied_code_refused (wrong : EResult.t) (m : Machine World)
  (r : StartAuthSessionWithCredentialsResponse) (c : string) (ex : Error)
  (w : World) :
  _startSessionResponse (this m) = Some r ->
  some_confirmation EAuthSessionGuardType.EmailCode r
  || some_confirmation EAuthSessionGuardType.DeviceCode r = true ->
  _steamGuardCode (this m) = Some c -> c <> "" ->
  h_submitSteamGuardCode handler (submit_params r c) (world m)
  = (Throw ex, w) ->
  submit_supplied_code handler wrong m
  = if eresult_differs ex wrong
    then (Throw ex, code_submitted r c w m)
    else (Return false, code_submitted r c w m).
Proof.
  intros Hr Hneeds Hc Hne Hsub.
  unfold submit_supplied_code. unfold bind at 1, gets at 1. rewrite Hc.
  destruct c as [|a c']; [congruence|].
  unfold try_catch, bind.
  rewrite (submitSteamGuardCode_sent _ _ Hr Hneeds), Hsub.
  destruct (eresult_differs ex wrong); reflexivity.
Qed.

(** The shared submission block, when no code was supplied. *)
Lemma submit_supplied_code_absent (wrong : EResult.t) (m : Machine World) :
  truthy_string (_steamGuardCode (this m)) = false ->
  submit_supplied_code handler wrong m = (Return false, m).
Proof.
  intros Hc. unfold submit_supplied_code. run_monad.
  destruct (_steamGuardCode (this m)) as [[|a c]|];
    try reflexivity; discriminate.
Qed.

End GuardResolution.

Section GuardRounds.
Context {World : Type}.
Variable enums : Enums.
Variable handler : AuthenticationClient World.

Lemma eresult_differs_wrong (ex : Error) (code : EResult.t) :
  eresult ex = Some code -> eresult_differs ex code = false.
Proof.
  intros H. unfold eresult_differs. rewrite H.
  apply negb_false_iff, EResult_eqb_eq. reflexivity.
Qed.

(** The email attempt after a refusal with the wrong-code result, or
    without a code: the machine-token check decides. *)
Lemma _attemptEmailCodeAuth_after_code (m m1 : Machine World)
  (r : StartAuthSessionWithCredentialsResponse) :
  submit_supplied_code handler EResult.InvalidLoginAuthCode m
  = (Return false, m1) ->
  this m1 = this m ->
  _startSessionResponse (this m) = Some r ->
  _attemptEmailCodeAuth handler m
  = if some_confirmation EAuthSessionGuardType.MachineToken r then
      match h_checkMachineAuthOrSendCodeEmail handler
              (check_params (this m) r) (world m1) with
      | (Return res, w) =>
          let m2 :=
            with_world w
              (with_calls
                 (calls m1 ++
                  [Call_checkMachineAuthOrSendCodeEmail
                     (check_params (this m) r)]) m1) in
          if EResult.eqb (result res) EResult.OK
          then (Return true, with_immediates (S (immediates m2)) m2)
          else (Return false, m2)
      | (Throw ex, w) =>
          (Throw ex,
           with_world w
             (with_calls
                (calls m1 ++
                 [Call_checkMachineAuthOrSendCodeEmail
                    (check_params (this m) r)]) m1))
      end
    else (Return false, m1).
Proof.
  intros Hsub Hthis Hr.
  unfold _attemptEmailCodeAuth. unfold bind at 1. rewrite Hsub.
  unfold the_startSessionResponse, ask, setImmediate_doPoll. run_monad.
  rewrite Hthis, Hr. simpl.
  destruct (some_confirmation EAuthSessionGuardType.MachineToken r);
    [|reflexivity].
  rewrite Hthis.
  destruct (h_checkMachineAuthOrSendCodeEmail handler
              (check_params (this m) r) (world m1)) as [[res|ex] w];
    [|reflexivity].
  simpl. destruct (EResult.eqb (result res) EResult.OK); reflexivity.
Qed.

(** C10.  In the resolution of an [EmailCode] challenge, when the allowed
    confirmations include [MachineToken], the machine-token check is
    requested both when no guard code was supplied and when the supplied
    code has just been refused with the wrong-code result; the request
    carries the machine-auth token stored in the session, also when none
    is stored. *)
Theorem machine_token_shortcut_attempted (m : Machine World)
  (r : StartAuthSessionWithCredentialsResponse) :
  _startSessionResponse (this m) = Some r ->
  some_confirmation EAuthSessionGuardType.EmailCode r = true ->
  some_confirmation EAuthSessionGuardType.MachineToken r = true ->
  truthy_string (_steamGuardCode (this m)) = false
  \/ (exists c ex w,
         _steamGuardCode (this m) = Some c /\ c <> ""
         /\ h_submitSteamGuardCode handler (submit_params r c) (world m)
            = (Throw ex, w)
         /\ eresult ex = Some EResult.InvalidLoginAuthCode) ->
  calls (snd (_attemptEmailCodeAuth handler m))
  = calls m
    ++ (if truthy_string (_steamGuardCode (this m))
        then match _steamGuardCode (this m) with
             | Some c => [Call_submitSteamGuardCode (submit_params r c)]
             | Datatypes.None => []
             end
        else [])
    ++ [Call_checkMachineAuthOrSendCodeEmail
          {| machineAuthToken := _steamGuardMachineToken (this m);
             check_session := r |}].
Proof.
  intros Hr Hemail Hmachine [Hnone | (c & ex & w & Hc & Hne & Hsub & Hex)].
  - rewrite Hnone.
    rewrite (@_attemptEmailCodeAuth_after_code m m r
               (submit_supplied_code_absent handler _ m Hnone)
               eq_refl Hr).
    rewrite Hmachine. unfold check_params.
    destruct (h_checkMachineAuthOrSendCodeEmail handler _ (world m))
      as [[res|e] w]; simpl; [|reflexivity].
    destruct (EResult.eqb (result res) EResult.OK); reflexivity.
  - assert (Hneeds : some_confirmation EAuthSessionGuardType.EmailCode r
                     || some_confirmation EAuthSessionGuardType.DeviceCode r
                     = true) by (rewrite Hemail; reflexivity).
    pose proof (submit_supplied_code_refused handler
                  EResult.InvalidLoginAuthCode m Hr Hneeds Hc Hne Hsub)
      as Hrun.
    rewrite (eresult_differs_wrong _ Hex) in Hrun.
    rewrite (@_attemptEmailCodeAuth_after_code m _ r Hrun eq_refl Hr).
    rewrite Hmachine, Hc, (truthy_string_nonempty Hne).
    unfold check_params.
    destruct (h_checkMachineAuthOrSendCodeEmail handler _ _)
      as [[res|e] w']; simpl.
    + destruct (EResult.eqb (result res) EResult.OK); simpl;
        rewrite <- app_assoc; reflexivity.
    + rewrite <- app_assoc; reflexivity.
Qed.

End GuardRounds.

Section CodeChallenges.
Context {World : Type}.
Variable enums : Enums.
Variable handler : AuthenticationClient World.

(** Rounds for passive challenges only emit and queue polls: the session
    and the world are as before when the next round starts. *)
Lemma process_confirmations_passive (pre rest : list AllowedConfirmation) :
  forallb (fun c => is_passive (type c)) pre = true ->
  forall (va : list StartSessionResponseValidAction) (m : Machine World),
  exists va1 m1,
    this m1 = this m /\ world m1 = world m
    /\ process_confirmations enums handler (pre ++ rest) va m
       = process_confirmations enums handler rest va1 m1.
Proof.
  induction pre as [|i pre IH]; intros Hpre va m.
  - exists va, m. repeat split.
  - simpl in Hpre. apply andb_prop in Hpre as [Hi Hpre].
    simpl. unfold bind at 1. unfold process_confirmation.
    destruct (type i); try discriminate; unfold emit, setImmediate_doPoll;
      run_monad.
    + destruct (IH Hpre
                  (va ++ [{| action_type := EAuthSessionGuardType.DeviceConfirmation;
                             detail := Datatypes.None |}])
                  (with_immediates (S (immediates m))
                     (with_emitted
                        (emitted m ++
                         [Ev_debug "device or email confirmation guard required"])
                        m)))
        as (va1 & m1 & Ht & Hw & Heq).
      exists va1, m1. repeat split; assumption.
    + destruct (IH Hpre
                  (va ++ [{| action_type := EAuthSessionGuardType.EmailConfirmation;
                             detail := Datatypes.None |}])
                  (with_immediates (S (immediates m))
                     (with_emitted
                        (emitted m ++
                         [Ev_debug "device or email confirmation guard required"])
                        m)))
        as (va1 & m1 & Ht & Hw & Heq).
      exists va1, m1. repeat split; assumption.
    + destruct (IH Hpre va m) as (va1 & m1 & Ht & Hw & Heq).
      exists va1, m1. repeat split; assumption.
Qed.

(** The round of a code challenge whose supplied code the server refuses
    with a result other than the wrong-code result of the challenge. *)
Lemma round_refused_fatal (i : AllowedConfirmation)
  (va : list StartSessionResponseValidAction) (m : Machine World)
  (r : StartAuthSessionWithCredentialsResponse) (c : string) (ex : Error)
  (w : World) :
  is_code_challenge (type i) = true ->
  In i (allowedConfirmations r) ->
  _startSessionResponse (this m) = Some r ->
  _steamGuardCode (this m) = Some c -> c <> "" ->
  h_submitSteamGuardCode handler (submit_params r c) (world m)
  = (Throw ex, w) ->
  eresult_differs ex (wrong_code_for (type i)) = true ->
  fst (process_confirmation enums handler i va m) = Throw ex.
Proof.
  intros Hcode Hin Hr Hc Hne Hsub Hdiff.
  assert (Hneeds : some_confirmation EAuthSessionGuardType.EmailCode r
                   || some_confirmation EAuthSessionGuardType.DeviceCode r
                   = true).
  { destruct (type i) eqn:Ht; try discriminate.
    - rewrite (some_confirmation_In r i Hin Ht). reflexivity.
    - rewrite (some_confirmation_In r i Hin Ht). apply orb_true_r. }
  unfold process_confirmation.
  destruct (type i) eqn:Ht; try discriminate; simpl in Hdiff.
  - unfold bind at 1, emit at 1, modify at 1.
    unfold bind at 1, _attemptEmailCodeAuth. unfold bind at 1.
    rewrite (@submit_supplied_code_refused _ handler _ _ r c ex w);
      try assumption.
    rewrite Hdiff. reflexivity.
  - unfold bind at 1, emit at 1, modify at 1.
    unfold bind at 1, _attemptTotpCodeAuth. unfold bind at 1.
    rewrite (@submit_supplied_code_refused _ handler _ _ r c ex w);
      try assumption.
    rewrite Hdiff. reflexivity.
Qed.

(** [startWithCredentials] up to the processing of the response. *)
Lemma startWithCredentials_started
  (details : StartLoginSessionWithCredentialsDetails) (m : Machine World)
  (enc : EncryptedPassword) (w1 w2 : World)
  (r : StartAuthSessionWithCredentialsResponse) :
  h_encryptPassword handler (details_accountName details)
    (details_password details) (world m) = (Return enc, w1) ->
  h_startSessionWithCredentials handler
    (start_params enums details enc (this m)) w1 = (Return r, w2) ->
  exists m0,
    this m0
    = with_startSessionResponse (Some r)
        (with_steamGuardMachineToken (details_steamGuardMachineToken details)
           (with_steamGuardCode (details_steamGuardCode details)
              (with_hadRemoteInteraction (Some false) (this m))))
    /\ world m0 = w2
    /\ startWithCredentials enums handler details m
       = _processStartSessionResponse enums handler m0.
Proof.
  intros Henc Hstart.
  unfold startWithCredentials, on_session, ask, emit. run_monad.
  rewrite Henc. simpl. unfold start_params, _defaultWebsiteId in *. simpl.
  rewrite Hstart. simpl.
  eexists. split; [|split; [|reflexivity]]; reflexivity.
Qed.

(** An error thrown by the loop leaves [_processStartSessionResponse]. *)
Lemma _processStartSessionResponse_throws (m : Machine World)
  (r : StartAuthSessionWithCredentialsResponse) (ex : Error) :
  _startSessionResponse (this m) = Some r ->
  fst (process_confirmations enums handler (allowedConfirmations r) []
         (polling_reopened m)) = Throw ex ->
  fst (_processStartSessionResponse enums handler m) = Throw ex.
Proof.
  intros Hr Hloop.
  unfold _processStartSessionResponse, the_startSessionResponse, on_session.
  run_monad. rewrite Hr. simpl.
  unfold polling_reopened in Hloop.
  destruct (process_confirmations enums handler (allowedConfirmations r) [] _)
    as [[round|e] m']; simpl in Hloop; [discriminate|].
  simpl. injection Hloop as ->. reflexivity.
Qed.

End CodeChallenges.

Section CodeRefusal.
Context {World : Type}.
Variable enums : Enums.
Variable handler : AuthenticationClient World.

(** The round of a code challenge whose supplied code the server refuses
    with the wrong-code result of the challenge, the machine-token check,
    where it applies, not answering [OK]: the challenge joins the
    pending-action list. *)
Lemma round_refused_wrong_code (i : AllowedConfirmation)
  (va : list StartSessionResponseValidAction) (m : Machine World)
  (r : StartAuthSessionWithCredentialsResponse) (c : string) (ex : Error)
  (w : World) :
  is_code_challenge (type i) = true ->
  In i (allowedConfirmations r) ->
  _startSessionResponse (this m) = Some r ->
  _steamGuardCode (this m) = Some c -> c <> "" ->
  h_submitSteamGuardCode handler (submit_params r c) (world m)
  = (Throw ex, w) ->
  eresult ex = Some (wrong_code_for (type i)) ->
  (type i = EAuthSessionGuardType.EmailCode ->
   some_confirmation EAuthSessionGuardType.MachineToken r = true ->
   exists res w',
     h_checkMachineAuthOrSendCodeEmail handler (check_params (this m) r) w
     = (Return res, w')
     /\ result res <> EResult.OK) ->
  fst (process_confirmation enums handler i va m)
  = Return (Next (va ++ [pending_action i])).
Proof.
  intros Hcode Hin Hr Hc Hne Hsub Hex Hcheck.
  assert (Hneeds : some_confirmation EAuthSessionGuardType.EmailCode r
                   || some_confirmation EAuthSessionGuardType.DeviceCode r
                   = true).
  { destruct (type i) eqn:Ht; try discriminate.
    - rewrite (some_confirmation_In r i Hin Ht). reflexivity.
    - rewrite (some_confirmation_In r i Hin Ht). apply orb_true_r. }
  unfold process_confirmation, pending_action.
  destruct (type i) eqn:Ht; try discriminate; simpl in Hex.
  - unfold bind at 1, emit at 1, modify at 1. unfold bind at 1.
    set (m_e := with_emitted (emitted m ++ [Ev_debug "email code required"]) m).
    pose proof (@submit_supplied_code_refused _ handler
                  EResult.InvalidLoginAuthCode m_e r c ex w Hr Hneeds Hc Hne
                  Hsub) as Hrun.
    rewrite (eresult_differs_wrong _ Hex) in Hrun.
    rewrite (@_attemptEmailCodeAuth_after_code _ handler m_e _ r Hrun eq_refl Hr).
    destruct (some_confirmation EAuthSessionGuardType.MachineToken r) eqn:Hmt;
      [|reflexivity].
    destruct (Hcheck eq_refl eq_refl) as (res & w' & Hchk & Hres).
    simpl. change (this m_e) with (this m). rewrite Hchk.
    destruct (EResult.eqb (result res) EResult.OK) eqn:Hok; [|reflexivity].
    apply EResult_eqb_eq in Hok. contradiction.
  - unfold bind at 1, emit at 1, modify at 1. unfold bind at 1.
    unfold _attemptTotpCodeAuth. unfold bind at 1.
    set (m_e := with_emitted (emitted m ++ [Ev_debug "device code required"]) m).
    pose proof (@submit_supplied_code_refused _ handler
                  EResult.TwoFactorCodeMismatch m_e r c ex w Hr Hneeds Hc Hne
                  Hsub) as Hrun.
    rewrite (eresult_differs_wrong _ Hex) in Hrun.
    rewrite Hrun. reflexivity.
Qed.

(** The round of an [EmailCode] challenge whose supplied code the server
    refuses with the wrong-code result, the machine-token check answering
    [OK]: the challenge is resolved. *)
Lemma round_refused_machine_token (i : AllowedConfirmation)
  (va : list StartSessionResponseValidAction) (m : Machine World)
  (r : StartAuthSessionWithCredentialsResponse) (c : string) (ex : Error)
  (w w' : World) (res : CheckMachineAuthResponse) :
  type i = EAuthSessionGuardType.EmailCode ->
  In i (allowedConfirmations r) ->
  _startSessionResponse (this m) = Some r ->
  _steamGuardCode (this m) = Some c -> c <> "" ->
  h_submitSteamGuardCode handler (submit_params r c) (world m)
  = (Throw ex, w) ->
  eresult ex = Some EResult.InvalidLoginAuthCode ->
  some_confirmation EAuthSessionGuardType.MachineToken r = true ->
  h_checkMachineAuthOrSendCodeEmail handler (check_params (this m) r) w
  = (Return res, w') ->
  result res = EResult.OK ->
  fst (process_confirmation enums handler i va m)
  = Return (Returned {| actionRequired := false;
                        validActions := Datatypes.None |}).
Proof.
  intros Ht Hin Hr Hc Hne Hsub Hex Hmt Hchk Hok.
  assert (Hneeds : some_confirmation EAuthSessionGuardType.EmailCode r
                   || some_confirmation EAuthSessionGuardType.DeviceCode r
                   = true)
    by (rewrite (some_confirmation_In r i Hin Ht); reflexivity).
  unfold process_confirmation. rewrite Ht.
  unfold bind at 1, emit at 1, modify at 1. unfold bind at 1.
  set (m_e := with_emitted (emitted m ++ [Ev_debug "email code required"]) m).
  pose proof (@submit_supplied_code_refused _ handler
                EResult.InvalidLoginAuthCode m_e r c ex w Hr Hneeds Hc Hne
                Hsub) as Hrun.
  rewrite (eresult_differs_wrong _ Hex) in Hrun.
  rewrite (@_attemptEmailCodeAuth_after_code _ handler m_e _ r Hrun eq_refl Hr).
  rewrite Hmt. simpl. change (this m_e) with (this m). rewrite Hchk, Hok.
  reflexivity.
Qed.

End CodeRefusal.

(** C6 (as stated) fails: the allowed confirmations are [EmailCode] and
    [MachineToken], the supplied code is refused with
    [InvalidLoginAuthCode], the machine-token check answers [OK];
    [startWithCredentials] reports that no action is required, and the
    [EmailCode] challenge is in no pending-action list. *)
Lemma guard_code_refusal_counterexample :
  h_submitSteamGuardCode Doubles.refusing_then_trusting
    (submit_params Doubles.email_and_machine "12345") tt
  = (Throw (Doubles.rejection EResult.InvalidLoginAuthCode), tt)
  /\ fst (startWithCredentials Doubles.enums Doubles.refusing_then_trusting
            (Doubles.login (Some "12345")) Doubles.fresh)
     = Return {| actionRequired := false; validActions := Datatypes.None |}.
Proof. split; reflexivity. Qed.

Section AmbiguousChallenge.
Context {World : Type}.
Variable enums : Enums.
Variable handler : AuthenticationClient World.

(** A round that returns from the method reports that no action is
    required. *)
Lemma process_confirmation_returned (i : AllowedConfirmation)
  (va : list StartSessionResponseValidAction) (m m' : Machine World)
  (response : StartSessionResponse) :
  process_confirmation enums handler i va m = (Return (Returned response), m') ->
  actionRequired response = false.
Proof.
  unfold process_confirmation.
  destruct (type i); unfold emit, setImmediate_doPoll; run_monad.
  - intros [= <- _]. reflexivity.
  - destruct (_attemptEmailCodeAuth handler _) as [[[|]|e] m1]; simpl;
      try discriminate.
    intros [= <- _]. reflexivity.
  - destruct (_attemptTotpCodeAuth handler _) as [[[|]|e] m1]; simpl;
      try discriminate.
    intros [= <- _]. reflexivity.
  - discriminate.
  - discriminate.
  - discriminate.
  - discriminate.
Qed.

Lemma process_confirmations_returned (l : list AllowedConfirmation) :
  forall (va : list StartSessionResponseValidAction) (m m' : Machine World)
         (response : StartSessionResponse),
    process_confirmations enums handler l va m
    = (Return (Returned response), m') ->
    actionRequired response = false.
Proof.
  induction l as [|i l IH]; intros va m m' response; simpl.
  - discriminate.
  - unfold bind at 1.
    destruct (process_confirmation enums handler i va m)
      as [[[resp|va1]|e] m1] eqn:E.
    + intros [= <- _]. eapply process_confirmation_returned; eassumption.
    + apply IH.
    + discriminate.
Qed.

(** A list of [MachineToken] challenges leaves the pending-action list as
    it was, and the machine too. *)
Lemma process_confirmations_machine_tokens (l : list AllowedConfirmation) :
  forallb (fun c => EAuthSessionGuardType.eqb (type c)
                      EAuthSessionGuardType.MachineToken) l = true ->
  forall (va : list StartSessionResponseValidAction) (m : Machine World),
    process_confirmations enums handler l va m = (Return (Next va), m).
Proof.
  induction l as [|i l IH]; intros Hall va m; simpl.
  - reflexivity.
  - simpl in Hall. apply andb_prop in Hall as [Hi Hl].
    apply EAuthSessionGuardType_eqb_eq in Hi.
    unfold bind at 1, process_confirmation. rewrite Hi. run_monad.
    apply IH. assumption.
Qed.

(** C5.  Whenever the loop over the allowed confirmations runs to its end
    (no [None] challenge resolved the login, no code or machine token was
    accepted, nothing was thrown) with an empty pending-action list,
    [_processStartSessionResponse] throws the error for an ambiguous
    challenge; so it does for an empty list of confirmations and for a list
    of [MachineToken] only; and a response that requires action always
    names at least one action. *)
Theorem no_action_is_ambiguous (m : Machine World)
  (r : StartAuthSessionWithCredentialsResponse) :
  _startSessionResponse (this m) = Some r ->
  (forall m',
      process_confirmations enums handler (allowedConfirmations r) []
        (polling_reopened m) = (Return (Next []), m') ->
      _processStartSessionResponse enums handler m
      = (Throw (new_Error msg_ambiguous), m'))
  /\ (forallb (fun c => EAuthSessionGuardType.eqb (type c)
                          EAuthSessionGuardType.MachineToken)
        (allowedConfirmations r) = true ->
      fst (_processStartSessionResponse enums handler m)
      = Throw (new_Error msg_ambiguous))
  /\ (forall response,
         fst (_processStartSessionResponse enums handler m) = Return response ->
         actionRequired response = true ->
         exists a l, validActions response = Some (a :: l)).
Proof.
  intros Hr.
  assert (Hrun : _processStartSessionResponse enums handler m
                 = match process_confirmations enums handler
                           (allowedConfirmations r) [] (polling_reopened m)
                   with
                   | (Return (Returned response), m') => (Return response, m')
                   | (Return (Next va), m') =>
                       if Nat.eqb (length va) 0
                       then (Throw (new_Error msg_ambiguous), m')
                       else (Return {| actionRequired := true;
                                       validActions := Some va |}, m')
                   | (Throw e, m') => (Throw e, m')
                   end).
  { unfold _processStartSessionResponse, the_startSessionResponse, on_session,
      polling_reopened.
    run_monad. rewrite Hr. simpl.
    destruct (process_confirmations enums handler (allowedConfirmations r) [] _)
      as [[[resp|va]|e] m']; try reflexivity.
    destruct (Nat.eqb (length va) 0); reflexivity. }
  split; [|split].
  - intros m' Hloop. rewrite Hrun, Hloop. reflexivity.
  - intros Hall. rewrite Hrun.
    rewrite (process_confirmations_machine_tokens _ Hall). reflexivity.
  - intros response Hret Hrequired. rewrite Hrun in Hret.
    destruct (process_confirmations enums handler (allowedConfirmations r) [] _)
      as [[[resp|va]|e] m'] eqn:E; simpl in Hret.
    + injection Hret as <-.
      rewrite (process_confirmations_returned _ _ _ E) in Hrequired.
      discriminate.
    + destruct va as [|a l]; simpl in Hret; [discriminate|].
      injection Hret as <-. exists a, l. reflexivity.
    + discriminate.
Qed.

End AmbiguousChallenge.

(** A started session whose only allowed confirmation is [MachineToken]. *)
Lemma no_action_is_ambiguous_witness :
  fst (_processStartSessionResponse Doubles.enums
         (Doubles.handler Doubles.machine_token_only (Return tt)
            Doubles.accepted)
         (Doubles.started_with Doubles.machine_token_only))
  = Throw (new_Error msg_ambiguous).
Proof.
  apply (@no_action_is_ambiguous unit Doubles.enums
           (Doubles.handler Doubles.machine_token_only (Return tt)
              Doubles.accepted)
           (Doubles.started_with Doubles.machine_token_only)
           Doubles.machine_token_only eq_refl).
  reflexivity.
Defined.

(** The machine-token check is requested without a guard code and without a
    stored machine-auth token. *)
Lemma machine_token_shortcut_attempted_witness :
  calls (snd (_attemptEmailCodeAuth
                (Doubles.handler Doubles.email_and_machine (Return tt)
                   Doubles.accepted)
                (Doubles.started_with Doubles.email_and_machine)))
  = [Call_checkMachineAuthOrSendCodeEmail
       {| machineAuthToken := Datatypes.None;
          check_session := Doubles.email_and_machine |}].
Proof.
  apply (@machine_token_shortcut_attempted unit
           (Doubles.handler Doubles.email_and_machine (Return tt)
              Doubles.accepted)
           (Doubles.started_with Doubles.email_and_machine)
           Doubles.email_and_machine eq_refl eq_refl eq_refl).
  left. reflexivity.
Defined.

(** *** The polling loop *)

Section PollingProperties.
Context {World : Type}.
Variable helpers : Helpers.

Lemma set_accessToken_cases (token : option string) (this : Session) :
  (exists e, set_accessToken helpers token this = (Throw e, this))
  \/ set_accessToken helpers token this
     = (Return tt, with_accessToken token this).
Proof.
  destruct (set_accessToken helpers token this) as [[[]|e] s] eqn:E.
  - right. apply (assign_return_stored helpers AccessToken) in E. now subst.
  - left. apply (assign_throw_unchanged helpers AccessToken) in E.
    subst. now exists e.
Qed.

Lemma set_refreshToken_cases (token : option string) (this : Session) :
  (exists e, set_refreshToken helpers token this = (Throw e, this))
  \/ set_refreshToken helpers token this
     = (Return tt, with_refreshToken token this).
Proof.
  destruct (set_refreshToken helpers token this) as [[[]|e] s] eqn:E.
  - right. apply (assign_return_stored helpers RefreshToken) in E. now subst.
  - left. apply (assign_throw_unchanged helpers RefreshToken) in E.
    subst. now exists e.
Qed.

(** What the second half of a tick leaves alone; with the cancellation flag
    set, that includes the timers. *)
Lemma _doPoll_resume_frame (answer : Result PollResponse) (m : Machine World) :
  let m' := snd (_doPoll_resume helpers answer m) in
  immediates m' = immediates m
  /\ calls m' = calls m
  /\ inflight m' = inflight m
  /\ world m' = world m
  /\ loginTimeout (this m') = loginTimeout (this m)
  /\ _pollingCanceled (this m') = _pollingCanceled (this m)
  /\ _pollingStartedTime (this m') = _pollingStartedTime (this m)
  /\ (truthy_bool (_pollingCanceled (this m)) = true ->
      timers m' = timers m /\ _pollTimer (this m') = _pollTimer (this m)).
Proof.
  destruct answer as [p|ex]; simpl.
  2:{ unfold emit. run_monad. repeat split; reflexivity. }
  unfold _doPoll_resume, the_startSessionResponse, emit, on_session,
    setTimeout_doPoll.
  run_monad.
  destruct (_startSessionResponse (this m)) as [r|]; simpl;
    [|repeat split; reflexivity].
  destruct (truthy_bool (hadRemoteInteraction p)
            && negb (truthy_bool (_hadRemoteInteraction (this m)))); simpl.
  - destruct (truthy_string (poll_accessToken p)); simpl.
    + match goal with
      | |- context [set_accessToken helpers ?t ?s] =>
          destruct (set_accessToken_cases t s) as [[e ->] | ->]; simpl
      end; [repeat split; reflexivity|].
      match goal with
      | |- context [set_refreshToken helpers ?t ?s] =>
          destruct (set_refreshToken_cases t s) as [[e ->] | ->]; simpl
      end; repeat split; reflexivity.
    + destruct (truthy_bool (_pollingCanceled (this m))) eqn:Hc; simpl;
        repeat split; try reflexivity; discriminate.
  - destruct (truthy_string (poll_accessToken p)); simpl.
    + match goal with
      | |- context [set_accessToken helpers ?t ?s] =>
          destruct (set_accessToken_cases t s) as [[e ->] | ->]; simpl
      end; [repeat split; reflexivity|].
      match goal with
      | |- context [set_refreshToken helpers ?t ?s] =>
          destruct (set_refreshToken_cases t s) as [[e ->] | ->]; simpl
      end; repeat split; reflexivity.
    + destruct (truthy_bool (_pollingCanceled (this m))) eqn:Hc; simpl;
        repeat split; try reflexivity; discriminate.
Qed.

End PollingProperties.

Section Timeout.
Context {World : Type}.
Variable helpers : Helpers.

Lemma clear_timer_length (h : nat) (ts : list (Z * TimerStatus)) :
  length (clear_timer h ts) = length ts.
Proof.
  revert h. induction ts as [|[d s] ts IH]; intros h; simpl.
  - destruct h; reflexivity.
  - destruct h; simpl.
    + destruct s; reflexivity.
    + destruct s; simpl; rewrite IH; reflexivity.
Qed.

Lemma clear_timer_not_pending (h : nat) (ts : list (Z * TimerStatus)) :
  forall d, nth_error (clear_timer h ts) h <> Some (d, Pending).
Proof.
  revert h. induction ts as [|[d s] ts IH]; intros h d'; simpl.
  - destruct h; discriminate.
  - destruct h; simpl.
    + destruct s; simpl; congruence.
    + destruct s; simpl; apply IH.
Qed.

Lemma clear_timer_clears (h : nat) (m0 : Machine World)
  (ts : list (Z * TimerStatus)) :
  timer_pending h (with_timers (clear_timer h ts) m0) = false.
Proof.
  unfold timer_pending. simpl.
  destruct (nth_error (clear_timer h ts) h) as [[d []]|] eqn:E;
    try reflexivity.
  exfalso. exact (clear_timer_not_pending _ _ E).
Qed.

Lemma polling_start_recorded (clock_start : Z) (this : Session) :
  polling_start clock_start
    (with_pollingStartedTime (Some clock_start) this) = clock_start.
Proof.
  unfold polling_start. simpl. destruct clock_start; reflexivity.
Qed.

Lemma polling_start_fresh (clock_start : Z) (this : Session) :
  truthy_number (_pollingStartedTime this) = false ->
  polling_start clock_start this = clock_start.
Proof.
  unfold polling_start. destruct (_pollingStartedTime this) as [t|];
    [|reflexivity].
  intros ->. reflexivity.
Qed.

Lemma polling_start_kept (clock_start : Z) (this : Session) :
  truthy_number (_pollingStartedTime this) = true ->
  _pollingStartedTime this = Some (polling_start clock_start this).
Proof.
  unfold polling_start. destruct (_pollingStartedTime this) as [t|];
    [|discriminate].
  intros ->. reflexivity.
Qed.

(** C8.  A tick that is not canceled measures the elapsed time from the
    timestamp recorded by the first tick: it records its own first reading
    of the clock only when none is recorded, and neither a tick nor the
    answer of a poll request changes a recorded timestamp.  When the
    elapsed time is at least [loginTimeout], the tick emits [timeout], sets
    the cancellation flag, sends no poll request and schedules nothing, the
    timer of the session is not pending afterwards, and every later tick
    returns at its entry. *)
Theorem poll_timeout (m : Machine World) (clock_start clock_now : Z) :
  truthy_bool (_pollingCanceled (this m)) = false ->
  let m' := snd (_doPoll_begin clock_start clock_now m) in
  _pollingStartedTime (this m')
  = Some (polling_start clock_start (this m))
  /\ (forall t0, _pollingStartedTime (this m) = Some t0 -> t0 <> 0%Z ->
                 polling_start clock_start (this m) = t0)
  /\ (forall answer,
         _pollingStartedTime (this (snd (_doPoll_resume helpers answer m)))
         = _pollingStartedTime (this m))
  /\ ((clock_now - polling_start clock_start (this m)
       >= loginTimeout (this m))%Z ->
      fst (_doPoll_begin clock_start clock_now m) = Return tt
      /\ emitted m'
         = emitted m
           ++ (if truthy_number (_pollingStartedTime (this m)) then []
               else [Ev_polling])
           ++ [Ev_timeout]
      /\ _pollingCanceled (this m') = Some true
      /\ calls m' = calls m
      /\ inflight m' = inflight m
      /\ immediates m' = immediates m
      /\ length (timers m') = length (timers m)
      /\ (forall h, _pollTimer (this m') = Some h ->
                    timer_pending h m' = false)
      /\ (forall c3 c4, _doPoll_begin c3 c4 m' = (Return tt, m'))).
Proof.
  intros Hc m'. subst m'.
  split; [|split; [|split]].
  - unfold _doPoll_begin, cancelLoginAttempt, clearTimeout, emit, on_session.
    run_monad. rewrite Hc.
    destruct (truthy_number (_pollingStartedTime (this m))) eqn:Hs;
      destruct (_pollTimer (this m)) as [h|] eqn:Hh; simpl; rewrite Hs; simpl;
      try rewrite polling_start_recorded;
      match goal with
      | |- context [(?a >=? ?b)%Z] => destruct (a >=? b)%Z
      end; simpl; rewrite ?Hh; simpl;
      solve [ apply polling_start_kept; assumption
            | rewrite (polling_start_fresh _ _ Hs); reflexivity ].
  - intros t0 Ht0 Hnz. unfold polling_start. rewrite Ht0.
    destruct t0; [congruence| |]; reflexivity.
  - intros answer.
    destruct (_doPoll_resume_frame helpers answer m)
      as (_ & _ & _ & _ & _ & _ & Hst & _).
    exact Hst.
  - intros Hge.
    assert (Hgeb : (clock_now - polling_start clock_start (this m)
                    >=? loginTimeout (this m))%Z = true)
      by (apply Z.geb_le; lia).
    unfold _doPoll_begin, cancelLoginAttempt, clearTimeout, emit, on_session.
    run_monad. rewrite Hc.
    destruct (truthy_number (_pollingStartedTime (this m))) eqn:Hs.
    + destruct (_pollTimer (this m)) as [h|] eqn:Hh; simpl;
        rewrite Hs; simpl; rewrite Hgeb; simpl; rewrite ?Hh; simpl;
        repeat split; try reflexivity;
        try (rewrite !clear_timer_length; reflexivity);
        try (intros h' Hh'; rewrite Hh in Hh'; try discriminate;
             injection Hh' as <-; apply clear_timer_clears).
    + rewrite (polling_start_fresh _ _ Hs) in Hgeb.
      destruct (_pollTimer (this m)) as [h|] eqn:Hh; simpl;
        rewrite Hs; simpl; rewrite polling_start_recorded; simpl;
        rewrite Hgeb; simpl; rewrite ?Hh; simpl;
        repeat split; try reflexivity;
        try (rewrite <- app_assoc; reflexivity);
        try (rewrite !clear_timer_length; reflexivity);
        try (intros h' Hh'; rewrite Hh in Hh'; try discriminate;
             injection Hh' as <-; apply clear_timer_clears).
Qed.

End Timeout.

(** *** Runs *)

Lemma cancelLoginAttempt_result {World : Type} (m : Machine World) :
  fst (cancelLoginAttempt m)
  = Return (match _pollTimer (this m) with
            | Some _ => true
            | Datatypes.None => false
            end).
Proof.
  unfold cancelLoginAttempt, clearTimeout, on_session. run_monad.
  destruct (_pollTimer (this m)); reflexivity.
Qed.

(** The part of C4 that the code meets: the call returns [false] when no
    timer was ever scheduled, and [true], clearing the timer, when the timer
    of the session is pending. *)
Lemma cancelLoginAttempt_pending {World : Type} (m : Machine World) :
  (_pollTimer (this m) = Datatypes.None ->
   fst (cancelLoginAttempt m) = Return false)
  /\ (forall h, _pollTimer (this m) = Some h ->
                timer_pending h m = true ->
                fst (cancelLoginAttempt m) = Return true
                /\ timer_pending h (snd (cancelLoginAttempt m)) = false).
Proof.
  split.
  - intros H. rewrite cancelLoginAttempt_result, H. reflexivity.
  - intros h H _. split.
    + rewrite cancelLoginAttempt_result, H. reflexivity.
    + unfold cancelLoginAttempt, clearTimeout, on_session. run_monad.
      rewrite H. simpl. apply clear_timer_clears.
Qed.

Lemma after_reachable (server : AuthenticationClient unit) (ts : list Task)
  (m : Machine unit) :
  run Doubles.helpers Doubles.enums server ts Doubles.fresh = Some m ->
  reachable Doubles.helpers Doubles.enums server m.
Proof.
  intros H. exists Datatypes.None, tt, ts. exact H.
Qed.

(** C4, at the failing inputs.  After the scheduled tick has fired and the
    login has gone through, no timer is pending, and [cancelLoginAttempt]
    returns [true]; after a first [cancelLoginAttempt] has cleared the
    pending timer, no timer is pending, and a second call returns [true]
    again. *)
Theorem cancelLoginAttempt_stale_timer :
  reachable Doubles.helpers Doubles.enums (Doubles.confirming Doubles.alice)
    (Doubles.after (Doubles.confirming Doubles.alice) Doubles.logged_in)
  /\ no_timer_pending
       (Doubles.after (Doubles.confirming Doubles.alice) Doubles.logged_in)
     = true
  /\ fst (cancelLoginAttempt
            (Doubles.after (Doubles.confirming Doubles.alice)
               Doubles.logged_in))
     = Return true
  /\ reachable Doubles.helpers Doubles.enums
       (Doubles.confirming Doubles.alice)
       (Doubles.after (Doubles.confirming Doubles.alice)
          Doubles.canceled_waiting)
  /\ no_timer_pending
       (Doubles.after (Doubles.confirming Doubles.alice)
          Doubles.canceled_waiting)
     = true
  /\ fst (cancelLoginAttempt
            (Doubles.after (Doubles.confirming Doubles.alice)
               Doubles.canceled_waiting))
     = Return true.
Proof.
  apply conj;
    [apply (@after_reachable _ Doubles.logged_in); vm_compute; reflexivity|].
  apply conj; [vm_compute; reflexivity|].
  apply conj; [vm_compute; reflexivity|].
  apply conj;
    [apply (@after_reachable _ Doubles.canceled_waiting);
     vm_compute; reflexivity|].
  apply conj; vm_compute; reflexivity.
Qed.

(** The session of [Doubles.holding_token] satisfies the invariant. *)
Lemma holding_token_invariant :
  token_invariant Doubles.helpers
    (this (Doubles.after (Doubles.confirming Doubles.bob)
             Doubles.holding_token)).
Proof.
  split.
  - intros a r _ Hr. vm_compute in Hr. discriminate Hr.
  - intros resp slot x Hresp. vm_compute in Hresp. discriminate Hresp.
Qed.

(** C3, at the failing input.  A session holds an access token of one
    account and satisfies the invariant; [startWithCredentials] then stores
    a session-start response for another account next to that token, and
    the invariant no longer holds in the state reached. *)
Theorem startWithCredentials_breaks_token_invariant :
  reachable Doubles.helpers Doubles.enums (Doubles.confirming Doubles.bob)
    (Doubles.after (Doubles.confirming Doubles.bob) Doubles.holding_token)
  /\ token_invariant Doubles.helpers
       (this (Doubles.after (Doubles.confirming Doubles.bob)
                Doubles.holding_token))
  /\ perform Doubles.helpers Doubles.enums (Doubles.confirming Doubles.bob)
       (T_startWithCredentials (Doubles.login Datatypes.None))
       (Doubles.after (Doubles.confirming Doubles.bob) Doubles.holding_token)
     = Some (Doubles.after (Doubles.confirming Doubles.bob) Doubles.relogin)
  /\ reachable Doubles.helpers Doubles.enums (Doubles.confirming Doubles.bob)
       (Doubles.after (Doubles.confirming Doubles.bob) Doubles.relogin)
  /\ subject Doubles.helpers
       (_accessToken
          (this (Doubles.after (Doubles.confirming Doubles.bob)
                   Doubles.relogin)))
     = Some Doubles.alice
  /\ option_map steamId
       (_startSessionResponse
          (this (Doubles.after (Doubles.confirming Doubles.bob)
                   Doubles.relogin)))
     = Some Doubles.bob
  /\ ~ token_invariant Doubles.helpers
         (this (Doubles.after (Doubles.confirming Doubles.bob)
                  Doubles.relogin)).
Proof.
  apply conj;
    [apply (@after_reachable _ Doubles.holding_token); vm_compute; reflexivity|].
  apply conj; [exact holding_token_invariant|].
  apply conj; [vm_compute; reflexivity|].
  apply conj;
    [apply (@after_reachable _ Doubles.relogin); vm_compute; reflexivity|].
  apply conj; [vm_compute; reflexivity|].
  apply conj; [vm_compute; reflexivity|].
  intros [_ H].
  assert (Habsurd : Doubles.alice = Doubles.bob).
  { apply (H (Doubles.started_for Doubles.bob
                [EAuthSessionGuardType.DeviceConfirmation])
             AccessToken Doubles.alice);
      vm_compute; reflexivity. }
  discriminate Habsurd.
Qed.


(** The first tick was at 1000; the tick at 31000 meets the timeout of
    30000. *)
Lemma poll_timeout_witness :
  _pollingCanceled
    (this (snd (_doPoll_begin 31000 31000
                  (Doubles.after (Doubles.confirming Doubles.alice)
                     Doubles.waiting))))
  = Some true.
Proof.
  apply (@poll_timeout unit Doubles.helpers
           (Doubles.after (Doubles.confirming Doubles.alice) Doubles.waiting)
           31000%Z 31000%Z).
  - vm_compute. reflexivity.
  - vm_compute. discriminate.
Defined.

(** *** Web cookies *)

Section FirstSuccess.
Context {A : Type}.
Variable promises : list (option (Result A)).

Lemma settled_stays (order : list nat) :
  forall (p : PromiseAny A) (o : Settled A),
    outcome p = Some o ->
    outcome (fold_left (settle_next promises) order p) = Some o.
Proof.
  induction order as [|i order IH]; intros p o Ho; simpl; [assumption|].
  apply IH. unfold settle_next.
  destruct (nth_error promises i) as [[[v|e]|]|]; simpl;
    try assumption.
  - unfold on_fulfilled, settle. simpl. rewrite Ho. reflexivity.
  - unfold on_rejected, settle. simpl.
    destruct (pendingPromises p - 1 =? 0)%Z; simpl;
      rewrite ?Ho; try reflexivity; assumption.
Qed.

(** The run of [promiseAny] from any state in which the promise is still
    pending and at least as many promises are awaited as will settle. *)
Lemma promiseAny_run (order : list nat) :
  forall p : PromiseAny A,
    (forall i, In i order -> exists s, nth_error promises i = Some (Some s)) ->
    outcome p = Datatypes.None ->
    (Z.of_nat (length order) <= pendingPromises p)%Z ->
    outcome (fold_left (settle_next promises) order p)
    = match first_fulfilled promises order with
      | Some v => Some (Resolved v)
      | Datatypes.None =>
          if (pendingPromises p =? Z.of_nat (length order))%Z
             && negb (Nat.eqb (length order) 0)
          then Some (Rejected
                       (match rejections p with
                        | e0 :: _ => Some e0
                        | [] => match order with
                                | i :: _ => failure_of promises i
                                | [] => Datatypes.None
                                end
                        end))
          else Datatypes.None
      end.
Proof.
  induction order as [|i order IH]; intros p Hvalid Hpending Hcount.
  - simpl. rewrite andb_false_r. assumption.
  - destruct (Hvalid i) as (s & Hs); [left; reflexivity|].
    cbn [fold_left first_fulfilled]. unfold settle_next at 2. rewrite Hs.
    cbn [length] in *. rewrite Nat2Z.inj_succ in *.
    destruct s as [v|e]; cbn [deliver].
    + apply settled_stays. unfold on_fulfilled, settle. simpl.
      rewrite Hpending. reflexivity.
    + unfold on_rejected. cbn [pendingPromises rejections outcome].
      destruct (Z.eqb_spec (pendingPromises p - 1) 0) as [Hz|Hnz].
      * assert (Hnil : order = []).
        { destruct order; [reflexivity|]. cbn [length] in Hcount.
          rewrite Nat2Z.inj_succ in Hcount. lia. }
        subst order. simpl. unfold settle. simpl. rewrite Hpending.
        replace (pendingPromises p =? 1)%Z with true
          by (symmetry; apply Z.eqb_eq; lia).
        simpl. unfold failure_of. rewrite Hs.
        destruct (rejections p); reflexivity.
      * rewrite IH; cbn [pendingPromises rejections outcome];
          [ | intros j Hj; apply Hvalid; right; assumption
            | assumption | lia ].
        destruct (first_fulfilled promises order); [reflexivity|].
        destruct (Z.eqb_spec (pendingPromises p - 1) (Z.of_nat (length order)))
          as [Heq|Hneq].
        -- replace (pendingPromises p =? Z.succ (Z.of_nat (length order)))%Z
             with true by (symmetry; apply Z.eqb_eq; lia).
           assert (Hlen : Nat.eqb (length order) 0 = false)
             by (apply Nat.eqb_neq; lia).
           rewrite Hlen. simpl. unfold failure_of at 2. rewrite Hs.
           destruct (rejections p); reflexivity.
        -- replace (pendingPromises p =? Z.succ (Z.of_nat (length order)))%Z
             with false by (symmetry; apply Z.eqb_neq; lia).
           reflexivity.
Qed.

Lemma settling_order_length (order : list nat) :
  settling_order promises order -> length order <= length promises.
Proof.
  intros [Hnodup Hsettle].
  rewrite <- (length_seq (length promises) 0).
  apply NoDup_incl_length; [assumption|].
  intros i Hi. apply in_seq. destruct (Hsettle i Hi) as (s & Hs).
  assert (Hsome : nth_error promises i <> Datatypes.None) by congruence.
  apply nth_error_Some in Hsome. lia.
Qed.

(** [promiseAny] by the order of settling. *)
Lemma promiseAny_by_order (order : list nat) :
  settling_order promises order ->
  promiseAny promises order
  = first_success_else_first_failure promises order.
Proof.
  intros Horder.
  pose proof (settling_order_length Horder) as Hlen.
  destruct Horder as [Hnodup Hsettle].
  unfold promiseAny, first_success_else_first_failure.
  rewrite promiseAny_run; cbn [pendingPromises rejections outcome];
    [ | assumption | reflexivity | lia ].
  destruct (first_fulfilled promises order); [reflexivity|].
  destruct order as [|i order];
    [cbn [length Nat.eqb negb]; rewrite andb_false_r; reflexivity|].
  replace (negb (Nat.eqb (length (i :: order)) 0)) with true by reflexivity.
  rewrite andb_true_r.
  destruct (Nat.eqb_spec (length (i :: order)) (length promises))
    as [Heq|Hneq].
  - rewrite <- Heq, Z.eqb_refl. reflexivity.
  - replace (Z.of_nat (length promises) =? Z.of_nat (length (i :: order)))%Z
      with false; [reflexivity|].
    symmetry. apply Z.eqb_neq. lia.
Qed.

End FirstSuccess.

(** C2 (as amended).  For the transfers that [getWebCookies] launches and
    any order in which they settle: if at least one transfer succeeds, the
    call resolves with the cookies of the transfer that succeeds first; if
    every transfer fails, the call rejects with the failure that was
    recorded first, that of the transfer that failed first in the order of
    settling, and not with an aggregate. *)
Theorem getWebCookies_first_success (eresultError : Z -> Error)
  (this : Session) (d : FinalizeData) (infos : list TransferInfo)
  (answers : list (Result HttpResponse)) (order : list nat) :
  truthy_string (_refreshToken this) = true ->
  truthy_number (error d) = false ->
  transfer_info d = Some infos ->
  settling_order (launch infos answers) order ->
  getWebCookies eresultError (Return {| data := Some d |}) answers order this
  = first_success_else_first_failure (launch infos answers) order
  /\ (forall cookies,
         first_fulfilled (launch infos answers) order = Some cookies ->
         getWebCookies eresultError (Return {| data := Some d |}) answers
           order this
         = Some (Resolved cookies))
  /\ (first_fulfilled (launch infos answers) order = Datatypes.None ->
      length order = length infos ->
      forall i rest, order = i :: rest ->
        exists e,
          nth_error (launch infos answers) i = Some (Some (Throw e))
          /\ getWebCookies eresultError (Return {| data := Some d |}) answers
               order this
             = Some (Rejected (Some e))).
Proof.
  intros Hrefresh Herror Hinfos Horder.
  assert (Hrun : getWebCookies eresultError (Return {| data := Some d |})
                   answers order this
                 = first_success_else_first_failure (launch infos answers)
                     order).
  { unfold getWebCookies. rewrite Hrefresh. cbn [negb data].
    rewrite Herror, Hinfos. apply promiseAny_by_order. assumption. }
  split; [exact Hrun|]. split.
  - intros cookies Hfirst. rewrite Hrun.
    unfold first_success_else_first_failure. rewrite Hfirst. reflexivity.
  - intros Hnone Hall i rest Heq. rewrite Hrun.
    unfold first_success_else_first_failure. rewrite Hnone, Hall.
    assert (Hlaunched : length (launch infos answers) = length infos)
      by (unfold launch; rewrite length_map; apply length_seq).
    rewrite Hlaunched, Nat.eqb_refl.
    subst order. destruct Horder as [_ Hsettle].
    destruct (Hsettle i) as ([cookies|e] & Hi); [left; reflexivity| |].
    + cbn [first_fulfilled] in Hnone. rewrite Hi in Hnone. discriminate.
    + exists e. split; [exact Hi|].
      unfold failure_of. rewrite Hi. reflexivity.
Qed.

(** Three transfers of which the second succeeds: the call resolves with
    the cookies of the second. *)
Lemma getWebCookies_first_success_witness :
  getWebCookies Doubles.eresultError
    (Return {| data := Some Doubles.three_transfers |})
    Doubles.second_succeeds [2; 0; 1] Doubles.holding_refresh_token
  = Some (Resolved ["steamLoginSecure=abc"; "sessionid=123"]).
Proof.
  apply (@getWebCookies_first_success Doubles.eresultError
           Doubles.holding_refresh_token Doubles.three_transfers
           Doubles.three_endpoints Doubles.second_succeeds [2; 0; 1]);
    try reflexivity.
  split.
  - repeat constructor; simpl; intuition discriminate.
  - intros i [<-|[<-|[<-|[]]]]; eexists; reflexivity.
Defined.

(** C2 (as stated) fails: three transfers fail, the second one first; the
    call rejects with the failure of the second endpoint, which is not the
    failure of the first endpoint. *)
Lemma getWebCookies_first_failure_counterexample :
  launch Doubles.three_endpoints Doubles.all_fail
  = [ Some (Throw (new_Error msg_no_set_cookie));
      Some (Throw (new_Error msg_no_steamLoginSecure));
      Some (Throw (new_Error msg_no_set_cookie)) ]
  /\ getWebCookies Doubles.eresultError
       (Return {| data := Some Doubles.three_transfers |})
       Doubles.all_fail [1; 0; 2] Doubles.holding_refresh_token
     = Some (Rejected (Some (new_Error msg_no_steamLoginSecure)))
  /\ new_Error msg_no_steamLoginSecure <> new_Error msg_no_set_cookie.
Proof.
  split; [reflexivity|]. split; [reflexivity|]. discriminate.
Qed.

(** *** The token setters keep the invariant *)

(** What a setter has checked when it stores a token. *)
Lemma assign_return_checked (helpers : Helpers) (slot : Slot) (tok : string)
  (this this' : Session) :
  tok <> "" ->
  assign helpers slot (Some tok) this = (Return tt, this') ->
  exists decoded,
    decodeJwt helpers tok = Return decoded
    /\ differs_from_start decoded this = false
    /\ (forall s', subject helpers (stored (other_slot slot) this) = Some s' ->
                   s' = sub decoded).
Proof.
  intros Hne. destruct tok as [|c t]; [congruence|].
  destruct slot; simpl; unfold set_accessToken, set_refreshToken; run_monad;
    destruct (decodeJwt helpers (String c t)) as [d|e1]; simpl;
    try discriminate;
    destruct (SteamID_valid helpers (sub d)); simpl; try discriminate;
    destruct (differs_from_start d this) eqn:Hstart; simpl; try discriminate.
  - intros Hrun. exists d. split; [reflexivity|]. split; [exact Hstart|].
    intros s' Hs'. unfold subject in Hs'.
    destruct (_refreshToken this) as [[|c' t']|]; try discriminate.
    destruct (decodeJwt helpers (String c' t')) as [d'|e2]; simpl in *;
      try discriminate.
    injection Hs' as <-.
    destruct (String.eqb (sub d') (sub d)) eqn:E; simpl in Hrun;
      [apply String.eqb_eq; assumption | discriminate].
  - intros Hrun. exists d. split; [reflexivity|]. split; [exact Hstart|].
    intros s' Hs'. unfold subject in Hs'.
    destruct (_accessToken this) as [[|c' t']|]; try discriminate.
    destruct (decodeJwt helpers (String c' t')) as [d'|e2]; simpl in *;
      try discriminate.
    injection Hs' as <-.
    destruct (String.eqb (sub d') (sub d)) eqn:E; simpl in Hrun;
      [apply String.eqb_eq; assumption | discriminate].
Qed.

(** Both setters keep the invariant of a session whose session-start
    response, if there is one, names an account: the path that
    [startWithCredentials] lacks. *)
Lemma assign_keeps_token_invariant (helpers : Helpers) (slot : Slot)
  (token : option string) (this : Session) :
  (forall r, _startSessionResponse this = Some r -> steamId r <> "") ->
  token_invariant helpers this ->
  token_invariant helpers (snd (assign helpers slot token this)).
Proof.
  intros Hnamed [Hpair Hstart].
  destruct (assign helpers slot token this) as [[[]|e] this'] eqn:E; simpl.
  2:{ apply assign_throw_unchanged in E. subst. split; assumption. }
  pose proof (assign_return_stored _ _ _ _ E) as Hstored.
  destruct token as [[|c t]|].
  - subst this'. destruct slot; split; simpl.
    + intros a r Ha. discriminate.
    + intros resp [] x Hr Hx; simpl in *; [discriminate|].
      apply (Hstart resp RefreshToken x Hr Hx).
    + intros a r _ Hr. discriminate.
    + intros resp [] x Hr Hx; simpl in *; [|discriminate].
      apply (Hstart resp AccessToken x Hr Hx).
  - assert (Hne : String c t <> "") by discriminate.
    destruct (@assign_return_checked helpers slot _ _ _ Hne E)
      as (d & Hd & Hdiff & Hother).
    assert (Hsubj : subject helpers (Some (String c t)) = Some (sub d))
      by (unfold subject; rewrite Hd; reflexivity).
    assert (Hid : forall resp, _startSessionResponse this = Some resp ->
                               sub d = steamId resp).
    { intros resp Hr. unfold differs_from_start in Hdiff. rewrite Hr in Hdiff.
      rewrite (truthy_string_nonempty (Hnamed resp Hr)) in Hdiff.
      simpl in Hdiff. apply negb_false_iff, String.eqb_eq in Hdiff.
      assumption. }
    subst this'.
    destruct slot; split;
      [ intros a r Ha Hr | intros resp [] x Hr Hx
      | intros a r Ha Hr | intros resp [] x Hr Hx ];
      cbn [_accessToken _refreshToken _startSessionResponse with_accessToken
           with_refreshToken stored] in *.
    + rewrite Hsubj in Ha. injection Ha as <-.
      symmetry. apply Hother. exact Hr.
    + rewrite Hsubj in Hx. injection Hx as <-. apply Hid. exact Hr.
    + apply (Hstart resp RefreshToken x Hr Hx).
    + rewrite Hsubj in Hr. injection Hr as <-.
      apply Hother. exact Ha.
    + apply (Hstart resp AccessToken x Hr Hx).
    + rewrite Hsubj in Hx. injection Hx as <-. apply Hid. exact Hr.
  - subst this'. destruct slot; split; simpl.
    + intros a r Ha. discriminate.
    + intros resp [] x Hr Hx; simpl in *; [discriminate|].
      apply (Hstart resp RefreshToken x Hr Hx).
    + intros a r _ Hr. discriminate.
    + intros resp [] x Hr Hx; simpl in *; [|discriminate].
      apply (Hstart resp AccessToken x Hr Hx).
Qed.

(** * Further properties of the code *)

(** *** Computations that keep a property *)

Section Keeps.
Context {St : Type}.
Variable I : St -> Prop.

Lemma keeps_ret {A} (a : A) : keeps I (ret a).
Proof. intros s H. exact H. Qed.

Lemma keeps_throw {A} (e : Error) : keeps I (@throw St A e).
Proof. intros s H. exact H. Qed.

Lemma keeps_gets {A} (f : St -> A) : keeps I (gets f).
Proof. intros s H. exact H. Qed.

Lemma keeps_liftR {A} (r : Result A) : keeps I (liftR r).
Proof. intros s H. exact H. Qed.

Lemma keeps_bind {A B} (c : M St A) (k : A -> M St B) :
  keeps I c -> (forall a, keeps I (k a)) -> keeps I (bind c k).
Proof.
  intros Hc Hk s H. unfold bind. specialize (Hc s H).
  destruct (c s) as [[a|e] s']; simpl in *.
  - apply Hk. exact Hc.
  - exact Hc.
Qed.

Lemma keeps_try_catch {A} (c : M St A) (h : Error -> M St A) :
  keeps I c -> (forall e, keeps I (h e)) -> keeps I (try_catch c h).
Proof.
  intros Hc Hh s H. unfold try_catch. specialize (Hc s H).
  destruct (c s) as [[a|e] s']; simpl in *.
  - exact Hc.
  - apply Hh. exact Hc.
Qed.

Lemma keeps_modify (f : St -> St) :
  (forall s, I s -> I (f s)) -> keeps I (modify f).
Proof. intros Hf s H. apply Hf. exact H. Qed.

Lemma keeps_if {A} (b : bool) (c1 c2 : M St A) :
  keeps I c1 -> keeps I c2 -> keeps I (if b then c1 else c2).
Proof. destruct b; intros; assumption. Qed.

End Keeps.

(** *** Token assignment, continued *)

Lemma differs_from_start_false (decoded : Jwt) (this : Session) :
  differs_from_start decoded this = false
  <-> agrees_with_start (sub decoded) this.
Proof.
  unfold differs_from_start, agrees_with_start. split.
  - intros H r Hr. rewrite Hr in H.
    destruct (steamId r) as [|c t] eqn:Hid; [left; reflexivity|].
    right. simpl in H. apply negb_false_iff, String.eqb_eq in H. exact H.
  - intros H. destruct (_startSessionResponse this) as [r|]; [|reflexivity].
    destruct (H r eq_refl) as [Hempty | Heq].
    + rewrite Hempty. reflexivity.
    + rewrite Heq, String.eqb_refl. simpl. apply andb_false_r.
Qed.

(** When a setter stores a token. *)
Lemma assign_run (helpers : Helpers) (slot : Slot) (c : ascii) (t : string)
  (this : Session) :
  fst (assign helpers slot (Some (String c t)) this) = Return tt
  <-> exists decoded,
        decodeJwt helpers (String c t) = Return decoded
        /\ SteamID_valid helpers (sub decoded) = true
        /\ differs_from_start decoded this = false
        /\ agrees_with_slot helpers (sub decoded) (other_slot slot) this.
Proof.
  unfold agrees_with_slot, subject.
  destruct slot; simpl; unfold set_accessToken, set_refreshToken; run_monad.
  - destruct (decodeJwt helpers (String c t)) as [d|e1]; simpl.
    2:{ split; [discriminate | intros (d & Hd & _); discriminate]. }
    destruct (SteamID_valid helpers (sub d)) eqn:Hv; simpl.
    2:{ split; [discriminate|].
        intros (d' & [= <-] & Hv' & _). congruence. }
    destruct (differs_from_start d this) eqn:Hs; simpl.
    1:{ split; [discriminate|].
        intros (d' & [= <-] & _ & Hs' & _). congruence. }
    destruct (_refreshToken this) as [[|c' t']|]; simpl.
    + split; [|reflexivity]. intros _. exists d. auto.
    + destruct (decodeJwt helpers (String c' t')) as [d'|e2]; simpl.
      * destruct (String.eqb (sub d') (sub d)) eqn:E; simpl.
        -- split; [|reflexivity]. intros _. exists d.
           apply String.eqb_eq in E. rewrite E. auto.
        -- split; [discriminate|].
           intros (d0 & [= <-] & _ & _ & [H|H]); [discriminate|].
           injection H as H. rewrite H, String.eqb_refl in E. discriminate.
      * split; [discriminate|].
        intros (d0 & _ & _ & _ & [H|H]); discriminate.
    + split; [|reflexivity]. intros _. exists d. auto.
  - destruct (decodeJwt helpers (String c t)) as [d|e1]; simpl.
    2:{ split; [discriminate | intros (d & Hd & _); discriminate]. }
    destruct (SteamID_valid helpers (sub d)) eqn:Hv; simpl.
    2:{ split; [discriminate|].
        intros (d' & [= <-] & Hv' & _). congruence. }
    destruct (differs_from_start d this) eqn:Hs; simpl.
    1:{ split; [discriminate|].
        intros (d' & [= <-] & _ & Hs' & _). congruence. }
    destruct (_accessToken this) as [[|c' t']|]; simpl.
    + split; [|reflexivity]. intros _. exists d. auto.
    + destruct (decodeJwt helpers (String c' t')) as [d'|e2]; simpl.
      * destruct (String.eqb (sub d') (sub d)) eqn:E; simpl.
        -- split; [|reflexivity]. intros _. exists d.
           apply String.eqb_eq in E. rewrite E. auto.
        -- split; [discriminate|].
           intros (d0 & [= <-] & _ & _ & [H|H]); [discriminate|].
           injection H as H. rewrite H, String.eqb_refl in E. discriminate.
      * split; [discriminate|].
        intros (d0 & _ & _ & _ & [H|H]); discriminate.
    + split; [|reflexivity]. intros _. exists d. auto.
Qed.

(** X1.  A setter accepts a non-empty token exactly when the token decodes,
    its subject is an account identifier, the subject agrees with the
    session-start response (none recorded, none named, or the same account)
    and with the token of the other slot (none set, or one that decodes to
    the same subject); an accepted token is the one that the slot holds
    afterwards. *)
Theorem assign_accepts_iff (helpers : Helpers) (slot : Slot) (token : string)
  (this : Session) :
  token <> "" ->
  (fst (assign helpers slot (Some token) this) = Return tt
   <-> exists decoded,
         decodeJwt helpers token = Return decoded
         /\ SteamID_valid helpers (sub decoded) = true
         /\ agrees_with_start (sub decoded) this
         /\ agrees_with_slot helpers (sub decoded) (other_slot slot) this)
  /\ (fst (assign helpers slot (Some token) this) = Return tt ->
      stored slot (snd (assign helpers slot (Some token) this)) = Some token).
Proof.
  intros Hne. destruct token as [|c t]; [congruence|]. split.
  - rewrite assign_run. split.
    + intros (d & Hd & Hv & Hs & Ho). exists d.
      rewrite <- differs_from_start_false. auto.
    + intros (d & Hd & Hv & Hs & Ho). exists d.
      rewrite differs_from_start_false. auto.
  - intros Hret.
    destruct (assign helpers slot (Some (String c t)) this) as [[[]|e] s] eqn:E;
      simpl in Hret; [|discriminate].
    apply assign_return_stored in E. subst s. destruct slot; reflexivity.
Qed.

(** A token of [bob] is accepted by a fresh session. *)
Lemma assign_accepts_iff_witness :
  stored AccessToken
    (snd (assign Doubles.helpers AccessToken
            (Some (Doubles.token_of Doubles.bob))
            (constructor Datatypes.None)))
  = Some (Doubles.token_of Doubles.bob).
Proof.
  apply (@assign_accepts_iff Doubles.helpers AccessToken
           (Doubles.token_of Doubles.bob) (constructor Datatypes.None)).
  - discriminate.
  - reflexivity.
Defined.

(** X2.  Emptying a slot always succeeds, whatever the session holds, and
    lifts the mismatch that its token caused: a token that decodes, whose
    subject is an account identifier and agrees with the session-start
    response, is accepted in one slot once the other slot has been
    emptied. *)
Theorem assign_after_clearing (helpers : Helpers) (slot : Slot)
  (empty : option string) (token : string) (decoded : Jwt) (this : Session) :
  truthy_string empty = false ->
  token <> "" ->
  decodeJwt helpers token = Return decoded ->
  SteamID_valid helpers (sub decoded) = true ->
  agrees_with_start (sub decoded) this ->
  assign helpers (other_slot slot) empty this
  = (Return tt,
     match other_slot slot with
     | AccessToken => with_accessToken empty this
     | RefreshToken => with_refreshToken empty this
     end)
  /\ fst (assign helpers slot (Some token)
            (snd (assign helpers (other_slot slot) empty this)))
     = Return tt.
Proof.
  intros Hempty Hne Hd Hv Hs.
  assert (Hclear : assign helpers (other_slot slot) empty this
                   = (Return tt,
                      match other_slot slot with
                      | AccessToken => with_accessToken empty this
                      | RefreshToken => with_refreshToken empty this
                      end)).
  { destruct slot; simpl; unfold set_accessToken, set_refreshToken;
      destruct empty as [[|c t]|]; try discriminate; reflexivity. }
  split; [exact Hclear|]. rewrite Hclear. cbn [snd].
  destruct token as [|c t]; [congruence|].
  apply assign_run. exists decoded.
  split; [exact Hd|]. split; [exact Hv|]. split.
  - apply differs_from_start_false. intros r Hr. apply Hs.
    destruct slot; exact Hr.
  - left. destruct slot; exact Hempty.
Qed.

(** The refresh token of [alice] is removed; the access token of [bob] is
    then accepted. *)
Lemma assign_after_clearing_witness :
  fst (assign Doubles.helpers AccessToken
         (Some (Doubles.token_of Doubles.bob))
         (snd (assign Doubles.helpers RefreshToken Datatypes.None
                 Doubles.holding_refresh_token)))
  = Return tt.
Proof.
  apply (@assign_after_clearing Doubles.helpers AccessToken Datatypes.None
           (Doubles.token_of Doubles.bob) {| sub := Doubles.bob |}
           Doubles.holding_refresh_token).
  - reflexivity.
  - discriminate.
  - reflexivity.
  - reflexivity.
  - intros r Hr. discriminate Hr.
Defined.

(** *** What the methods keep *)

(** A property of the machine that the bookkeeping of the guard resolution
    does not disturb is kept by every method of the guard resolution. *)
Section GuardKeeps.
Context {World : Type}.
Variable enums : Enums.
Variable handler : AuthenticationClient World.
Variable I : Machine World -> Prop.

Hypothesis I_emitted : forall m l, I m -> I (with_emitted l m).
Hypothesis I_immediates : forall m n, I m -> I (with_immediates n m).
Hypothesis I_calls : forall m l, I m -> I (with_calls l m).
Hypothesis I_world : forall m w, I m -> I (with_world w m).
Hypothesis I_canceled :
  forall m v, I m -> I (with_this (with_pollingCanceled v (this m)) m).
Hypothesis I_hadRemoteInteraction :
  forall m v, I m -> I (with_this (with_hadRemoteInteraction v (this m)) m).
Hypothesis I_steamGuardCode :
  forall m v, I m -> I (with_this (with_steamGuardCode v (this m)) m).
Hypothesis I_steamGuardMachineToken :
  forall m v, I m -> I (with_this (with_steamGuardMachineToken v (this m)) m).
Hypothesis I_startSessionResponse :
  forall m v, I m -> I (with_this (with_startSessionResponse v (this m)) m).

Lemma keeps_emit (e : Event) : keeps I (emit e).
Proof. intros m H. apply I_emitted. exact H. Qed.

Lemma keeps_setImmediate_doPoll : keeps I setImmediate_doPoll.
Proof. intros m H. apply I_immediates. exact H. Qed.

Lemma keeps_ask {A} (c : HandlerCall) (answer : World -> Result A * World) :
  keeps I (ask c answer).
Proof.
  intros m H. unfold ask. destruct (answer (world m)) as [r w]. simpl.
  apply I_world, I_calls. exact H.
Qed.

Lemma keeps_the_startSessionResponse :
  keeps I (@the_startSessionResponse World).
Proof.
  unfold the_startSessionResponse. apply keeps_bind; [apply keeps_gets|].
  intros [r|]; [apply keeps_ret | apply keeps_throw].
Qed.

Lemma keeps_submitSteamGuardCode (authCode : string) :
  keeps I (submitSteamGuardCode handler authCode).
Proof.
  unfold submitSteamGuardCode, _verifyStarted.
  apply keeps_bind.
  { apply keeps_bind; [apply keeps_gets|].
    intros [r|]; [apply keeps_ret | apply keeps_throw]. }
  intros _. apply keeps_bind; [apply keeps_emit|].
  intros _. apply keeps_bind; [apply keeps_the_startSessionResponse|].
  intros r. apply keeps_if; [apply keeps_throw|].
  apply keeps_bind; [apply keeps_ask|].
  intros _. apply keeps_setImmediate_doPoll.
Qed.

Lemma keeps_submit_supplied_code (wrong : EResult.t) :
  keeps I (submit_supplied_code handler wrong).
Proof.
  unfold submit_supplied_code. apply keeps_bind; [apply keeps_gets|].
  intros [[|c t]|]; try apply keeps_ret.
  apply keeps_try_catch.
  - apply keeps_bind; [apply keeps_submitSteamGuardCode|].
    intros _. apply keeps_ret.
  - intros e. apply keeps_if; [apply keeps_throw | apply keeps_ret].
Qed.

Lemma keeps__attemptEmailCodeAuth : keeps I (_attemptEmailCodeAuth handler).
Proof.
  unfold _attemptEmailCodeAuth.
  apply keeps_bind; [apply keeps_submit_supplied_code|].
  intros submitted. apply keeps_if; [apply keeps_ret|].
  apply keeps_bind; [apply keeps_the_startSessionResponse|].
  intros r. apply keeps_if; [|apply keeps_ret].
  apply keeps_bind; [apply keeps_gets|].
  intros params. apply keeps_bind; [apply keeps_ask|].
  intros res. apply keeps_if; [|apply keeps_ret].
  apply keeps_bind; [apply keeps_setImmediate_doPoll|].
  intros _. apply keeps_ret.
Qed.

Lemma keeps__attemptTotpCodeAuth : keeps I (_attemptTotpCodeAuth handler).
Proof.
  unfold _attemptTotpCodeAuth.
  apply keeps_bind; [apply keeps_submit_supplied_code|].
  intros submitted. apply keeps_if; apply keeps_ret.
Qed.

Lemma keeps_process_confirmation (i : AllowedConfirmation)
  (va : list StartSessionResponseValidAction) :
  keeps I (process_confirmation enums handler i va).
Proof.
  unfold process_confirmation. destruct (type i).
  - apply keeps_bind; [apply keeps_emit|]. intros _.
    apply keeps_bind; [apply keeps_setImmediate_doPoll|]. intros _.
    apply keeps_ret.
  - apply keeps_bind; [apply keeps_emit|]. intros _.
    apply keeps_bind; [apply keeps__attemptEmailCodeAuth|].
    intros b. apply keeps_if; apply keeps_ret.
  - apply keeps_bind; [apply keeps_emit|]. intros _.
    apply keeps_bind; [apply keeps__attemptTotpCodeAuth|].
    intros b. apply keeps_if; apply keeps_ret.
  - apply keeps_bind; [apply keeps_emit|]. intros _.
    apply keeps_bind; [apply keeps_setImmediate_doPoll|]. intros _.
    apply keeps_ret.
  - apply keeps_bind; [apply keeps_emit|]. intros _.
    apply keeps_bind; [apply keeps_setImmediate_doPoll|]. intros _.
    apply keeps_ret.
  - apply keeps_ret.
  - apply keeps_throw.
Qed.

Lemma keeps_process_confirmations (l : list AllowedConfirmation) :
  forall va, keeps I (process_confirmations enums handler l va).
Proof.
  induction l as [|i l IH]; intros va; simpl.
  - apply keeps_ret.
  - apply keeps_bind; [apply keeps_process_confirmation|].
    intros [response|va']; [apply keeps_ret | apply IH].
Qed.

Lemma keeps__processStartSessionResponse :
  keeps I (_processStartSessionResponse enums handler).
Proof.
  unfold _processStartSessionResponse.
  apply keeps_bind.
  { intros m H. unfold on_session, modify. simpl. apply I_canceled. exact H. }
  intros _. apply keeps_bind; [apply keeps_the_startSessionResponse|].
  intros r. apply keeps_bind; [apply keeps_process_confirmations|].
  intros [response|va]; [apply keeps_ret|].
  apply keeps_if; [apply keeps_throw | apply keeps_ret].
Qed.

Lemma keeps_startWithCredentials
  (details : StartLoginSessionWithCredentialsDetails) :
  keeps I (startWithCredentials enums handler details).
Proof.
  unfold startWithCredentials.
  apply keeps_bind.
  { intros m H. unfold on_session, modify. simpl.
    apply I_hadRemoteInteraction. exact H. }
  intros _. apply keeps_bind.
  { intros m H. unfold on_session, modify. simpl.
    apply I_steamGuardCode. exact H. }
  intros _. apply keeps_bind.
  { intros m H. unfold on_session, modify. simpl.
    apply I_steamGuardMachineToken. exact H. }
  intros _. apply keeps_bind; [apply keeps_ask|].
  intros enc. apply keeps_bind; [apply keeps_gets|].
  intros params. apply keeps_bind; [apply keeps_ask|].
  intros r. apply keeps_bind.
  { intros m H. unfold on_session, modify. simpl.
    apply I_startSessionResponse. exact H. }
  intros _. apply keeps_bind; [apply keeps_emit|].
  intros _. apply keeps__processStartSessionResponse.
Qed.

End GuardKeeps.

(** A property of the machine that the bookkeeping of the polling loop does
    not disturb, and that the token setters keep, is kept by the polling
    loop. *)
Section PollKeeps.
Context {World : Type}.
Variable helpers : Helpers.
Variable I : Machine World -> Prop.

Hypothesis I_emitted : forall m l, I m -> I (with_emitted l m).
Hypothesis I_timers : forall m l, I m -> I (with_timers l m).
Hypothesis I_inflight : forall m n, I m -> I (with_inflight n m).
Hypothesis I_calls : forall m l, I m -> I (with_calls l m).
Hypothesis I_canceled :
  forall m v, I m -> I (with_this (with_pollingCanceled v (this m)) m).
Hypothesis I_pollingStartedTime :
  forall m v, I m -> I (with_this (with_pollingStartedTime v (this m)) m).
Hypothesis I_pollTimer :
  forall m v, I m -> I (with_this (with_pollTimer v (this m)) m).
Hypothesis I_hadRemoteInteraction :
  forall m v, I m -> I (with_this (with_hadRemoteInteraction v (this m)) m).
Hypothesis I_accountName :
  forall m v, I m -> I (with_this (with_accountName v (this m)) m).
Hypothesis I_clientId :
  forall m r c,
    _startSessionResponse (this m) = Some r -> I m ->
    I (with_this
         (with_startSessionResponse (Some (with_clientId c r)) (this m)) m).
Hypothesis I_assign :
  forall slot token, keeps I (on_session (assign helpers slot token)).

Lemma keeps_session_modify (f : Session -> Session) :
  (forall m, I m -> I (with_this (f (this m)) m)) ->
  keeps I (on_session (modify f)).
Proof. intros Hf m H. unfold on_session, modify. simpl. apply Hf. exact H. Qed.

Lemma keeps_clearTimeout (handle : option Timeout) :
  keeps I (clearTimeout handle).
Proof.
  destruct handle as [h|]; simpl; [|apply keeps_ret].
  intros m H. apply I_timers. exact H.
Qed.

Lemma keeps_cancelLoginAttempt : keeps I cancelLoginAttempt.
Proof.
  unfold cancelLoginAttempt.
  apply keeps_bind;
    [apply keeps_session_modify; intros; apply I_canceled; assumption|].
  intros _. apply keeps_bind; [apply keeps_gets|].
  intros [h|]; [|apply keeps_ret].
  apply keeps_bind; [apply keeps_clearTimeout|]. intros _. apply keeps_ret.
Qed.

Lemma keeps__doPoll_begin (clock_start clock_now : Z) :
  keeps I (_doPoll_begin clock_start clock_now).
Proof.
  unfold _doPoll_begin.
  apply keeps_bind; [apply keeps_gets|].
  intros canceled. apply keeps_if; [apply keeps_ret|].
  apply keeps_bind; [apply keeps_gets|].
  intros pollTimer. apply keeps_bind; [apply keeps_clearTimeout|].
  intros _. apply keeps_bind; [apply keeps_gets|].
  intros started. apply keeps_bind.
  { apply keeps_if; [|apply keeps_ret].
    apply keeps_bind;
      [apply keeps_session_modify; intros; apply I_pollingStartedTime;
       assumption|].
    intros _ m H. apply I_emitted. exact H. }
  intros _. apply keeps_bind; [apply keeps_gets|].
  intros start. cbv zeta. apply keeps_bind; [apply keeps_gets|].
  intros timeout_ms. apply keeps_if.
  - apply keeps_bind; [intros m H; apply I_emitted; exact H|].
    intros _. apply keeps_bind; [apply keeps_cancelLoginAttempt|].
    intros _. apply keeps_ret.
  - apply keeps_bind; [apply keeps_gets|].
    intros session m H. unfold modify. simpl.
    apply I_inflight, I_calls. exact H.
Qed.

(** The rotation of the client identifier. *)
Lemma keeps_clientId (c : StartAuthSessionWithCredentialsResponse -> string) :
  keeps I
    (bind the_startSessionResponse
       (fun r => on_session
                   (modify (with_startSessionResponse
                              (Some (with_clientId (c r) r)))))).
Proof.
  intros m H. unfold the_startSessionResponse, on_session. run_monad.
  destruct (_startSessionResponse (this m)) as [r|] eqn:Hr; simpl.
  - apply I_clientId; assumption.
  - exact H.
Qed.

Lemma keeps_bind_assoc {A B C}
  (c : M (Machine World) A) (f : A -> M (Machine World) B)
  (k : M (Machine World) C) :
  keeps I (bind c f) -> keeps I k ->
  keeps I (bind c (fun a => bind (f a) (fun _ => k))).
Proof.
  intros Hcf Hk m H. specialize (Hcf m H). unfold bind in *.
  destruct (c m) as [[a|e] m1]; simpl in *; [|exact Hcf].
  destruct (f a m1) as [[b|e] m2]; simpl in *; [|exact Hcf].
  apply Hk. exact Hcf.
Qed.

Lemma keeps__doPoll_resume (answer : Result PollResponse) :
  keeps I (_doPoll_resume helpers answer).
Proof.
  destruct answer as [p|ex]; simpl.
  2:{ intros m H. apply I_emitted. exact H. }
  apply keeps_bind; [intros m H; apply I_emitted; exact H|].
  intros _.
  apply (keeps_bind_assoc
           (f := fun r =>
                   on_session
                     (modify (with_startSessionResponse
                                (Some (with_clientId
                                         (match newClientId p with
                                          | Some (String _ _ as c) => c
                                          | _ => clientId r
                                          end) r)))))).
  { apply (keeps_clientId
             (fun r => match newClientId p with
                       | Some (String _ _ as c) => c
                       | _ => clientId r
                       end)). }
  apply keeps_bind; [apply keeps_gets|].
  intros seen. apply keeps_bind.
  { apply keeps_if; [|apply keeps_ret].
    apply keeps_bind;
      [apply keeps_session_modify; intros; apply I_hadRemoteInteraction;
       assumption|].
    intros _ m H. apply I_emitted. exact H. }
  intros _. apply keeps_if.
  - apply keeps_bind;
      [apply keeps_session_modify; intros; apply I_accountName; assumption|].
    intros _. apply keeps_bind; [apply (I_assign AccessToken)|].
    intros _. apply keeps_bind; [apply (I_assign RefreshToken)|].
    intros _ m H. apply I_emitted. exact H.
  - apply keeps_bind; [apply keeps_gets|].
    intros canceled. apply keeps_if; [|apply keeps_ret].
    apply keeps_bind.
    { unfold the_startSessionResponse. apply keeps_bind; [apply keeps_gets|].
      intros [r|]; [apply keeps_ret | apply keeps_throw]. }
    intros r'. apply keeps_bind.
    { intros m H. unfold setTimeout_doPoll. simpl. apply I_timers. exact H. }
    intros h. apply keeps_session_modify. intros. apply I_pollTimer.
    assumption.
Qed.

End PollKeeps.

(** *** What the steps of the asynchronous methods keep *)

Section StepKeeps.
Context {World : Type}.
Variable enums : Enums.
Variable handler : AuthenticationClient World.
Variable I : Machine World -> Prop.

Hypothesis I_debug :
  forall m msg, I m -> I (with_emitted (emitted m ++ [Ev_debug msg]) m).
Hypothesis I_queued :
  forall m, I m -> I (with_immediates (S (immediates m)) m).
Hypothesis I_sent :
  forall m c, is_poll_request c = false ->
              I m -> I (with_calls (calls m ++ [c]) m).
Hypothesis I_world : forall m w, I m -> I (with_world w m).

Lemma keeps_debug (msg : string) : keeps I (emit (Ev_debug msg)).
Proof. intros m H. apply I_debug. exact H. Qed.

Lemma keeps_queued : keeps I (@setImmediate_doPoll World).
Proof. intros m H. apply I_queued. exact H. Qed.

Lemma keeps_send (c : HandlerCall) :
  is_poll_request c = false -> keeps I (send c).
Proof. intros Hc m H. apply I_sent; assumption. Qed.

Lemma keeps_receive {A} (answer : World -> Result A * World) :
  keeps I (receive answer).
Proof.
  intros m H. unfold receive. destruct (answer (world m)) as [r w]. simpl.
  apply I_world. exact H.
Qed.

Lemma keeps_started : keeps I (@the_startSessionResponse World).
Proof.
  unfold the_startSessionResponse. apply keeps_bind; [apply keeps_gets|].
  intros [r|]; [apply keeps_ret | apply keeps_throw].
Qed.

Lemma keeps_submitSteamGuardCode_call (authCode : string) :
  keeps I (submitSteamGuardCode_call authCode).
Proof.
  unfold submitSteamGuardCode_call, _verifyStarted.
  apply keeps_bind.
  { apply keeps_bind; [apply keeps_gets|].
    intros [r|]; [apply keeps_ret | apply keeps_throw]. }
  intros _. apply keeps_bind; [apply keeps_debug|].
  intros _. apply keeps_bind; [apply keeps_started|].
  intros r. apply keeps_if; [apply keeps_throw|].
  apply keeps_bind; [apply keeps_send; reflexivity|].
  intros _. apply keeps_ret.
Qed.

Lemma keeps_submitSteamGuardCode_called (authCode : string) :
  keeps I (submitSteamGuardCode_called authCode).
Proof.
  unfold submitSteamGuardCode_called.
  apply keeps_bind; [apply keeps_submitSteamGuardCode_call|].
  intros params. apply keeps_ret.
Qed.

Lemma keeps_attempt_goes_on (point : LoopPoint) :
  keeps I (attempt_goes_on point).
Proof.
  unfold attempt_goes_on.
  destruct (type (at_challenge point)); try apply keeps_ret.
  apply keeps_bind; [apply keeps_started|].
  intros r. apply keeps_if; [|apply keeps_ret].
  apply keeps_bind; [apply keeps_gets|].
  intros params. apply keeps_bind; [apply keeps_send; reflexivity|].
  intros _. apply keeps_ret.
Qed.

Lemma keeps_attempt_starts (point : LoopPoint) :
  keeps I (attempt_starts point).
Proof.
  unfold attempt_starts. apply keeps_bind; [apply keeps_gets|].
  intros [[|a c]|]; try apply keeps_attempt_goes_on.
  apply keeps_try_catch.
  - apply keeps_bind; [apply keeps_submitSteamGuardCode_call|].
    intros params. apply keeps_ret.
  - intros ex. apply keeps_ret.
Qed.

Lemma keeps_loop_from (l : list AllowedConfirmation) :
  forall va, keeps I (loop_from enums l va).
Proof.
  induction l as [|i rest IH]; intros va; cbn [loop_from].
  - apply keeps_if; [apply keeps_throw | apply keeps_ret].
  - destruct (type i).
    + apply keeps_bind; [apply keeps_debug|]. intros _.
      apply keeps_bind; [apply keeps_queued|]. intros _. apply keeps_ret.
    + apply keeps_bind; [apply keeps_debug|]. intros _.
      apply keeps_attempt_starts.
    + apply keeps_bind; [apply keeps_debug|]. intros _.
      apply keeps_attempt_starts.
    + apply keeps_bind; [apply keeps_debug|]. intros _.
      apply keeps_bind; [apply keeps_queued|]. intros _. apply IH.
    + apply keeps_bind; [apply keeps_debug|]. intros _.
      apply keeps_bind; [apply keeps_queued|]. intros _. apply IH.
    + apply IH.
    + apply keeps_throw.
Qed.

Lemma keeps_encryptPassword_settles
  (details : StartLoginSessionWithCredentialsDetails) :
  keeps I (encryptPassword_settles enums handler details).
Proof.
  unfold encryptPassword_settles.
  apply keeps_bind; [apply keeps_receive|]. intros enc.
  apply keeps_bind; [apply keeps_gets|]. intros params.
  apply keeps_bind; [apply keeps_send; reflexivity|]. intros _.
  apply keeps_ret.
Qed.

Lemma keeps_submit_settles (params : SubmitSteamGuardCodeParams)
  (caller : option LoopPoint) :
  keeps I (submit_settles handler params caller).
Proof.
  unfold submit_settles. destruct caller as [point|].
  - apply keeps_try_catch; [|intros ex; apply keeps_ret].
    apply keeps_bind; [apply keeps_receive|]. intros _.
    apply keeps_bind; [apply keeps_queued|]. intros _. apply keeps_ret.
  - apply keeps_bind; [apply keeps_receive|]. intros _.
    apply keeps_bind; [apply keeps_queued|]. intros _. apply keeps_ret.
Qed.

Lemma keeps_submitted_resumes (outcome : Result unit) (point : LoopPoint) :
  keeps I (submitted_resumes outcome point).
Proof.
  unfold submitted_resumes. destruct outcome as [u|ex].
  - apply keeps_ret.
  - apply keeps_if; [apply keeps_throw | apply keeps_attempt_goes_on].
Qed.

Lemma keeps_check_settles (params : CheckMachineAuthParams)
  (point : LoopPoint) :
  keeps I (check_settles handler params point).
Proof.
  unfold check_settles.
  apply keeps_bind; [apply keeps_receive|]. intros res.
  apply keeps_if; [|apply keeps_ret].
  apply keeps_bind; [apply keeps_queued|]. intros _. apply keeps_ret.
Qed.

Lemma keeps_attempt_settles (authResult : bool) (point : LoopPoint) :
  keeps I (attempt_settles enums authResult point).
Proof.
  unfold attempt_settles.
  apply keeps_if; [apply keeps_ret | apply keeps_loop_from].
Qed.

(** The step that stores the session-start response. *)
Lemma keeps_startSession_settles (params : StartSessionParams) :
  (forall m v,
      I m -> I (with_this (with_startSessionResponse v (this m)) m)) ->
  (forall m,
      I m -> I (with_this (with_pollingCanceled (Some false) (this m)) m)) ->
  keeps I (startSession_settles enums handler params).
Proof.
  intros I_response I_reopened. unfold startSession_settles.
  apply keeps_bind; [apply keeps_receive|]. intros r.
  apply keeps_bind.
  { intros m H. unfold on_session, modify. simpl. apply I_response.
    exact H. }
  intros _. apply keeps_bind; [apply keeps_debug|]. intros _.
  apply keeps_bind.
  { intros m H. unfold on_session, modify. simpl. apply I_reopened.
    exact H. }
  intros _. apply keeps_bind; [apply keeps_started|]. intros r'.
  apply keeps_loop_from.
Qed.

(** The call of [startWithCredentials]. *)
Lemma keeps_startWithCredentials_call
  (details : StartLoginSessionWithCredentialsDetails) :
  (forall m,
      I m ->
      I (with_this (with_hadRemoteInteraction (Some false) (this m)) m)) ->
  (forall m v, I m -> I (with_this (with_steamGuardCode v (this m)) m)) ->
  (forall m v,
      I m -> I (with_this (with_steamGuardMachineToken v (this m)) m)) ->
  keeps I (startWithCredentials_call details).
Proof.
  intros I_remote I_code I_token. unfold startWithCredentials_call.
  apply keeps_bind.
  { intros m H. unfold on_session, modify. simpl. apply I_remote. exact H. }
  intros _. apply keeps_bind.
  { intros m H. unfold on_session, modify. simpl. apply I_code. exact H. }
  intros _. apply keeps_bind.
  { intros m H. unfold on_session, modify. simpl. apply I_token. exact H. }
  intros _. apply keeps_bind; [apply keeps_send; reflexivity|].
  intros _. apply keeps_ret.
Qed.

(** Every step but the one that stores the session-start response. *)
Lemma keeps_resume (k : Awaiting) :
  (forall params, k <> W_startSession params) ->
  keeps I (resume enums handler k).
Proof.
  intros Hk. destruct k as [d|q|q c|o pt|q pt|b pt]; cbn [resume].
  - apply keeps_encryptPassword_settles.
  - exfalso. exact (Hk q eq_refl).
  - apply keeps_submit_settles.
  - apply keeps_submitted_resumes.
  - apply keeps_check_settles.
  - apply keeps_attempt_settles.
Qed.

(** A step, and the call joining the suspended calls if it waits. *)
Lemma keeps_suspend (c : M (Machine World) Step) :
  (forall m l, I m -> I (with_suspended l m)) ->
  keeps I c -> forall m, I m -> I (suspend (c m)).
Proof.
  intros I_suspended Hc m H. specialize (Hc m H). unfold suspend.
  destruct (c m) as [[[resp| |k]|e] m']; simpl in *; try exact Hc.
  apply I_suspended. exact Hc.
Qed.

End StepKeeps.

(** *** Invariants of the session *)

Section SessionInvariants.
Context {World : Type}.
Variable helpers : Helpers.
Variable enums : Enums.
Variable handler : AuthenticationClient World.

Lemma assign_keeps_wellformed (slot : Slot) (token : option string) :
  keeps (fun m : Machine World => tokens_wellformed helpers (this m))
    (on_session (assign helpers slot token)).
Proof.
  intros m H. unfold on_session.
  destruct (assign helpers slot token (this m)) as [[[]|e] s] eqn:E; simpl.
  2:{ apply assign_throw_unchanged in E. subst s. exact H. }
  pose proof (assign_return_stored _ _ _ _ E) as ->.
  intros slot' t Ht Hne.
  destruct slot, slot'; simpl in Ht;
    try (apply (H RefreshToken t Ht Hne));
    try (apply (H AccessToken t Ht Hne));
    subst token; destruct t as [|c t']; try congruence;
    assert (Hret : fst (assign helpers _ (Some (String c t')) (this m))
                   = Return tt) by (rewrite E; reflexivity);
    apply assign_run in Hret; destruct Hret as (d & Hd & Hv & _);
    exists d; split; assumption.
Qed.

(** Every task keeps the tokens of the session well formed. *)
Lemma perform_keeps_wellformed (t : Task) (m m' : Machine World) :
  perform helpers enums handler t m = Some m' ->
  tokens_wellformed helpers (this m) ->
  tokens_wellformed helpers (this m').
Proof.
  set (I := fun m : Machine World => tokens_wellformed helpers (this m)).
  intros Hperform H. change (I m) in H. change (I m').
  destruct t; simpl in Hperform.
  - injection Hperform as <-. exact H.
  - injection Hperform as <-. exact H.
  - injection Hperform as <-.
    apply (assign_keeps_wellformed AccessToken token H).
  - injection Hperform as <-.
    apply (assign_keeps_wellformed RefreshToken token H).
  - injection Hperform as <-.
    apply (@keeps_startWithCredentials _ enums handler I); try exact H;
      intros; assumption.
  - injection Hperform as <-.
    apply (@keeps_submitSteamGuardCode _ handler I); try exact H;
      intros; assumption.
  - injection Hperform as <-.
    apply (@keeps_cancelLoginAttempt _ I); try exact H; intros; assumption.
  - destruct (immediates m) as [|n]; [discriminate|].
    injection Hperform as <-.
    apply (@keeps__doPoll_begin _ I); try exact H; intros; assumption.
  - destruct (timer_pending handle m); [|discriminate].
    injection Hperform as <-.
    apply (@keeps__doPoll_begin _ I); try exact H; intros; assumption.
  - destruct (inflight m) as [|n]; [discriminate|].
    injection Hperform as <-.
    apply (@keeps__doPoll_resume _ helpers I); try exact H;
      try (intros; assumption).
    exact assign_keeps_wellformed.
  - injection Hperform as <-.
    apply (@keeps_suspend _ I); try exact H; try (intros; assumption).
    apply keeps_startWithCredentials_call; intros; assumption.
  - injection Hperform as <-.
    apply (@keeps_suspend _ I); try exact H; try (intros; assumption).
    apply keeps_submitSteamGuardCode_called; intros; assumption.
  - destruct (nth_error (suspended m) k) as [w|]; [|discriminate].
    injection Hperform as <-.
    apply (@keeps_suspend _ I); try exact H; try (intros; assumption).
    destruct w as [d|q|q c|o pt|q pt|b pt]; cbn [resume].
    + apply keeps_encryptPassword_settles; intros; assumption.
    + apply keeps_startSession_settles; intros; assumption.
    + apply keeps_submit_settles; intros; assumption.
    + apply keeps_submitted_resumes; intros; assumption.
    + apply keeps_check_settles; intros; assumption.
    + apply keeps_attempt_settles; intros; assumption.
Qed.

Lemma run_keeps_wellformed (ts : list Task) :
  forall m m' : Machine World,
    run helpers enums handler ts m = Some m' ->
    tokens_wellformed helpers (this m) ->
    tokens_wellformed helpers (this m').
Proof.
  induction ts as [|t ts IH]; intros m m' Hrun H; simpl in Hrun.
  - injection Hrun as <-. exact H.
  - destruct (perform helpers enums handler t m) as [m1|] eqn:E;
      [|discriminate].
    apply (IH m1 m' Hrun). apply (perform_keeps_wellformed _ _ E H).
Qed.

(** X4.  In every state that a session can reach, whatever the server
    answers, a token that the session holds decodes and its subject is an
    account identifier: only the setters write the token slots, and they
    store nothing else. *)
Theorem reachable_tokens_wellformed (m : Machine World) :
  reachable helpers enums handler m ->
  tokens_wellformed helpers (this m).
Proof.
  intros (platformType & w & ts & Hrun).
  apply (run_keeps_wellformed _ _ Hrun).
  intros slot t Ht. destruct slot; discriminate Ht.
Qed.

Lemma assign_keeps_named (slot : Slot) (token : option string)
  (this : Session) :
  _startSessionResponse (snd (assign helpers slot token this))
  = _startSessionResponse this.
Proof.
  destruct (assign helpers slot token this) as [[[]|e] s] eqn:E; simpl.
  - apply assign_return_stored in E. subst s. destruct slot; reflexivity.
  - apply assign_throw_unchanged in E. subst s. reflexivity.
Qed.

Lemma assign_keeps_consistent (slot : Slot) (token : option string) :
  keeps (fun m : Machine World =>
           token_invariant helpers (this m) /\ account_named (this m))
    (on_session (assign helpers slot token)).
Proof.
  intros m [Hinv Hnamed]. unfold on_session.
  pose proof (@assign_keeps_token_invariant helpers slot token (this m)
                Hnamed Hinv) as Hinv'.
  pose proof (assign_keeps_named slot token (this m)) as Hsame.
  destruct (assign helpers slot token (this m)) as [r s]. simpl in *.
  split; [exact Hinv'|]. unfold account_named. rewrite Hsame. exact Hnamed.
Qed.

(** X3.  Every task other than the arrival of a session-start response (the
    step of [startWithCredentials] that stores it, alone or within the
    uninterrupted run of the method): a field assignment, a token
    assignment, [submitSteamGuardCode], [cancelLoginAttempt], a tick of the
    polling loop, the answer of a poll, and every other step of a suspended
    call, keeps the consistency of the tokens (their subjects agree with
    each other and with the account of the session-start response), for a
    session whose session-start response names an account. *)
Theorem perform_keeps_token_invariant (t : Task) (m m' : Machine World) :
  (forall details, t <> T_startWithCredentials details) ->
  (forall k params,
      t = T_resumes k ->
      nth_error (suspended m) k <> Some (W_startSession params)) ->
  perform helpers enums handler t m = Some m' ->
  token_invariant helpers (this m) ->
  account_named (this m) ->
  token_invariant helpers (this m') /\ account_named (this m').
Proof.
  set (I := fun m : Machine World =>
              token_invariant helpers (this m) /\ account_named (this m)).
  intros Hnot Hother Hperform Hinv Hnamed.
  assert (H : I m) by (split; assumption). change (I m').
  assert (Hclient :
            forall (m0 : Machine World) r c,
              _startSessionResponse (this m0) = Some r -> I m0 ->
              I (with_this
                   (with_startSessionResponse (Some (with_clientId c r))
                      (this m0)) m0)).
  { intros m0 r c Hr [[Hpair Hstart] Hn]. split; [split|].
    - exact Hpair.
    - intros resp slot x Hresp Hx. simpl in Hresp. injection Hresp as <-.
      simpl. apply (Hstart r slot x Hr). destruct slot; exact Hx.
    - intros resp Hresp. simpl in Hresp. injection Hresp as <-. simpl.
      apply (Hn r Hr). }
  destruct t; simpl in Hperform.
  - injection Hperform as <-. exact H.
  - injection Hperform as <-. exact H.
  - injection Hperform as <-.
    apply (assign_keeps_consistent AccessToken token H).
  - injection Hperform as <-.
    apply (assign_keeps_consistent RefreshToken token H).
  - exfalso. apply (Hnot details). reflexivity.
  - injection Hperform as <-.
    apply (@keeps_submitSteamGuardCode _ handler I); try exact H;
      intros; assumption.
  - injection Hperform as <-.
    apply (@keeps_cancelLoginAttempt _ I); try exact H; intros; assumption.
  - destruct (immediates m) as [|n]; [discriminate|].
    injection Hperform as <-.
    apply (@keeps__doPoll_begin _ I); try exact H; intros; assumption.
  - destruct (timer_pending handle m); [|discriminate].
    injection Hperform as <-.
    apply (@keeps__doPoll_begin _ I); try exact H; intros; assumption.
  - destruct (inflight m) as [|n]; [discriminate|].
    injection Hperform as <-.
    apply (@keeps__doPoll_resume _ helpers I); try exact H;
      try (intros; assumption).
    + exact Hclient.
    + exact assign_keeps_consistent.
  - injection Hperform as <-.
    apply (@keeps_suspend _ I); try exact H; try (intros; assumption).
    apply keeps_startWithCredentials_call; intros; assumption.
  - injection Hperform as <-.
    apply (@keeps_suspend _ I); try exact H; try (intros; assumption).
    apply keeps_submitSteamGuardCode_called; intros; assumption.
  - destruct (nth_error (suspended m) k) as [w|] eqn:Hw; [|discriminate].
    injection Hperform as <-.
    apply (@keeps_suspend _ I); try exact H; try (intros; assumption).
    apply keeps_resume; try (intros; assumption).
    intros params ->. exact (Hother k params eq_refl Hw).
Qed.

(** X11.  [startWithCredentials], returning or throwing, writes none of the
    login timeout, the account name, the tokens, the platform type, the
    recorded polling start and the timer handle, and neither clears nor
    schedules a timer: a timer that is pending from an earlier attempt stays
    pending, and the timeout of a later attempt still counts from the first
    tick of the first one. *)
Theorem startWithCredentials_frame
  (details : StartLoginSessionWithCredentialsDetails) (m : Machine World) :
  same_login_state m (snd (startWithCredentials enums handler details m))
  /\ (forall h, timer_pending h m = true ->
                timer_pending h
                  (snd (startWithCredentials enums handler details m))
                = true).
Proof.
  assert (Hsame : same_login_state m
                    (snd (startWithCredentials enums handler details m))).
  { apply (@keeps_startWithCredentials _ enums handler
             (fun m' => same_login_state m m'));
      try (intros; assumption).
    repeat split. }
  split; [exact Hsame|].
  intros h Hh. unfold timer_pending in *.
  destruct Hsame as (_ & _ & _ & _ & _ & _ & _ & Ht & _).
  rewrite Ht. exact Hh.
Qed.

End SessionInvariants.

(** The session that has logged in holds two well-formed tokens. *)
Lemma reachable_tokens_wellformed_witness :
  tokens_wellformed Doubles.helpers
    (this (Doubles.after (Doubles.confirming Doubles.alice)
             Doubles.logged_in)).
Proof.
  apply (@reachable_tokens_wellformed unit Doubles.helpers Doubles.enums
           (Doubles.confirming Doubles.alice)).
  apply (@after_reachable _ Doubles.logged_in). vm_compute. reflexivity.
Defined.

(** The answer of the poll that brings the tokens of [alice] to the session
    of [alice]. *)
Lemma perform_keeps_token_invariant_witness :
  token_invariant Doubles.helpers
    (this (Doubles.after (Doubles.confirming Doubles.alice)
             Doubles.logged_in))
  /\ account_named
       (this (Doubles.after (Doubles.confirming Doubles.alice)
                Doubles.logged_in)).
Proof.
  apply (@perform_keeps_token_invariant unit Doubles.helpers Doubles.enums
           (Doubles.confirming Doubles.alice)
           (T_poll_settles (Return (Doubles.tokens_of Doubles.alice)))
           (Doubles.after (Doubles.confirming Doubles.alice)
              (Doubles.waiting ++ [T_timer 0 6000 6000]))).
  - intros details. discriminate.
  - intros k params Hk. discriminate Hk.
  - vm_compute. reflexivity.
  - split.
    + intros a r Ha. vm_compute in Ha. discriminate Ha.
    + intros resp slot x _ Hx. destruct slot; vm_compute in Hx;
        discriminate Hx.
  - intros r Hr. vm_compute in Hr. injection Hr as <-. discriminate.
Defined.

(** *** The identity of the session *)

Section Identity.
Variable helpers : Helpers.
Variable SteamID_error : string -> Error.

Lemma or_string_truthy (a b : option string) :
  truthy_string (or_string a b) = truthy_string a || truthy_string b.
Proof.
  unfold or_string. destruct (truthy_string a) eqn:Ha; simpl.
  - exact Ha.
  - reflexivity.
Qed.

(** X5.  [steamID] is [null] exactly when the session has neither a
    session-start response nor a token.  A session-start response decides
    alone: with one whose account identifier is accepted, [steamID] is that
    identifier whatever the tokens are, and they are not decoded. *)
Theorem steamID_null_iff (this : Session) :
  (steamID helpers SteamID_error this = Return Datatypes.None
   <-> _startSessionResponse this = Datatypes.None
       /\ truthy_string (_accessToken this) = false
       /\ truthy_string (_refreshToken this) = false)
  /\ (forall r, _startSessionResponse this = Some r ->
                SteamID_valid helpers (steamId r) = true ->
                steamID helpers SteamID_error this
                = Return (Some (steamId r))).
Proof.
  unfold steamID, new_SteamID. split.
  - destruct (_startSessionResponse this) as [r|].
    + destruct (SteamID_valid helpers (steamId r)); split;
        try discriminate; intros [H _]; discriminate.
    + pose proof (or_string_truthy (_accessToken this) (_refreshToken this))
        as Hor.
      destruct (or_string (_accessToken this) (_refreshToken this))
        as [[|c t]|]; simpl in Hor; symmetry in Hor.
      * apply orb_false_elim in Hor. split; auto.
      * split.
        -- destruct (decodeJwt helpers (String c t)) as [d|e];
             [destruct (SteamID_valid helpers (sub d))|]; discriminate.
        -- intros (_ & Ha & Hb). rewrite Ha, Hb in Hor. discriminate.
      * apply orb_false_elim in Hor. split; auto.
  - intros r Hr Hv. rewrite Hr, Hv. reflexivity.
Qed.

(** X6.  In a session whose tokens are consistent, the identity that
    [steamID] returns is the subject of every token that the session
    holds. *)
Theorem steamID_agrees_with_tokens (this : Session) (id : string) :
  token_invariant helpers this ->
  steamID helpers SteamID_error this = Return (Some id) ->
  forall slot x, subject helpers (stored slot this) = Some x -> x = id.
Proof.
  intros [Hpair Hstart] Hid slot x Hx.
  unfold steamID, new_SteamID in Hid.
  destruct (_startSessionResponse this) as [r|] eqn:Hr.
  - destruct (SteamID_valid helpers (steamId r)); [|discriminate].
    injection Hid as <-. apply (Hstart r slot x eq_refl Hx).
  - assert (Hfrom : exists slot0,
               subject helpers (stored slot0 this) = Some id
               /\ (slot0 = RefreshToken ->
                   truthy_string (_accessToken this) = false)).
    { unfold or_string in Hid.
      destruct (truthy_string (_accessToken this)) eqn:Ha.
      - exists AccessToken. split; [|discriminate]. simpl.
        destruct (_accessToken this) as [[|c t]|]; try discriminate.
        unfold subject.
        destruct (decodeJwt helpers (String c t)) as [d|e]; [|discriminate].
        destruct (SteamID_valid helpers (sub d)); [|discriminate].
        injection Hid as <-. reflexivity.
      - exists RefreshToken. split; [|reflexivity]. simpl.
        destruct (_refreshToken this) as [[|c t]|]; try discriminate.
        unfold subject.
        destruct (decodeJwt helpers (String c t)) as [d|e]; [|discriminate].
        destruct (SteamID_valid helpers (sub d)); [|discriminate].
        injection Hid as <-. reflexivity. }
    destruct Hfrom as (slot0 & Hid0 & Hacc).
    destruct slot, slot0; simpl in *.
    + congruence.
    + specialize (Hacc eq_refl). unfold subject in Hx.
      destruct (_accessToken this) as [[|c t]|]; discriminate.
    + symmetry. apply (Hpair id x Hid0 Hx).
    + congruence.
Qed.

(** X7.  In a session without a session-start response whose tokens are
    well formed, [steamID] does not throw: it returns the subject of the
    access token when one is held, and otherwise that of the refresh
    token. *)
Theorem steamID_from_tokens (this : Session) :
  tokens_wellformed helpers this ->
  _startSessionResponse this = Datatypes.None ->
  steamID helpers SteamID_error this
  = Return (if truthy_string (_accessToken this)
            then subject helpers (_accessToken this)
            else subject helpers (_refreshToken this)).
Proof.
  intros Hwf Hnone. unfold steamID, new_SteamID, or_string. rewrite Hnone.
  destruct (truthy_string (_accessToken this)) eqn:Ha.
  - destruct (_accessToken this) as [[|c t]|] eqn:E; try discriminate.
    destruct (Hwf AccessToken (String c t) E) as (d & Hd & Hv);
      [discriminate|].
    unfold subject. rewrite Hd, Hv. reflexivity.
  - destruct (_refreshToken this) as [[|c t]|] eqn:E; try reflexivity.
    destruct (Hwf RefreshToken (String c t) E) as (d & Hd & Hv);
      [discriminate|].
    unfold subject. rewrite Hd, Hv. reflexivity.
Qed.

End Identity.

(** A started session answers with the account of the response. *)
Lemma steamID_null_iff_witness :
  steamID Doubles.helpers (fun _ => new_Error "Unknown SteamID input format")
    (this (Doubles.started_with Doubles.email_and_machine))
  = Return (Some Doubles.alice).
Proof.
  apply (proj2 (@steamID_null_iff Doubles.helpers
                  (fun _ => new_Error "Unknown SteamID input format")
                  (this (Doubles.started_with Doubles.email_and_machine)))
           Doubles.email_and_machine);
    reflexivity.
Defined.

(** The session that has logged in: its identity and the subject of its
    refresh token. *)
Lemma steamID_agrees_with_tokens_witness :
  steamID Doubles.helpers (fun _ => new_Error "Unknown SteamID input format")
    (this (Doubles.after (Doubles.confirming Doubles.alice)
             Doubles.logged_in))
  = Return (Some Doubles.alice)
  /\ subject Doubles.helpers
       (stored RefreshToken
          (this (Doubles.after (Doubles.confirming Doubles.alice)
                   Doubles.logged_in)))
     = Some "76561198000000001"
  /\ "76561198000000001" = Doubles.alice.
Proof.
  split; [vm_compute; reflexivity|]. split; [vm_compute; reflexivity|].
  apply (@steamID_agrees_with_tokens Doubles.helpers
           (fun _ => new_Error "Unknown SteamID input format")
           (this (Doubles.after (Doubles.confirming Doubles.alice)
                    Doubles.logged_in))
           Doubles.alice) with (slot := RefreshToken).
  - split.
    + intros a r Ha Hr. vm_compute in Ha, Hr. congruence.
    + intros resp slot x Hresp Hx. vm_compute in Hresp.
      injection Hresp as <-. destruct slot; vm_compute in Hx;
        injection Hx as <-; reflexivity.
  - vm_compute. reflexivity.
  - vm_compute. reflexivity.
Defined.

(** A session that holds only a refresh token. *)
Lemma steamID_from_tokens_witness :
  steamID Doubles.helpers (fun _ => new_Error "Unknown SteamID input format")
    Doubles.holding_refresh_token
  = Return (Some Doubles.alice).
Proof.
  apply (@steamID_from_tokens Doubles.helpers
           (fun _ => new_Error "Unknown SteamID input format")
           Doubles.holding_refresh_token).
  - intros slot t Ht Hne. destruct slot; vm_compute in Ht;
      [discriminate|].
    injection Ht as <-. eexists. split; vm_compute; reflexivity.
  - reflexivity.
Defined.

(** *** Guard resolution, continued *)

Section LocalRounds.
Context {World : Type}.
Variable enums : Enums.
Variable handler : AuthenticationClient World.

Lemma surfaced_cons (i : AllowedConfirmation) (l : list AllowedConfirmation) :
  surfaced (i :: l)
  = if EAuthSessionGuardType.eqb (type i) EAuthSessionGuardType.MachineToken
    then surfaced l else action_for i :: surfaced l.
Proof.
  unfold surfaced. simpl.
  destruct (EAuthSessionGuardType.eqb (type i)
              EAuthSessionGuardType.MachineToken); reflexivity.
Qed.

(** The rounds of a list of local challenges: every challenge but
    [MachineToken] joins the pending-action list, in the order of the list;
    one poll is queued for each confirmation; no request is sent. *)
Lemma process_confirmations_local
  (r : StartAuthSessionWithCredentialsResponse)
  (l : list AllowedConfirmation) :
  forall (va : list StartSessionResponseValidAction) (m : Machine World),
    _startSessionResponse (this m) = Some r ->
    Forall (left_to_user (this m) r) l ->
    exists m',
      process_confirmations enums handler l va m
      = (Return (Next (va ++ surfaced l)), m')
      /\ this m' = this m
      /\ calls m' = calls m
      /\ world m' = world m
      /\ timers m' = timers m
      /\ inflight m' = inflight m
      /\ immediates m' = immediates m + polls_queued l.
Proof.
  induction l as [|i l IH]; intros va m Hr Hall.
  - exists m. simpl. rewrite app_nil_r, Nat.add_0_r. repeat split.
  - inversion Hall as [|i' l' Hi Hl]; subst.
    assert (Hround :
              exists m1,
                process_confirmation enums handler i va m
                = (Return (Next (va ++ (if EAuthSessionGuardType.eqb (type i)
                                              EAuthSessionGuardType.MachineToken
                                         then [] else [action_for i]))), m1)
                /\ this m1 = this m /\ calls m1 = calls m
                /\ world m1 = world m /\ timers m1 = timers m
                /\ inflight m1 = inflight m
                /\ immediates m1
                   = immediates m
                     + (if is_confirmation (type i) then 1 else 0)).
    { unfold process_confirmation, action_for, pending_action.
      destruct Hi as [Hp | (Hc & Hcode & Hmt)].
      - destruct (type i) eqn:Ht; try discriminate;
          unfold emit, setImmediate_doPoll; run_monad.
        + eexists. split; [reflexivity|]. simpl.
          repeat split; lia.
        + eexists. split; [reflexivity|]. simpl.
          repeat split; lia.
        + exists m. rewrite app_nil_r, Nat.add_0_r. repeat split.
      - destruct (type i) eqn:Ht; try discriminate.
        + unfold bind at 1, emit at 1, modify at 1. unfold bind at 1.
          set (m_e := with_emitted
                        (emitted m ++ [Ev_debug "email code required"]) m).
          rewrite (@_attemptEmailCodeAuth_after_code _ handler m_e m_e r
                     (submit_supplied_code_absent handler _ m_e Hcode)
                     eq_refl Hr).
          rewrite (Hmt eq_refl). exists m_e. simpl.
          rewrite Nat.add_0_r. repeat split.
        + unfold bind at 1, emit at 1, modify at 1. unfold bind at 1.
          unfold _attemptTotpCodeAuth. unfold bind at 1.
          set (m_e := with_emitted
                        (emitted m ++ [Ev_debug "device code required"]) m).
          rewrite (submit_supplied_code_absent handler _ m_e Hcode).
          exists m_e. simpl. rewrite Nat.add_0_r. repeat split. }
    destruct Hround as (m1 & Hround & Ht1 & Hc1 & Hw1 & Htm1 & Hin1 & Him1).
    destruct (IH (va ++ (if EAuthSessionGuardType.eqb (type i)
                               EAuthSessionGuardType.MachineToken
                          then [] else [action_for i])) m1)
      as (m' & Hrest & Ht' & Hc' & Hw' & Htm' & Hin' & Him').
    { rewrite Ht1. exact Hr. }
    { rewrite Ht1. exact Hl. }
    exists m'. simpl. unfold bind at 1. rewrite Hround, Hrest.
    rewrite surfaced_cons.
    split.
    { destruct (EAuthSessionGuardType.eqb (type i)
                  EAuthSessionGuardType.MachineToken);
        rewrite <- app_assoc; reflexivity. }
    repeat split; try congruence.
    rewrite Him', Him1. unfold polls_queued. simpl.
    destruct (is_confirmation (type i)); simpl; lia.
Qed.

End LocalRounds.

Section Processing.
Context {World : Type}.
Variable enums : Enums.
Variable handler : AuthenticationClient World.

Lemma process_confirmations_app (l1 l2 : list AllowedConfirmation) :
  forall (va : list StartSessionResponseValidAction) (m : Machine World),
    process_confirmations enums handler (l1 ++ l2) va m
    = match process_confirmations enums handler l1 va m with
      | (Return (Next va'), m') =>
          process_confirmations enums handler l2 va' m'
      | other => other
      end.
Proof.
  induction l1 as [|i l1 IH]; intros va m; simpl.
  - reflexivity.
  - unfold bind.
    destruct (process_confirmation enums handler i va m)
      as [[[response|va1]|e] m1]; try reflexivity.
    apply IH.
Qed.

(** [_processStartSessionResponse], by what its loop does. *)
Lemma _processStartSessionResponse_run (m : Machine World)
  (r : StartAuthSessionWithCredentialsResponse) :
  _startSessionResponse (this m) = Some r ->
  _processStartSessionResponse enums handler m
  = match process_confirmations enums handler (allowedConfirmations r) []
            (polling_reopened m) with
    | (Return (Returned response), m') => (Return response, m')
    | (Return (Next va), m') =>
        if Nat.eqb (length va) 0
        then (Throw (new_Error msg_ambiguous), m')
        else (Return {| actionRequired := true;
                        validActions := Some va |}, m')
    | (Throw e, m') => (Throw e, m')
    end.
Proof.
  intros Hr.
  unfold _processStartSessionResponse, the_startSessionResponse, on_session,
    polling_reopened.
  run_monad. rewrite Hr. simpl.
  destruct (process_confirmations enums handler (allowedConfirmations r) [] _)
    as [[[resp|va]|e] m']; try reflexivity.
  destruct (Nat.eqb (length va) 0); reflexivity.
Qed.

(** X8.  When no challenge of the session-start response is resolved on
    the spot: every challenge is passive, or asks for a code while no guard
    code was supplied and no machine token can stand in, the processing
    sends no request to the server; it requires action and lists every
    challenge but [MachineToken], in the order received, a code challenge
    with its message; it queues one poll for each confirmation, and the
    cancellation flag is reset. *)
Theorem processing_left_to_user (m : Machine World)
  (r : StartAuthSessionWithCredentialsResponse) :
  _startSessionResponse (this m) = Some r ->
  Forall (left_to_user (this m) r) (allowedConfirmations r) ->
  surfaced (allowedConfirmations r) <> [] ->
  fst (_processStartSessionResponse enums handler m)
  = Return {| actionRequired := true;
              validActions := Some (surfaced (allowedConfirmations r)) |}
  /\ calls (snd (_processStartSessionResponse enums handler m)) = calls m
  /\ immediates (snd (_processStartSessionResponse enums handler m))
     = immediates m + polls_queued (allowedConfirmations r)
  /\ _pollingCanceled (this (snd (_processStartSessionResponse enums handler m)))
     = Some false.
Proof.
  intros Hr Hall Hsome.
  rewrite (_processStartSessionResponse_run m Hr).
  destruct (@process_confirmations_local _ enums handler r
              (allowedConfirmations r) [] (polling_reopened m) Hr Hall)
    as (m' & Hloop & Ht & Hc & _ & _ & _ & Him).
  rewrite Hloop. simpl.
  destruct (surfaced (allowedConfirmations r)) as [|a l] eqn:E;
    [congruence|].
  simpl. repeat split; try assumption. rewrite Ht. reflexivity.
Qed.

(** X9.  A [None] challenge ends the processing at once, reporting that no
    action is required and queuing a poll: the actions collected from the
    challenges before it are dropped, and the challenges after it are not
    looked at, not even one of an unknown type. *)
Theorem processing_none_short_circuits (m : Machine World)
  (r : StartAuthSessionWithCredentialsResponse)
  (pre post : list AllowedConfirmation) (i : AllowedConfirmation) :
  _startSessionResponse (this m) = Some r ->
  allowedConfirmations r = pre ++ i :: post ->
  Forall (left_to_user (this m) r) pre ->
  type i = EAuthSessionGuardType.None ->
  fst (_processStartSessionResponse enums handler m)
  = Return {| actionRequired := false; validActions := Datatypes.None |}
  /\ calls (snd (_processStartSessionResponse enums handler m)) = calls m
  /\ immediates (snd (_processStartSessionResponse enums handler m))
     = immediates m + polls_queued pre + 1.
Proof.
  intros Hr Hlist Hpre Hi.
  rewrite (_processStartSessionResponse_run m Hr), Hlist.
  rewrite process_confirmations_app.
  destruct (@process_confirmations_local _ enums handler r pre []
              (polling_reopened m) Hr Hpre)
    as (m' & Hloop & Ht & Hc & _ & _ & _ & Him).
  rewrite Hloop. simpl. unfold bind at 1, process_confirmation.
  rewrite Hi. unfold emit, setImmediate_doPoll. run_monad.
  repeat split; try assumption. rewrite Him. simpl. lia.
Qed.

(** X10.  A challenge of a type that the code does not know makes the
    processing throw the error that names the type, once the loop reaches
    it; the polls queued for the confirmations before it stay queued. *)
Theorem processing_unknown_guard (m : Machine World)
  (r : StartAuthSessionWithCredentialsResponse)
  (pre post : list AllowedConfirmation) (i : AllowedConfirmation)
  (value : Z) :
  _startSessionResponse (this m) = Some r ->
  allowedConfirmations r = pre ++ i :: post ->
  Forall (left_to_user (this m) r) pre ->
  type i = EAuthSessionGuardType.Other value ->
  fst (_processStartSessionResponse enums handler m)
  = Throw (new_Error (msg_unknown_guard ++ guardTypeString enums value))
  /\ calls (snd (_processStartSessionResponse enums handler m)) = calls m
  /\ immediates (snd (_processStartSessionResponse enums handler m))
     = immediates m + polls_queued pre.
Proof.
  intros Hr Hlist Hpre Hi.
  rewrite (_processStartSessionResponse_run m Hr), Hlist.
  rewrite process_confirmations_app.
  destruct (@process_confirmations_local _ enums handler r pre []
              (polling_reopened m) Hr Hpre)
    as (m' & Hloop & Ht & Hc & _ & _ & _ & Him).
  rewrite Hloop. simpl. unfold bind at 1, process_confirmation.
  rewrite Hi. run_monad.
  repeat split; try assumption.
Qed.

(** X12.  [submitSteamGuardCode] throws before sending anything when the
    session has not been started, and when the session-start response asks
    for neither an email code nor a device code.  Otherwise it sends one
    request, of type [EmailCode] whenever [EmailCode] is allowed and of
    type [DeviceCode] only when it is not; the answer of the server is the
    outcome of the call, and a poll is queued only when the server
    accepts. *)
Theorem submitSteamGuardCode_contract (authCode : string)
  (m : Machine World) :
  (_startSessionResponse (this m) = Datatypes.None ->
   submitSteamGuardCode handler authCode m
   = (Throw (new_Error msg_not_started), m))
  /\ (forall r,
         _startSessionResponse (this m) = Some r ->
         some_confirmation EAuthSessionGuardType.EmailCode r = false ->
         some_confirmation EAuthSessionGuardType.DeviceCode r = false ->
         fst (submitSteamGuardCode handler authCode m)
         = Throw (new_Error msg_no_guard_needed)
         /\ calls (snd (submitSteamGuardCode handler authCode m)) = calls m
         /\ immediates (snd (submitSteamGuardCode handler authCode m))
            = immediates m)
  /\ (forall r,
         _startSessionResponse (this m) = Some r ->
         some_confirmation EAuthSessionGuardType.EmailCode r
         || some_confirmation EAuthSessionGuardType.DeviceCode r = true ->
         calls (snd (submitSteamGuardCode handler authCode m))
         = calls m
           ++ [Call_submitSteamGuardCode
                 {| submit_session := r;
                    authCode := authCode;
                    authCodeType :=
                      if some_confirmation EAuthSessionGuardType.EmailCode r
                      then EAuthSessionGuardType.EmailCode
                      else EAuthSessionGuardType.DeviceCode |}]
         /\ fst (submitSteamGuardCode handler authCode m)
            = fst (h_submitSteamGuardCode handler (submit_params r authCode)
                     (world m))
         /\ immediates (snd (submitSteamGuardCode handler authCode m))
            = match fst (h_submitSteamGuardCode handler
                           (submit_params r authCode) (world m)) with
              | Return _ => S (immediates m)
              | Throw _ => immediates m
              end).
Proof.
  split; [|split].
  - intros Hr. unfold submitSteamGuardCode, _verifyStarted. run_monad.
    rewrite Hr. reflexivity.
  - intros r Hr He Hd.
    unfold submitSteamGuardCode, _verifyStarted, the_startSessionResponse,
      emit.
    run_monad. rewrite Hr. simpl. rewrite Hr. simpl. rewrite He, Hd. simpl.
    repeat split.
  - intros r Hr Hneeds. rewrite (submitSteamGuardCode_sent handler _ _ Hr Hneeds).
    destruct (h_submitSteamGuardCode handler (submit_params r authCode)
                (world m)) as [[[]|ex] w]; simpl; repeat split.
Qed.

(** X13.  A session start that fails, at the encryption of the password or
    at the start request, rejects with the failure of the server, emits
    nothing and queues no poll.  The session-start response recorded by an
    earlier attempt and the cancellation flag stay as they were, while the
    guard code and the machine token of the failed attempt are already
    stored and the remote-interaction flag is already reset. *)
Theorem startWithCredentials_failure
  (details : StartLoginSessionWithCredentialsDetails) (m : Machine World)
  (ex : Error) :
  (exists w,
      h_encryptPassword handler (details_accountName details)
        (details_password details) (world m) = (Throw ex, w))
  \/ (exists enc w1 w2,
         h_encryptPassword handler (details_accountName details)
           (details_password details) (world m) = (Return enc, w1)
         /\ h_startSessionWithCredentials handler
              (start_params enums details enc (this m)) w1
            = (Throw ex, w2)) ->
  fst (startWithCredentials enums handler details m) = Throw ex
  /\ _startSessionResponse
       (this (snd (startWithCredentials enums handler details m)))
     = _startSessionResponse (this m)
  /\ _pollingCanceled
       (this (snd (startWithCredentials enums handler details m)))
     = _pollingCanceled (this m)
  /\ immediates (snd (startWithCredentials enums handler details m))
     = immediates m
  /\ emitted (snd (startWithCredentials enums handler details m))
     = emitted m
  /\ _steamGuardCode
       (this (snd (startWithCredentials enums handler details m)))
     = details_steamGuardCode details
  /\ _steamGuardMachineToken
       (this (snd (startWithCredentials enums handler details m)))
     = details_steamGuardMachineToken details
  /\ _hadRemoteInteraction
       (this (snd (startWithCredentials enums handler details m)))
     = Some false.
Proof.
  intros [(w & Henc) | (enc & w1 & w2 & Henc & Hstart)];
    unfold startWithCredentials, on_session, ask; run_monad;
    rewrite Henc; simpl.
  - repeat split.
  - unfold start_params, _defaultWebsiteId in *. simpl.
    rewrite Hstart. simpl. repeat split.
Qed.

End Processing.

(** A device confirmation and a device code, no guard code supplied: both
    are listed, one poll is queued. *)
Lemma processing_left_to_user_witness :
  fst (_processStartSessionResponse Doubles.enums
         (Doubles.confirming Doubles.alice)
         (Doubles.started_with Scenes.device_or_code))
  = Return {| actionRequired := true;
              validActions :=
                Some (surfaced (allowedConfirmations Scenes.device_or_code)) |}
  /\ calls (snd (_processStartSessionResponse Doubles.enums
                   (Doubles.confirming Doubles.alice)
                   (Doubles.started_with Scenes.device_or_code)))
     = []
  /\ immediates (snd (_processStartSessionResponse Doubles.enums
                        (Doubles.confirming Doubles.alice)
                        (Doubles.started_with Scenes.device_or_code)))
     = 1
  /\ _pollingCanceled
       (this (snd (_processStartSessionResponse Doubles.enums
                     (Doubles.confirming Doubles.alice)
                     (Doubles.started_with Scenes.device_or_code))))
     = Some false.
Proof.
  apply (@processing_left_to_user unit Doubles.enums
           (Doubles.confirming Doubles.alice)
           (Doubles.started_with Scenes.device_or_code)
           Scenes.device_or_code eq_refl).
  - apply Forall_cons; [left; reflexivity|].
    apply Forall_cons; [|apply Forall_nil].
    right. repeat split.
  - discriminate.
Defined.

(** A device confirmation, then [None], then an unknown type. *)
Lemma processing_none_short_circuits_witness :
  fst (_processStartSessionResponse Doubles.enums
         (Doubles.confirming Doubles.alice)
         (Doubles.started_with Scenes.none_in_the_middle))
  = Return {| actionRequired := false; validActions := Datatypes.None |}
  /\ calls (snd (_processStartSessionResponse Doubles.enums
                   (Doubles.confirming Doubles.alice)
                   (Doubles.started_with Scenes.none_in_the_middle)))
     = []
  /\ immediates (snd (_processStartSessionResponse Doubles.enums
                        (Doubles.confirming Doubles.alice)
                        (Doubles.started_with Scenes.none_in_the_middle)))
     = 2.
Proof.
  apply (@processing_none_short_circuits unit Doubles.enums
           (Doubles.confirming Doubles.alice)
           (Doubles.started_with Scenes.none_in_the_middle)
           Scenes.none_in_the_middle
           [Doubles.confirmation EAuthSessionGuardType.DeviceConfirmation]
           [Doubles.confirmation (EAuthSessionGuardType.Other 99)]
           (Doubles.confirmation EAuthSessionGuardType.None)
           eq_refl eq_refl).
  - repeat constructor.
  - reflexivity.
Defined.

(** An email confirmation, then an unknown type. *)
Lemma processing_unknown_guard_witness :
  fst (_processStartSessionResponse Doubles.enums
         (Doubles.confirming Doubles.alice)
         (Doubles.started_with Scenes.unknown_in_the_middle))
  = Throw (new_Error (msg_unknown_guard ++ "?"))
  /\ calls (snd (_processStartSessionResponse Doubles.enums
                   (Doubles.confirming Doubles.alice)
                   (Doubles.started_with Scenes.unknown_in_the_middle)))
     = []
  /\ immediates (snd (_processStartSessionResponse Doubles.enums
                        (Doubles.confirming Doubles.alice)
                        (Doubles.started_with Scenes.unknown_in_the_middle)))
     = 1.
Proof.
  apply (@processing_unknown_guard unit Doubles.enums
           (Doubles.confirming Doubles.alice)
           (Doubles.started_with Scenes.unknown_in_the_middle)
           Scenes.unknown_in_the_middle
           [Doubles.confirmation EAuthSessionGuardType.EmailConfirmation]
           [Doubles.confirmation EAuthSessionGuardType.None]
           (Doubles.confirmation (EAuthSessionGuardType.Other 99))
           99 eq_refl eq_refl).
  - repeat constructor.
  - reflexivity.
Defined.

(** A code for a session that allows an email code and a machine token:
    the request is of type [EmailCode]. *)
Lemma submitSteamGuardCode_contract_witness :
  calls (snd (submitSteamGuardCode
                (Doubles.confirming Doubles.alice) "12345"
                (Doubles.started_with Doubles.email_and_machine)))
  = [Call_submitSteamGuardCode
       {| submit_session := Doubles.email_and_machine;
          authCode := "12345";
          authCodeType := EAuthSessionGuardType.EmailCode |}]
  /\ fst (submitSteamGuardCode
            (Doubles.confirming Doubles.alice) "12345"
            (Doubles.started_with Doubles.email_and_machine))
     = Return tt
  /\ immediates (snd (submitSteamGuardCode
                        (Doubles.confirming Doubles.alice) "12345"
                        (Doubles.started_with Doubles.email_and_machine)))
     = 1.
Proof.
  apply (proj2 (proj2 (@submitSteamGuardCode_contract unit
                         (Doubles.confirming Doubles.alice) "12345"
                         (Doubles.started_with Doubles.email_and_machine)))
           Doubles.email_and_machine eq_refl eq_refl).
Defined.

(** A server that refuses the start request, for a session that holds the
    response of an earlier start. *)
Lemma startWithCredentials_failure_witness :
  fst (startWithCredentials Doubles.enums Scenes.refusing_start
         (Doubles.login (Some "12345"))
         (Doubles.started_with Scenes.device_or_code))
  = Throw (Doubles.rejection (EResult.Other 5))
  /\ _startSessionResponse
       (this (snd (startWithCredentials Doubles.enums Scenes.refusing_start
                     (Doubles.login (Some "12345"))
                     (Doubles.started_with Scenes.device_or_code))))
     = Some Scenes.device_or_code
  /\ _steamGuardCode
       (this (snd (startWithCredentials Doubles.enums Scenes.refusing_start
                     (Doubles.login (Some "12345"))
                     (Doubles.started_with Scenes.device_or_code))))
     = Some "12345".
Proof.
  destruct (@startWithCredentials_failure unit Doubles.enums
              Scenes.refusing_start (Doubles.login (Some "12345"))
              (Doubles.started_with Scenes.device_or_code)
              (Doubles.rejection (EResult.Other 5)))
    as (Hfst & Hstart & _ & _ & _ & Hcode & _).
  - right. exists "encrypted", tt, tt. split; reflexivity.
  - exact (conj Hfst (conj Hstart Hcode)).
Defined.

Section Ticks.
Context {World : Type}.
Variable helpers : Helpers.

(** X14.  A tick that is not canceled and has not run out of time sends
    exactly one poll request, for the session-start response as it is
    recorded then, and waits for its answer.  It schedules nothing, emits
    [polling] only when it is the first tick, and the timer of the session,
    if one is recorded, is not pending any more. *)
Theorem tick_sends_one_poll (m : Machine World) (clock_start clock_now : Z) :
  truthy_bool (_pollingCanceled (this m)) = false ->
  (clock_now - polling_start clock_start (this m) < loginTimeout (this m))%Z ->
  let m' := snd (_doPoll_begin clock_start clock_now m) in
  fst (_doPoll_begin clock_start clock_now m) = Return tt
  /\ calls m'
     = calls m ++ [Call_pollLoginStatus (_startSessionResponse (this m))]
  /\ inflight m' = S (inflight m)
  /\ emitted m'
     = emitted m
       ++ (if truthy_number (_pollingStartedTime (this m)) then []
           else [Ev_polling])
  /\ immediates m' = immediates m
  /\ length (timers m') = length (timers m)
  /\ (forall h, _pollTimer (this m) = Some h -> timer_pending h m' = false)
  /\ _pollingCanceled (this m') = _pollingCanceled (this m).
Proof.
  intros Hc Hlt m'. subst m'.
  assert (Hgeb : (clock_now - polling_start clock_start (this m)
                  >=? loginTimeout (this m))%Z = false).
  { destruct (Z.geb_spec (clock_now - polling_start clock_start (this m))
                (loginTimeout (this m))); [lia | reflexivity]. }
  unfold _doPoll_begin, cancelLoginAttempt, clearTimeout, emit, on_session.
  run_monad. rewrite Hc.
  destruct (truthy_number (_pollingStartedTime (this m))) eqn:Hs.
  - destruct (_pollTimer (this m)) as [h|] eqn:Hh; simpl;
      rewrite Hs; simpl; rewrite Hgeb; simpl; rewrite ?Hh; simpl;
      repeat split; try reflexivity;
      try (rewrite app_nil_r; reflexivity);
      try (rewrite !clear_timer_length; reflexivity);
      try (intros h' Hh'; try discriminate;
           injection Hh' as <-; apply clear_timer_clears).
  - rewrite (polling_start_fresh _ _ Hs) in Hgeb.
    destruct (_pollTimer (this m)) as [h|] eqn:Hh; simpl;
      rewrite Hs; simpl; rewrite polling_start_recorded; simpl;
      rewrite Hgeb; simpl; rewrite ?Hh; simpl;
      repeat split; try reflexivity;
      try (rewrite !clear_timer_length; reflexivity);
      try (intros h' Hh'; try discriminate;
           injection Hh' as <-; apply clear_timer_clears).
Qed.

(** X15.  The answer of a poll request makes the tick schedule the next
    tick exactly when it arrives without failure, carries no access token
    and the attempt has not been canceled.  The timer is then the only one
    added, it waits [pollInterval] seconds of the recorded response, and
    its handle becomes the timer of the session; in every other case the
    timers stay as they are.  A failure of the request is emitted as
    [error] and ends the polling. *)
Theorem poll_answer_reschedules (answer : Result PollResponse)
  (m : Machine World) (r : StartAuthSessionWithCredentialsResponse) :
  _startSessionResponse (this m) = Some r ->
  let m' := snd (_doPoll_resume helpers answer m) in
  timers m'
  = timers m
    ++ (if reschedules answer m then [((pollInterval r * 1000)%Z, Pending)]
        else [])
  /\ (reschedules answer m = true ->
      fst (_doPoll_resume helpers answer m) = Return tt
      /\ _pollTimer (this m') = Some (length (timers m))
      /\ timer_pending (length (timers m)) m' = true
      /\ _accessToken (this m') = _accessToken (this m)
      /\ _refreshToken (this m') = _refreshToken (this m))
  /\ (forall ex, answer = Throw ex ->
                 fst (_doPoll_resume helpers answer m) = Return tt
                 /\ emitted m' = emitted m ++ [Ev_error ex]
                 /\ this m' = this m).
Proof.
  intros Hr m'. subst m'.
  destruct answer as [p|ex].
  2:{ simpl. unfold emit. run_monad. rewrite app_nil_r.
      split; [reflexivity|]. split; [discriminate|].
      intros ex' [= <-]. repeat split. }
  assert (Hlast : forall (l : list (Z * TimerStatus)) x,
             nth_error (l ++ [x]) (length l) = Some x).
  { intros l x. rewrite nth_error_app2, Nat.sub_diag; [reflexivity | lia]. }
  unfold _doPoll_resume, the_startSessionResponse, emit, on_session,
    setTimeout_doPoll, reschedules, timer_pending.
  run_monad. rewrite Hr. simpl.
  destruct (truthy_bool (hadRemoteInteraction p)
            && negb (truthy_bool (_hadRemoteInteraction (this m)))); simpl;
    (destruct (truthy_string (poll_accessToken p)) eqn:Htok; simpl;
     [ match goal with
       | |- context [set_accessToken helpers ?t ?s] =>
           destruct (set_accessToken_cases helpers t s) as [[e ->] | ->];
           simpl
       end;
       [ rewrite app_nil_r;
         split; [reflexivity|]; split; discriminate
       | match goal with
         | |- context [set_refreshToken helpers ?t ?s] =>
             destruct (set_refreshToken_cases helpers t s) as [[e ->] | ->];
             simpl
         end;
         (rewrite app_nil_r; split; [reflexivity|]; split; discriminate) ]
     | destruct (truthy_bool (_pollingCanceled (this m))) eqn:Hc; simpl;
       [ rewrite app_nil_r; split; [reflexivity|]; split; discriminate
       | split; [reflexivity|]; split; [|discriminate];
         intros _; rewrite Hlast; repeat split ] ]).
Qed.

End Ticks.

Section PollAnswers.
Context {World : Type}.
Variable helpers : Helpers.
Variable enums : Enums.
Variable handler : AuthenticationClient World.

Lemma remoteInteractions_snoc (l : list Event) (e : Event) :
  remoteInteractions (l ++ [e])
  = remoteInteractions l + (if is_remoteInteraction e then 1 else 0).
Proof.
  unfold remoteInteractions. rewrite filter_app, length_app. simpl.
  destruct (is_remoteInteraction e); reflexivity.
Qed.

Lemma remote_step_same (m m' : Machine World) :
  remoteInteractions (emitted m') = remoteInteractions (emitted m) ->
  _hadRemoteInteraction (this m') = _hadRemoteInteraction (this m) ->
  remote_step m m'.
Proof.
  intros He Hf. unfold remote_step, remote_budget. rewrite He, Hf. lia.
Qed.

Lemma remote_step_trans (m1 m2 m3 : Machine World) :
  remote_step m1 m2 -> remote_step m2 m3 -> remote_step m1 m3.
Proof. unfold remote_step. intros [] []. lia. Qed.

Lemma remote_step__doPoll_begin (clock_start clock_now : Z)
  (m : Machine World) :
  remote_step m (snd (_doPoll_begin clock_start clock_now m)).
Proof.
  apply remote_step_same;
    unfold _doPoll_begin, cancelLoginAttempt, clearTimeout, emit, on_session;
    run_monad;
    destruct (truthy_bool (_pollingCanceled (this m))); simpl;
    try reflexivity;
    destruct (_pollTimer (this m)) as [h|] eqn:Hh; simpl;
    destruct (truthy_number (_pollingStartedTime (this m))); simpl;
    match goal with
    | |- context [(?a >=? ?b)%Z] => destruct (a >=? b)%Z
    end; simpl; rewrite ?Hh; simpl;
    rewrite ?remoteInteractions_snoc; simpl; rewrite ?Nat.add_0_r;
    reflexivity.
Qed.

Lemma remote_step__doPoll_resume (answer : Result PollResponse)
  (m : Machine World) :
  remote_step m (snd (_doPoll_resume helpers answer m)).
Proof.
  destruct answer as [p|ex].
  2:{ apply remote_step_same; simpl; unfold emit; run_monad;
      rewrite ?remoteInteractions_snoc; simpl; rewrite ?Nat.add_0_r;
      reflexivity. }
  unfold remote_step, remote_budget.
  unfold _doPoll_resume, the_startSessionResponse, emit, on_session,
    setTimeout_doPoll.
  run_monad.
  destruct (_startSessionResponse (this m)) as [r|]; simpl;
    [|rewrite ?remoteInteractions_snoc; simpl; lia].
  destruct (truthy_bool (hadRemoteInteraction p)); simpl;
    destruct (truthy_bool (_hadRemoteInteraction (this m))) eqn:Hf; simpl;
    (destruct (truthy_string (poll_accessToken p)); simpl;
     [ match goal with
       | |- context [set_accessToken helpers ?t ?s] =>
           destruct (set_accessToken_cases helpers t s) as [[e ->] | ->];
           simpl
       end;
       [ rewrite ?remoteInteractions_snoc; simpl; rewrite ?Hf; simpl; lia
       | match goal with
         | |- context [set_refreshToken helpers ?t ?s] =>
             destruct (set_refreshToken_cases helpers t s) as [[e ->] | ->];
             simpl
         end;
         (rewrite ?remoteInteractions_snoc; simpl; rewrite ?Hf; simpl; lia) ]
     | destruct (truthy_bool (_pollingCanceled (this m))); simpl;
       rewrite ?remoteInteractions_snoc; simpl; rewrite ?Hf; simpl; lia ]).
Qed.

Lemma remote_step_submitSteamGuardCode (authCode : string)
  (m : Machine World) :
  remote_step m (snd (submitSteamGuardCode handler authCode m)).
Proof.
  apply remote_step_same;
    unfold submitSteamGuardCode, _verifyStarted, the_startSessionResponse,
      emit, ask, setImmediate_doPoll;
    run_monad;
    destruct (_startSessionResponse (this m)) as [r|] eqn:Hr; simpl;
    try reflexivity; rewrite ?Hr; simpl;
    destruct (negb (some_confirmation EAuthSessionGuardType.EmailCode r)
              && negb (some_confirmation EAuthSessionGuardType.DeviceCode r));
    simpl; rewrite ?remoteInteractions_snoc; simpl; rewrite ?Nat.add_0_r;
    try reflexivity;
    destruct (h_submitSteamGuardCode handler (submit_params r authCode)
                (world m)) as [[[]|ex] w]; simpl;
    rewrite ?remoteInteractions_snoc; simpl; rewrite ?Nat.add_0_r;
    reflexivity.
Qed.

Lemma remote_step_debug (m m1 : Machine World) (msg : string) :
  remote_step m m1 ->
  remote_step m (with_emitted (emitted m1 ++ [Ev_debug msg]) m1).
Proof.
  unfold remote_step, remote_budget. simpl.
  rewrite remoteInteractions_snoc. simpl. rewrite Nat.add_0_r.
  intros H. exact H.
Qed.

Lemma remote_step_perform (t : Task) (m m' : Machine World) :
  (forall details,
      t <> T_startWithCredentials details
      /\ t <> T_call_startWithCredentials details) ->
  perform helpers enums handler t m = Some m' ->
  remote_step m m'.
Proof.
  intros Hnot Hperform.
  assert (Hrefl : remote_step m m) by (apply remote_step_same; reflexivity).
  destruct t as [ms|name|token|token|details|authCode| |c1 c2|h c1 c2|answer
                |details|authCode|k];
    simpl in Hperform.
  - injection Hperform as <-. apply remote_step_same; reflexivity.
  - injection Hperform as <-. apply remote_step_same; reflexivity.
  - injection Hperform as <-. unfold on_session.
    destruct (set_accessToken_cases helpers token (this m))
      as [[e ->] | ->]; apply remote_step_same; reflexivity.
  - injection Hperform as <-. unfold on_session.
    destruct (set_refreshToken_cases helpers token (this m))
      as [[e ->] | ->]; apply remote_step_same; reflexivity.
  - exfalso. exact (proj1 (Hnot details) eq_refl).
  - injection Hperform as <-. apply remote_step_submitSteamGuardCode.
  - injection Hperform as <-.
    apply remote_step_same;
      unfold cancelLoginAttempt, clearTimeout, on_session; run_monad;
      destruct (_pollTimer (this m)); reflexivity.
  - destruct (immediates m) as [|n]; [discriminate|].
    injection Hperform as <-.
    apply (remote_step__doPoll_begin c1 c2 (with_immediates n m)).
  - destruct (timer_pending h m); [|discriminate].
    injection Hperform as <-.
    apply (remote_step__doPoll_begin c1 c2
             (with_timers (fire_timer h (timers m)) m)).
  - destruct (inflight m) as [|n]; [discriminate|].
    injection Hperform as <-.
    apply (remote_step__doPoll_resume answer (with_inflight n m)).
  - exfalso. exact (proj2 (Hnot details) eq_refl).
  - injection Hperform as <-.
    apply (@keeps_suspend _ (remote_step m)); try exact Hrefl;
      try (intros; assumption).
    apply keeps_submitSteamGuardCode_called; try (intros; assumption).
    intros. apply remote_step_debug. assumption.
  - destruct (nth_error (suspended m) k) as [w|]; [|discriminate].
    injection Hperform as <-.
    apply (@keeps_suspend _ (remote_step m)); try exact Hrefl;
      try (intros; assumption).
    destruct w as [d|q|q c|o pt|q pt|b pt]; cbn [resume].
    + apply keeps_encryptPassword_settles; intros; assumption.
    + apply keeps_startSession_settles; try (intros; assumption).
      intros. apply remote_step_debug. assumption.
    + apply keeps_submit_settles; intros; assumption.
    + apply keeps_submitted_resumes; try (intros; assumption).
    + apply keeps_check_settles; intros; assumption.
    + apply keeps_attempt_settles; try (intros; assumption).
      intros. apply remote_step_debug. assumption.
Qed.

(** X17.  As long as [startWithCredentials] is not called again,
    [remoteInteraction] is emitted at most once more, whatever the caller
    does, however many poll answers report a remote interaction and
    whatever suspended calls go on in between, those of an earlier
    [startWithCredentials] included; once it has been emitted for the
    attempt, it is never emitted again. *)
Theorem remoteInteraction_at_most_once (ts : list Task)
  (m m' : Machine World) :
  Forall (fun t => forall details,
              t <> T_startWithCredentials details
              /\ t <> T_call_startWithCredentials details) ts ->
  run helpers enums handler ts m = Some m' ->
  remoteInteractions (emitted m) <= remoteInteractions (emitted m')
  /\ remoteInteractions (emitted m') <= remoteInteractions (emitted m) + 1
  /\ (truthy_bool (_hadRemoteInteraction (this m)) = true ->
      remoteInteractions (emitted m') = remoteInteractions (emitted m)).
Proof.
  intros Hts Hrun.
  assert (Hstep : remote_step m m').
  { revert m Hrun. induction Hts as [|t ts Ht Hts IH]; intros m Hrun.
    - injection Hrun as <-. apply remote_step_same; reflexivity.
    - simpl in Hrun.
      destruct (perform helpers enums handler t m) as [m1|] eqn:Hp;
        [|discriminate].
      apply remote_step_trans with m1;
        [exact (@remote_step_perform t m m1 Ht Hp) | exact (IH m1 Hrun)]. }
  destruct Hstep as [Hmono Hbudget]. unfold remote_budget in Hbudget.
  split; [exact Hmono|]. split.
  - destruct (truthy_bool (_hadRemoteInteraction (this m)));
      destruct (truthy_bool (_hadRemoteInteraction (this m'))); lia.
  - intros Hf. rewrite Hf in Hbudget.
    destruct (truthy_bool (_hadRemoteInteraction (this m'))); lia.
Qed.

End PollAnswers.

(** The first tick of a started session. *)
Lemma tick_sends_one_poll_witness :
  calls (snd (_doPoll_begin 1000 1000
                (Doubles.started_with Scenes.device_or_code)))
  = [Call_pollLoginStatus (Some Scenes.device_or_code)]
  /\ inflight (snd (_doPoll_begin 1000 1000
                      (Doubles.started_with Scenes.device_or_code)))
     = 1
  /\ emitted (snd (_doPoll_begin 1000 1000
                     (Doubles.started_with Scenes.device_or_code)))
     = [Ev_polling].
Proof.
  destruct (@tick_sends_one_poll unit
              (Doubles.started_with Scenes.device_or_code) 1000 1000)
    as (_ & Hcalls & Hinflight & Hemitted & _).
  - reflexivity.
  - vm_compute. reflexivity.
  - exact (conj Hcalls (conj Hinflight Hemitted)).
Defined.

(** The login is not confirmed yet: the next tick is due in five
    seconds. *)
Lemma poll_answer_reschedules_witness :
  timers (snd (_doPoll_resume Doubles.helpers (Return Doubles.not_yet)
                 (Doubles.started_with Scenes.device_or_code)))
  = [(5000%Z, Pending)].
Proof.
  destruct (@poll_answer_reschedules unit Doubles.helpers
              (Return Doubles.not_yet)
              (Doubles.started_with Scenes.device_or_code)
              Scenes.device_or_code eq_refl)
    as (Htimers & _).
  exact Htimers.
Defined.

(** Two poll answers report the remote interaction; the event is emitted
    once. *)
Lemma remoteInteraction_at_most_once_witness :
  remoteInteractions (emitted Scenes.just_started)
  <= remoteInteractions (emitted Scenes.after_seen_twice)
  /\ remoteInteractions (emitted Scenes.after_seen_twice)
     <= remoteInteractions (emitted Scenes.just_started) + 1.
Proof.
  destruct (@remoteInteraction_at_most_once unit Doubles.helpers
              Doubles.enums (Doubles.confirming Doubles.alice)
              Scenes.seen_twice Scenes.just_started Scenes.after_seen_twice)
    as (Hmono & Hmost & _).
  - repeat (apply Forall_cons; [intros; split; discriminate|]).
    apply Forall_nil.
  - vm_compute. reflexivity.
  - exact (conj Hmono Hmost).
Defined.

(** *** Web cookies *)

Lemma prefix_cons (a b : ascii) (p s : string) :
  String.prefix (String a p) (String b s) = true ->
  a = b /\ String.prefix p s = true.
Proof.
  simpl. destruct (ascii_dec a b) as [->|]; [|discriminate].
  intros H. split; [reflexivity | exact H].
Qed.

Lemma prefix_cons_same (a : ascii) (p s : string) :
  String.prefix p s = true ->
  String.prefix (String a p) (String a s) = true.
Proof.
  intros H. simpl. destruct (ascii_dec a a); [exact H | congruence].
Qed.

Lemma prefix_before_semicolon (p : string) :
  occurs ";" p = false ->
  forall s, String.prefix p s = true ->
            String.prefix p (before_semicolon s) = true.
Proof.
  induction p as [|a p IH]; intros Hp s Hs.
  - destruct (before_semicolon s); reflexivity.
  - cbn [occurs] in Hp. apply orb_false_elim in Hp. destruct Hp as [Ha Hp].
    destruct s as [|b s]; [discriminate|].
    apply prefix_cons in Hs. destruct Hs as [<- Hs].
    cbn [before_semicolon]. rewrite Ascii.eqb_sym, Ha.
    apply prefix_cons_same. apply IH; assumption.
Qed.

Lemma prefix_trim_start (a : ascii) (p s : string) :
  is_white_space a = false ->
  String.prefix (String a p) s = true ->
  trim_start s = s.
Proof.
  intros Ha Hs. destruct s as [|b s]; [discriminate|].
  apply prefix_cons in Hs. destruct Hs as [<- _].
  simpl. rewrite Ha. reflexivity.
Qed.

Lemma prefix_empty (p : string) :
  String.prefix p "" = true -> p = ""%string.
Proof. destruct p; [reflexivity | discriminate]. Qed.

Lemma prefix_trim_end (p : string) :
  (forall a, occurs a p = true -> is_white_space a = false) ->
  forall s, String.prefix p s = true ->
            String.prefix p (trim_end s) = true.
Proof.
  induction p as [|a p IH]; intros Hp s Hs.
  - destruct (trim_end s); reflexivity.
  - destruct s as [|b s]; [discriminate|].
    apply prefix_cons in Hs. destruct Hs as [<- Hs].
    assert (Ha : is_white_space a = false)
      by (apply Hp; cbn [occurs]; rewrite Ascii.eqb_refl; reflexivity).
    assert (Hrest : String.prefix p (trim_end s) = true).
    { apply IH; [|exact Hs]. intros c Hc. apply Hp. cbn [occurs].
      rewrite Hc. apply orb_true_r. }
    cbn [trim_end]. destruct (trim_end s) as [|c rest] eqn:E.
    + rewrite Ha. apply prefix_empty in Hrest. subst p.
      apply prefix_cons_same. reflexivity.
    + apply prefix_cons_same. exact Hrest.
Qed.

Lemma occurs_before_semicolon (s : string) :
  occurs ";" (before_semicolon s) = false.
Proof.
  induction s as [|a s IH]; [reflexivity|]. cbn [before_semicolon].
  destruct (Ascii.eqb a ";") eqn:E; [reflexivity|].
  cbn [occurs]. rewrite Ascii.eqb_sym, E. exact IH.
Qed.

Lemma occurs_trim_start (a : ascii) (s : string) :
  occurs a s = false -> occurs a (trim_start s) = false.
Proof.
  induction s as [|b s IH]; [reflexivity|]. intros H. cbn [trim_start].
  destruct (is_white_space b); [|exact H].
  cbn [occurs] in H. apply orb_false_elim in H. apply IH, H.
Qed.

Lemma occurs_trim_end (a : ascii) (s : string) :
  occurs a s = false -> occurs a (trim_end s) = false.
Proof.
  induction s as [|b s IH]; [reflexivity|]. intros H.
  cbn [occurs] in H. apply orb_false_elim in H. destruct H as [Hb Hs].
  cbn [trim_end]. destruct (trim_end s) as [|c rest].
  - destruct (is_white_space b); cbn [occurs]; [reflexivity|].
    rewrite Hb. reflexivity.
  - change (occurs a (String b (String c rest)))
      with (Ascii.eqb a b || occurs a (String c rest)).
    rewrite Hb. exact (IH Hs).
Qed.

(** A cookie as [getWebCookies] hands it out keeps the marker of the login
    cookie, and holds no attribute. *)
Lemma cookie_keeps_marker (c : string) :
  String.prefix "steamLoginSecure=" c = true ->
  String.prefix "steamLoginSecure=" (trim (before_semicolon c)) = true.
Proof.
  intros H. unfold trim.
  apply prefix_before_semicolon in H; [|reflexivity].
  rewrite (prefix_trim_start "s" "teamLoginSecure=" _ eq_refl H).
  apply prefix_trim_end; [|exact H].
  intros a Ha. cbn [occurs] in Ha.
  repeat (apply orb_prop in Ha;
          destruct Ha as [Ha|Ha];
          [apply Ascii.eqb_eq in Ha; subst a; reflexivity|]).
  discriminate Ha.
Qed.

Lemma cookie_without_attributes (c : string) :
  occurs ";" (trim (before_semicolon c)) = false.
Proof.
  unfold trim. apply occurs_trim_end, occurs_trim_start,
    occurs_before_semicolon.
Qed.

Lemma transfer_fulfilled (answer : Result HttpResponse)
  (cookies : list string) :
  transfer answer = Some (Return cookies) ->
  exists res hs,
    answer = Return res
    /\ headers res = Some {| set_cookie := Some hs |}
    /\ existsb (String.prefix "steamLoginSecure=") hs = true
    /\ cookies = map (fun c => trim (before_semicolon c)) hs.
Proof.
  destruct answer as [res|ex]; [|discriminate]. unfold transfer.
  destruct (headers res) as [[[[|c cs]|]]|] eqn:Hh; try discriminate.
  destruct (existsb (String.prefix "steamLoginSecure=") (c :: cs)) eqn:He;
    [|discriminate].
  intros [= <-]. exists res, (c :: cs). repeat split; assumption.
Qed.

Lemma launch_nth (infos : list TransferInfo)
  (answers : list (Result HttpResponse)) (i : nat) :
  nth_error (launch infos answers) i
  = if Nat.ltb i (length infos)
    then Some (match nth_error answers i with
               | Some answer => transfer answer
               | Datatypes.None => Datatypes.None
               end)
    else Datatypes.None.
Proof.
  unfold launch. rewrite nth_error_map.
  destruct (Nat.ltb_spec i (length infos)) as [Hlt|Hge].
  - rewrite nth_error_seq.
    destruct (Nat.ltb_spec i (length infos)); [reflexivity | lia].
  - rewrite (proj2 (nth_error_None _ _)); [reflexivity|].
    rewrite length_seq. exact Hge.
Qed.

Section Resolved.
Context {A : Type}.
Variable promises : list (option (Result A)).

(** The promise of [promiseAny] is resolved only with the value of one of
    the promises whose turn has come. *)
Lemma resolved_by_a_promise (order : list nat) (v : A) :
  forall p : PromiseAny A,
    outcome (fold_left (settle_next promises) order p) = Some (Resolved v) ->
    outcome p = Some (Resolved v)
    \/ exists i, In i order
                 /\ nth_error promises i = Some (Some (Return v)).
Proof.
  induction order as [|i order IH]; intros p H; simpl in H.
  - left. exact H.
  - destruct (IH _ H) as [Hnow | (j & Hj & Hv)].
    2:{ right. exists j. split; [right; exact Hj | exact Hv]. }
    unfold settle_next in Hnow.
    destruct (nth_error promises i) as [[[w|e]|]|] eqn:Hi; simpl in Hnow;
      try (left; exact Hnow).
    + unfold on_fulfilled, settle in Hnow. simpl in Hnow.
      destruct (outcome p) as [o|] eqn:Ho; simpl in Hnow.
      * left. exact Hnow.
      * injection Hnow as ->. right. exists i.
        split; [left; reflexivity | exact Hi].
    + unfold on_rejected, settle in Hnow. simpl in Hnow.
      destruct (pendingPromises p - 1 =? 0)%Z; simpl in Hnow;
        [|left; exact Hnow].
      destruct (outcome p) as [o|] eqn:Ho; simpl in Hnow;
        [left; exact Hnow | discriminate].
Qed.

End Resolved.

(** X18.  When [getWebCookies] resolves, the session has a refresh token
    and the cookies are those of one transfer that was answered: each is
    the part of a [Set-Cookie] header before its first semicolon, trimmed,
    so none holds an attribute, and the login cookie [steamLoginSecure] is
    among them. *)
Theorem getWebCookies_cookies (eresultError : Z -> Error)
  (finalizeResponse : Result FinalizeResponse)
  (answers : list (Result HttpResponse)) (order : list nat)
  (this : Session) (cookies : list string) :
  getWebCookies eresultError finalizeResponse answers order this
  = Some (Resolved cookies) ->
  truthy_string (_refreshToken this) = true
  /\ (exists i res hs,
         In i order
         /\ nth_error answers i = Some (Return res)
         /\ headers res = Some {| set_cookie := Some hs |}
         /\ cookies = map (fun c => trim (before_semicolon c)) hs)
  /\ existsb (String.prefix "steamLoginSecure=") cookies = true
  /\ Forall (fun c => occurs ";" c = false) cookies.
Proof.
  unfold getWebCookies.
  destruct (truthy_string (_refreshToken this)); [|discriminate].
  cbn [negb].
  destruct finalizeResponse as [res|ex]; [|discriminate].
  destruct (data res) as [d|]; [|discriminate].
  destruct (truthy_number (error d)); [discriminate|].
  destruct (transfer_info d) as [infos|]; [|discriminate].
  unfold promiseAny. intros H.
  apply resolved_by_a_promise in H.
  destruct H as [H | (i & Hi & Hv)]; [discriminate|].
  rewrite launch_nth in Hv.
  destruct (Nat.ltb i (length infos)); [|discriminate].
  destruct (nth_error answers i) as [answer|] eqn:Ha; [|discriminate].
  injection Hv as Hv.
  destruct (transfer_fulfilled _ Hv) as (res' & hs & -> & Hh & Hmark & ->).
  split; [reflexivity|]. split; [|split].
  - exists i, res', hs. repeat split; assumption.
  - apply existsb_exists in Hmark. destruct Hmark as (c & Hc & Hp).
    apply existsb_exists. exists (trim (before_semicolon c)).
    split;
      [ exact (in_map (fun c => trim (before_semicolon c)) hs c Hc)
      | apply cookie_keeps_marker; exact Hp ].
  - apply Forall_forall. intros c Hc. apply in_map_iff in Hc.
    destruct Hc as (h & <- & _). apply cookie_without_attributes.
Qed.

(** X19.  [getWebCookies] stays pending for ever when no transfer succeeds
    and one transfer never settles, its request failing or never being
    answered, even once every other transfer has failed; so it does when
    the login response lists no transfer at all. *)
Theorem getWebCookies_never_settles (eresultError : Z -> Error)
  (this : Session) (d : FinalizeData) (infos : list TransferInfo)
  (answers : list (Result HttpResponse)) (order : list nat) :
  truthy_string (_refreshToken this) = true ->
  truthy_number (error d) = false ->
  transfer_info d = Some infos ->
  settling_order (launch infos answers) order ->
  first_fulfilled (launch infos answers) order = Datatypes.None ->
  infos = []
  \/ (exists i, i < length infos
                /\ (nth_error answers i = Datatypes.None
                    \/ exists ex, nth_error answers i = Some (Throw ex))) ->
  getWebCookies eresultError (Return {| data := Some d |}) answers order this
  = Datatypes.None.
Proof.
  intros Hrefresh Herror Hinfos Horder Hnone Hstuck.
  unfold getWebCookies. rewrite Hrefresh. cbn [negb data].
  rewrite Herror, Hinfos, (promiseAny_by_order Horder).
  unfold first_success_else_first_failure. rewrite Hnone.
  destruct order as [|j order]; [reflexivity|].
  assert (Hlaunched : length (launch infos answers) = length infos)
    by (unfold launch; rewrite length_map; apply length_seq).
  rewrite Hlaunched.
  destruct (Nat.eqb_spec (length (j :: order)) (length infos)) as [Heq|];
    [|reflexivity].
  exfalso. destruct Horder as [Hnodup Hsettle].
  destruct Hstuck as [-> | (i & Hi & Hanswer)]; [discriminate Heq|].
  assert (Hin : In i (j :: order)).
  { apply (@NoDup_length_incl _ (j :: order) (seq 0 (length infos)));
      [ exact Hnodup
      | rewrite length_seq, Heq; apply le_n
      |
      | apply in_seq; lia ].
    intros k Hk. apply in_seq. destruct (Hsettle k Hk) as (s & Hs).
    rewrite launch_nth in Hs.
    destruct (Nat.ltb_spec k (length infos)); [lia | discriminate]. }
  destruct (Hsettle i Hin) as (s & Hs). rewrite launch_nth in Hs.
  destruct (Nat.ltb i (length infos)); [|discriminate].
  destruct Hanswer as [Ha | (ex & Ha)]; rewrite Ha in Hs; discriminate.
Qed.

(** [trim] removes no-break spaces (U+00A0) as it removes spaces and
    tabs, at both ends and not inside. *)
Lemma trim_no_break_space :
  trim (String (ascii_of_nat 160)
          (String (ascii_of_nat 9)
             ("a=b" ++ String (ascii_of_nat 160) "c "
              ++ String (ascii_of_nat 160) EmptyString)))
  = ("a=b" ++ String (ascii_of_nat 160) "c")%string.
Proof. reflexivity. Qed.

(** Three transfers of which the second brings the login cookie. *)
Lemma getWebCookies_cookies_witness :
  getWebCookies Doubles.eresultError
    (Return {| data := Some Doubles.three_transfers |})
    Doubles.second_succeeds [0; 1; 2] Doubles.holding_refresh_token
  = Some (Resolved ["steamLoginSecure=abc"; "sessionid=123"])
  /\ existsb (String.prefix "steamLoginSecure=")
       ["steamLoginSecure=abc"; "sessionid=123"] = true
  /\ Forall (fun c => occurs ";" c = false)
       ["steamLoginSecure=abc"; "sessionid=123"].
Proof.
  assert (H : getWebCookies Doubles.eresultError
                (Return {| data := Some Doubles.three_transfers |})
                Doubles.second_succeeds [0; 1; 2]
                Doubles.holding_refresh_token
              = Some (Resolved ["steamLoginSecure=abc"; "sessionid=123"]))
    by reflexivity.
  destruct (getWebCookies_cookies _ _ _ _ _ H) as (_ & _ & Hmark & Hplain).
  exact (conj H (conj Hmark Hplain)).
Defined.

(** The first and the third transfer have failed; the request of the second
    has failed, so its promise never settles. *)
Lemma getWebCookies_never_settles_witness :
  getWebCookies Doubles.eresultError
    (Return {| data := Some Doubles.three_transfers |})
    Scenes.one_request_fails [0; 2] Doubles.holding_refresh_token
  = Datatypes.None.
Proof.
  apply (@getWebCookies_never_settles Doubles.eresultError
           Doubles.holding_refresh_token Doubles.three_transfers
           Doubles.three_endpoints Scenes.one_request_fails [0; 2]);
    try reflexivity.
  - split.
    + repeat constructor; simpl; intuition discriminate.
    + intros i [<-|[<-|[]]]; eexists; reflexivity.
  - right. exists 1. split; [simpl; lia|].
    right. exists (new_Error "socket hang up"). reflexivity.
Defined.

Section SuppliedCode.
Context {World : Type}.
Variable enums : Enums.
Variable handler : AuthenticationClient World.

(** The shared submission block, when the supplied code is accepted. *)
Lemma submit_supplied_code_accepted (wrong : EResult.t) (m : Machine World)
  (r : StartAuthSessionWithCredentialsResponse) (c : string) (w : World) :
  _startSessionResponse (this m) = Some r ->
  some_confirmation EAuthSessionGuardType.EmailCode r
  || some_confirmation EAuthSessionGuardType.DeviceCode r = true ->
  _steamGuardCode (this m) = Some c -> c <> ""%string ->
  h_submitSteamGuardCode handler (submit_params r c) (world m)
  = (Return tt, w) ->
  submit_supplied_code handler wrong m
  = (Return true, with_immediates (S (immediates m)) (code_submitted r c w m)).
Proof.
  intros Hr Hneeds Hc Hne Hsub.
  unfold submit_supplied_code. unfold bind at 1, gets at 1. rewrite Hc.
  destruct c as [|a c']; [congruence|].
  unfold try_catch, bind.
  rewrite (submitSteamGuardCode_sent handler _ _ Hr Hneeds), Hsub.
  reflexivity.
Qed.

Lemma some_confirmation_in (i : AllowedConfirmation)
  (r : StartAuthSessionWithCredentialsResponse) :
  In i (allowedConfirmations r) ->
  is_code_challenge (type i) = true ->
  some_confirmation EAuthSessionGuardType.EmailCode r
  || some_confirmation EAuthSessionGuardType.DeviceCode r = true.
Proof.
  intros Hin Hcode. unfold some_confirmation.
  destruct (type i) eqn:Ht; try discriminate.
  - apply orb_true_iff. left. apply existsb_exists. exists i.
    split; [exact Hin | rewrite Ht; reflexivity].
  - apply orb_true_iff. right. apply existsb_exists. exists i.
    split; [exact Hin | rewrite Ht; reflexivity].
Qed.

(** The round of a code challenge when the supplied code is accepted. *)
Lemma process_confirmation_accepted (m : Machine World)
  (r : StartAuthSessionWithCredentialsResponse) (i : AllowedConfirmation)
  (va : list StartSessionResponseValidAction) (c : string) (w : World) :
  _startSessionResponse (this m) = Some r ->
  some_confirmation EAuthSessionGuardType.EmailCode r
  || some_confirmation EAuthSessionGuardType.DeviceCode r = true ->
  _steamGuardCode (this m) = Some c -> c <> ""%string ->
  is_code_challenge (type i) = true ->
  h_submitSteamGuardCode handler (submit_params r c) (world m)
  = (Return tt, w) ->
  exists m',
    process_confirmation enums handler i va m
    = (Return (Returned {| actionRequired := false;
                           validActions := Datatypes.None |}), m')
    /\ calls m' = calls m ++ [Call_submitSteamGuardCode (submit_params r c)]
    /\ immediates m' = S (immediates m).
Proof.
  intros Hr Hneeds Hc Hne Hcode Hsub.
  unfold process_confirmation.
  destruct (type i) eqn:Hty; try discriminate Hcode.
  - unfold _attemptEmailCodeAuth.
    unfold bind at 1 2 3, emit at 1, modify at 1.
    rewrite (@submit_supplied_code_accepted EResult.InvalidLoginAuthCode
               (with_emitted (emitted m ++ [Ev_debug "email code required"])
                  m)
               r c w Hr Hneeds Hc Hne Hsub).
    eexists. split; [reflexivity|]. split; reflexivity.
  - unfold _attemptTotpCodeAuth.
    unfold bind at 1 2 3, emit at 1, modify at 1.
    rewrite (@submit_supplied_code_accepted EResult.TwoFactorCodeMismatch
               (with_emitted (emitted m ++ [Ev_debug "device code required"])
                  m)
               r c w Hr Hneeds Hc Hne Hsub).
    eexists. split; [reflexivity|]. split; reflexivity.
Qed.

(** X20.  A guard code that was supplied with the credentials and that the
    server accepts settles the login at the first code challenge: the code
    is submitted once, no action is required of the caller, and one poll is
    queued besides those of the confirmations that come before the
    challenge.  The challenges after it are not looked at. *)
Theorem supplied_code_accepted (m : Machine World)
  (r : StartAuthSessionWithCredentialsResponse)
  (pre post : list AllowedConfirmation) (i : AllowedConfirmation)
  (c : string) :
  _startSessionResponse (this m) = Some r ->
  allowedConfirmations r = pre ++ i :: post ->
  Forall (fun j => is_passive (type j) = true) pre ->
  is_code_challenge (type i) = true ->
  _steamGuardCode (this m) = Some c -> c <> ""%string ->
  fst (h_submitSteamGuardCode handler (submit_params r c) (world m))
  = Return tt ->
  fst (_processStartSessionResponse enums handler m)
  = Return {| actionRequired := false; validActions := Datatypes.None |}
  /\ calls (snd (_processStartSessionResponse enums handler m))
     = calls m ++ [Call_submitSteamGuardCode (submit_params r c)]
  /\ immediates (snd (_processStartSessionResponse enums handler m))
     = immediates m + polls_queued pre + 1.
Proof.
  intros Hr Hlist Hpre Hcode Hc Hne Hsub.
  assert (Hneeds : some_confirmation EAuthSessionGuardType.EmailCode r
                   || some_confirmation EAuthSessionGuardType.DeviceCode r
                   = true).
  { apply (some_confirmation_in i); [|exact Hcode].
    rewrite Hlist. apply in_or_app. right. left. reflexivity. }
  rewrite (_processStartSessionResponse_run enums handler m Hr), Hlist.
  rewrite process_confirmations_app.
  assert (Hlocal : Forall (left_to_user (this (polling_reopened m)) r) pre).
  { apply Forall_impl with (2 := Hpre). intros j Hj. left. exact Hj. }
  destruct (@process_confirmations_local _ enums handler r pre []
              (polling_reopened m) Hr Hlocal)
    as (m1 & Hloop & Ht & Hcalls & Hw & _ & _ & Him).
  rewrite Hloop.
  destruct (h_submitSteamGuardCode handler (submit_params r c) (world m))
    as [answer w] eqn:Hanswer.
  simpl in Hsub. subst answer.
  destruct (@process_confirmation_accepted m1 r i ([] ++ surfaced pre) c w)
    as (m2 & Hround & Hcalls2 & Him2); try assumption.
  { rewrite Ht. exact Hr. }
  { rewrite Ht. exact Hc. }
  { rewrite Hw. exact Hanswer. }
  cbn [process_confirmations]. unfold bind. rewrite Hround. simpl.
  rewrite Hcalls2, Him2, Hcalls, Him. repeat split. simpl. lia.
Qed.

End SuppliedCode.

(** A device code supplied with the credentials, after a device
    confirmation. *)
Lemma supplied_code_accepted_witness :
  fst (_processStartSessionResponse Doubles.enums
         (Doubles.confirming Doubles.alice)
         (with_this
            (with_steamGuardCode (Some "12345"%string)
               (this (Doubles.started_with Scenes.device_or_code)))
            (Doubles.started_with Scenes.device_or_code)))
  = Return {| actionRequired := false; validActions := Datatypes.None |}.
Proof.
  apply (@supplied_code_accepted unit Doubles.enums
           (Doubles.confirming Doubles.alice)
           (with_this
              (with_steamGuardCode (Some "12345"%string)
                 (this (Doubles.started_with Scenes.device_or_code)))
              (Doubles.started_with Scenes.device_or_code))
           Scenes.device_or_code
           [Doubles.confirmation EAuthSessionGuardType.DeviceConfirmation]
           []
           (Doubles.confirmation EAuthSessionGuardType.DeviceCode)
           "12345" eq_refl eq_refl).
  - repeat constructor.
  - reflexivity.
  - reflexivity.
  - discriminate.
  - reflexivity.
Defined.

Section Canceled.
Context {World : Type}.
Variable helpers : Helpers.
Variable enums : Enums.
Variable handler : AuthenticationClient World.

Lemma poll_requests_snoc (l : list HandlerCall) (c : HandlerCall) :
  poll_requests (l ++ [c])
  = poll_requests l + (if is_poll_request c then 1 else 0).
Proof.
  unfold poll_requests. rewrite filter_app, length_app. simpl.
  destruct (is_poll_request c); reflexivity.
Qed.

Lemma stays_canceled_same (m m' : Machine World) :
  truthy_bool (_pollingCanceled (this m)) = true ->
  _pollingCanceled (this m') = _pollingCanceled (this m) ->
  calls m' = calls m ->
  timers m' = timers m ->
  stays_canceled m m'.
Proof.
  intros Hc Hf Hcalls Ht. unfold stays_canceled.
  rewrite Hf, Hcalls, Ht. repeat split. exact Hc.
Qed.

Lemma stays_canceled_trans (m1 m2 m3 : Machine World) :
  stays_canceled m1 m2 -> stays_canceled m2 m3 -> stays_canceled m1 m3.
Proof.
  unfold stays_canceled. intros (_ & Hp1 & Ht1) (Hc & Hp2 & Ht2).
  repeat split; [exact Hc | congruence | congruence].
Qed.

Lemma stays_canceled_submitSteamGuardCode (authCode : string)
  (m : Machine World) :
  truthy_bool (_pollingCanceled (this m)) = true ->
  stays_canceled m (snd (submitSteamGuardCode handler authCode m)).
Proof.
  intros Hc. unfold stays_canceled.
  unfold submitSteamGuardCode, _verifyStarted, the_startSessionResponse,
    emit, ask, setImmediate_doPoll.
  run_monad.
  destruct (_startSessionResponse (this m)) as [r|] eqn:Hr; simpl;
    [|repeat split; assumption].
  rewrite ?Hr; simpl.
  destruct (negb (some_confirmation EAuthSessionGuardType.EmailCode r)
            && negb (some_confirmation EAuthSessionGuardType.DeviceCode r));
    simpl; [repeat split; assumption|].
  destruct (h_submitSteamGuardCode handler (submit_params r authCode)
              (world m)) as [[[]|ex] w]; simpl;
    rewrite poll_requests_snoc; simpl; rewrite Nat.add_0_r;
    repeat split; assumption.
Qed.

Lemma stays_canceled_sent (m m1 : Machine World) (c : HandlerCall) :
  is_poll_request c = false ->
  stays_canceled m m1 ->
  stays_canceled m (with_calls (calls m1 ++ [c]) m1).
Proof.
  unfold stays_canceled. simpl. intros Hc H.
  rewrite poll_requests_snoc, Hc, Nat.add_0_r. exact H.
Qed.

Lemma stays_canceled_perform (t : Task) (m m' : Machine World) :
  stores_start_response t m = false ->
  truthy_bool (_pollingCanceled (this m)) = true ->
  perform helpers enums handler t m = Some m' ->
  stays_canceled m m'.
Proof.
  intros Hnot Hc Hperform.
  assert (Hrefl : stays_canceled m m) by (apply stays_canceled_same; auto).
  destruct t as [ms|name|token|token|details|authCode| |c1 c2|h c1 c2|answer
                |details|authCode|k];
    simpl in Hperform.
  - injection Hperform as <-. apply stays_canceled_same; auto.
  - injection Hperform as <-. apply stays_canceled_same; auto.
  - injection Hperform as <-. unfold on_session.
    destruct (set_accessToken_cases helpers token (this m))
      as [[e ->] | ->]; apply stays_canceled_same; auto.
  - injection Hperform as <-. unfold on_session.
    destruct (set_refreshToken_cases helpers token (this m))
      as [[e ->] | ->]; apply stays_canceled_same; auto.
  - discriminate Hnot.
  - injection Hperform as <-.
    apply stays_canceled_submitSteamGuardCode. exact Hc.
  - injection Hperform as <-. unfold stays_canceled.
    unfold cancelLoginAttempt, clearTimeout, on_session. run_monad.
    destruct (_pollTimer (this m)) as [h|]; simpl;
      rewrite ?clear_timer_length; repeat split.
  - destruct (immediates m) as [|n]; [discriminate|].
    injection Hperform as <-.
    unfold _doPoll_begin. run_monad. rewrite Hc. simpl.
    apply stays_canceled_same; auto.
  - destruct (timer_pending h m); [|discriminate].
    injection Hperform as <-.
    unfold _doPoll_begin. run_monad. rewrite Hc. simpl.
    unfold stays_canceled. simpl. repeat split; [exact Hc|].
    clear. revert h. induction (timers m) as [|[d st] l IH]; intros h.
    + destruct h; reflexivity.
    + destruct h; simpl; [reflexivity | rewrite IH; reflexivity].
  - destruct (inflight m) as [|n]; [discriminate|].
    injection Hperform as <-.
    destruct (_doPoll_resume_frame helpers answer (with_inflight n m))
      as (_ & Hcalls & _ & _ & _ & Hflag & _ & Htimers).
    destruct (Htimers Hc) as [Ht _].
    unfold stays_canceled. rewrite Hflag, Hcalls, Ht. repeat split.
    exact Hc.
  - injection Hperform as <-.
    apply (@keeps_suspend _ (stays_canceled m)); try exact Hrefl;
      try (intros; assumption).
    apply keeps_startWithCredentials_call; try (intros; assumption).
    intros. apply stays_canceled_sent; assumption.
  - injection Hperform as <-.
    apply (@keeps_suspend _ (stays_canceled m)); try exact Hrefl;
      try (intros; assumption).
    apply keeps_submitSteamGuardCode_called; try (intros; assumption).
    intros. apply stays_canceled_sent; assumption.
  - simpl in Hnot.
    destruct (nth_error (suspended m) k) as [w|]; [|discriminate].
    injection Hperform as <-.
    apply (@keeps_suspend _ (stays_canceled m)); try exact Hrefl;
      try (intros; assumption).
    apply keeps_resume; try (intros; assumption).
    + intros. apply stays_canceled_sent; assumption.
    + intros params ->. discriminate Hnot.
Qed.

(** X21.  Once a login attempt is canceled it stays canceled as long as no
    session-start response arrives: whatever the caller does and whatever
    the event loop still delivers, a tick that was queued, a timer, the
    answer of a poll in flight, a guard code submitted afterwards, a new
    call of [startWithCredentials] up to the arrival of its response, the
    steps of suspended calls, no poll request is sent any more and no timer
    is scheduled.  (The arrival of a session-start response resets the
    flag, also that of a call made before the cancellation:
    [start_in_flight_undoes_cancellation].) *)
Theorem canceled_until_restart (ts : list Task) (m m' : Machine World) :
  truthy_bool (_pollingCanceled (this m)) = true ->
  no_start_response helpers enums handler ts m = true ->
  run helpers enums handler ts m = Some m' ->
  truthy_bool (_pollingCanceled (this m')) = true
  /\ poll_requests (calls m') = poll_requests (calls m)
  /\ length (timers m') = length (timers m).
Proof.
  revert m. induction ts as [|t ts IH]; intros m Hc Hts Hrun.
  - injection Hrun as <-. repeat split. exact Hc.
  - simpl in Hrun, Hts. apply andb_prop in Hts as [Ht Hts].
    apply negb_true_iff in Ht.
    destruct (perform helpers enums handler t m) as [m1|] eqn:Hp;
      [|discriminate].
    pose proof (@stays_canceled_perform t m m1 Ht Hc Hp) as Hstep.
    apply (@stays_canceled_trans m m1 m'); [exact Hstep|].
    apply IH; [exact (proj1 Hstep) | exact Hts | exact Hrun].
Qed.

End Canceled.

(** The run that the hypothesis of X21 excludes: the attempt is canceled
    while a call of [startWithCredentials] waits for the session-start
    response; when the response arrives the flag is reset and a poll is
    queued, and the tick that follows sends a poll request. *)
Lemma start_in_flight_undoes_cancellation :
  _pollingCanceled (this Scenes.canceled_while_starting) = Some true
  /\ stores_start_response (T_resumes 0) Scenes.canceled_while_starting
     = true
  /\ option_map
       (fun m => (_pollingCanceled (this m), immediates m))
       (perform Doubles.helpers Doubles.enums
          (Doubles.confirming Doubles.alice) (T_resumes 0)
          Scenes.canceled_while_starting)
     = Some (Some false, 1)
  /\ option_map (fun m => poll_requests (calls m))
       (run Doubles.helpers Doubles.enums
          (Doubles.confirming Doubles.alice)
          [T_resumes 0; T_immediate 1000 1000]
          Scenes.canceled_while_starting)
     = Some 1.
Proof. repeat apply conj; vm_compute; reflexivity. Qed.

(** A code submitted after the cancellation is sent, but the poll that it
    queues does nothing; nor does a new call of [startWithCredentials] as
    long as its session-start response has not arrived. *)
Lemma canceled_until_restart_witness :
  truthy_bool (_pollingCanceled (this Scenes.after_code_after_cancel)) = true
  /\ poll_requests (calls Scenes.after_code_after_cancel)
     = poll_requests (calls Scenes.canceled)
  /\ length (timers Scenes.after_code_after_cancel)
     = length (timers Scenes.canceled).
Proof.
  apply (@canceled_until_restart unit Doubles.helpers Doubles.enums
           (Doubles.handler Scenes.device_or_code (Return tt)
              Doubles.accepted)
           Scenes.code_after_cancel Scenes.canceled
           Scenes.after_code_after_cancel).
  - reflexivity.
  - vm_compute. reflexivity.
  - vm_compute. reflexivity.
Defined.

Section Authenticated.
Context {World : Type}.
Variable helpers : Helpers.

(** A setter stores a token that passes its checks. *)
Lemma assign_stores (slot : Slot) (token : string) (decoded : Jwt)
  (this : Session) :
  token <> ""%string ->
  decodeJwt helpers token = Return decoded ->
  SteamID_valid helpers (sub decoded) = true ->
  agrees_with_start (sub decoded) this ->
  agrees_with_slot helpers (sub decoded) (other_slot slot) this ->
  assign helpers slot (Some token) this
  = (Return tt,
     match slot with
     | AccessToken => with_accessToken (Some token) this
     | RefreshToken => with_refreshToken (Some token) this
     end).
Proof.
  intros Hne Hd Hv Hs Ho. destruct token as [|c t]; [congruence|].
  assert (Hret : fst (assign helpers slot (Some (String c t)) this)
                 = Return tt).
  { apply assign_run. exists decoded.
    rewrite differs_from_start_false. auto. }
  destruct slot.
  - change (assign helpers AccessToken (Some (String c t)) this)
      with (set_accessToken helpers (Some (String c t)) this) in *.
    destruct (set_accessToken_cases helpers (Some (String c t)) this)
      as [[e H] | H]; [rewrite H in Hret; discriminate Hret | exact H].
  - change (assign helpers RefreshToken (Some (String c t)) this)
      with (set_refreshToken helpers (Some (String c t)) this) in *.
    destruct (set_refreshToken_cases helpers (Some (String c t)) this)
      as [[e H] | H]; [rewrite H in Hret; discriminate Hret | exact H].
Qed.

(** X22.  The answer of a poll request completes the login when its access
    token decodes to an account identifier that is the one of the started
    session and agrees with the refresh token that the session holds, and
    its refresh token, if it brings one, decodes to the same account: the
    account name and both tokens of the answer are stored, [authenticated]
    is emitted last, and no further tick is scheduled. *)
Theorem poll_answer_authenticates (p : PollResponse) (m : Machine World)
  (r : StartAuthSessionWithCredentialsResponse) (access : string)
  (decoded : Jwt) :
  _startSessionResponse (this m) = Some r ->
  poll_accessToken p = Some access -> access <> ""%string ->
  decodeJwt helpers access = Return decoded ->
  SteamID_valid helpers (sub decoded) = true ->
  steamId r = ""%string \/ sub decoded = steamId r ->
  agrees_with_slot helpers (sub decoded) RefreshToken (this m) ->
  truthy_string (poll_refreshToken p) = false
  \/ (exists refresh decoded',
         poll_refreshToken p = Some refresh
         /\ decodeJwt helpers refresh = Return decoded'
         /\ sub decoded' = sub decoded) ->
  let m' := snd (_doPoll_resume helpers (Return p) m) in
  fst (_doPoll_resume helpers (Return p) m) = Return tt
  /\ accountName (this m') = poll_accountName p
  /\ _accessToken (this m') = poll_accessToken p
  /\ _refreshToken (this m') = poll_refreshToken p
  /\ emitted m'
     = emitted m
       ++ Ev_debug "poll response"
          :: (if truthy_bool (hadRemoteInteraction p)
                 && negb (truthy_bool (_hadRemoteInteraction (this m)))
              then [Ev_remoteInteraction] else [])
       ++ [Ev_authenticated]
  /\ timers m' = timers m.
Proof.
  intros Hr Hp Hne Hd Hv Hstart Hslot Hrefresh m'. subst m'.
  assert (Haccess :
            forall s : Session,
              (forall r0, _startSessionResponse s = Some r0 ->
                          steamId r0 = steamId r) ->
              _refreshToken s = _refreshToken (this m) ->
              set_accessToken helpers (Some access) s
              = (Return tt, with_accessToken (Some access) s)).
  { intros s Hs Hrt.
    apply (@assign_stores AccessToken access decoded s Hne Hd Hv).
    - intros r0 Hr0. rewrite (Hs r0 Hr0). exact Hstart.
    - unfold agrees_with_slot in *. simpl in *. rewrite Hrt. exact Hslot. }
  assert (Hsecond :
            forall s : Session,
              (forall r0, _startSessionResponse s = Some r0 ->
                          steamId r0 = steamId r) ->
              _accessToken s = Some access ->
              set_refreshToken helpers (poll_refreshToken p) s
              = (Return tt, with_refreshToken (poll_refreshToken p) s)).
  { intros s Hs Hat.
    destruct Hrefresh as [Hnone | (refresh & d' & Hq & Hd' & Hsame)].
    - unfold set_refreshToken.
      destruct (poll_refreshToken p) as [[|c t]|]; try discriminate;
        reflexivity.
    - rewrite Hq.
      destruct refresh as [|c t].
      + reflexivity.
      + apply (@assign_stores RefreshToken (String c t) d' s);
          [discriminate | exact Hd' | rewrite Hsame; exact Hv | | ].
        * intros r0 Hr0. rewrite (Hs r0 Hr0), Hsame. exact Hstart.
        * right. simpl. rewrite Hat. unfold subject.
          destruct access as [|a t']; [congruence|].
          rewrite Hd, Hsame. reflexivity. }
  unfold _doPoll_resume, the_startSessionResponse, emit, on_session.
  run_monad. rewrite Hr. simpl. rewrite Hp.
  assert (Htruthy : truthy_string (Some access) = true)
    by (destruct access; [congruence | reflexivity]).
  rewrite Htruthy.
  destruct (truthy_bool (hadRemoteInteraction p)
            && negb (truthy_bool (_hadRemoteInteraction (this m)))); simpl;
    (rewrite Haccess;
     [ simpl; rewrite Hsecond;
       [ simpl; rewrite <- ?app_assoc; repeat split
       | simpl; intros r0 [= <-]; reflexivity
       | reflexivity ]
     | simpl; intros r0 [= <-]; reflexivity
     | reflexivity ]).
Qed.

End Authenticated.

(** The session was started for [alice]; the poll brings tokens of
    [alice]. *)
Lemma poll_answer_authenticates_witness :
  fst (_doPoll_resume Doubles.helpers
         (Return (Doubles.tokens_of Doubles.alice))
         (Doubles.started_with Scenes.device_or_code))
  = Return tt
  /\ _accessToken
       (this (snd (_doPoll_resume Doubles.helpers
                     (Return (Doubles.tokens_of Doubles.alice))
                     (Doubles.started_with Scenes.device_or_code))))
     = Some (Doubles.token_of Doubles.alice)
  /\ emitted (snd (_doPoll_resume Doubles.helpers
                     (Return (Doubles.tokens_of Doubles.alice))
                     (Doubles.started_with Scenes.device_or_code)))
     = [Ev_debug "poll response"; Ev_authenticated].
Proof.
  destruct (@poll_answer_authenticates unit Doubles.helpers
              (Doubles.tokens_of Doubles.alice)
              (Doubles.started_with Scenes.device_or_code)
              Scenes.device_or_code
              (Doubles.token_of Doubles.alice) {| sub := Doubles.alice |}
              eq_refl eq_refl)
    as (Hfst & _ & Haccess & _ & Hemitted & _).
  - discriminate.
  - reflexivity.
  - reflexivity.
  - right. reflexivity.
  - left. reflexivity.
  - right. exists (Doubles.token_of Doubles.alice), {| sub := Doubles.alice |}.
    repeat split.
  - exact (conj Hfst (conj Haccess Hemitted)).
Defined.

(** *** The answer of a poll, in full *)

Section PollAnswerRun.
Context {World : Type}.
Variable helpers : Helpers.

(** What a setter decides depends on the tokens of the session and on the
    account of its session-start response only. *)
Lemma assign_depends (slot : Slot) (token : option string)
  (s s' : Session) :
  _accessToken s' = _accessToken s ->
  _refreshToken s' = _refreshToken s ->
  option_map steamId (_startSessionResponse s')
  = option_map steamId (_startSessionResponse s) ->
  fst (assign helpers slot token s') = fst (assign helpers slot token s).
Proof.
  intros Ha Hr Hs.
  assert (Hdiff : forall d, differs_from_start d s' = differs_from_start d s).
  { intros d. unfold differs_from_start.
    destruct (_startSessionResponse s') as [r'|];
      destruct (_startSessionResponse s) as [r|]; simpl in Hs;
      try discriminate; [|reflexivity].
    injection Hs as ->. reflexivity. }
  destruct slot; simpl; unfold set_accessToken, set_refreshToken;
    destruct token as [[|c t]|]; try reflexivity; run_monad;
    (destruct (decodeJwt helpers (String c t)) as [d|e]; simpl;
     [|reflexivity]);
    (destruct (SteamID_valid helpers (sub d)); simpl; [|reflexivity]);
    rewrite Hdiff; (destruct (differs_from_start d s); simpl; [reflexivity|]).
  - rewrite Hr. destruct (_refreshToken s) as [[|c' t']|]; simpl;
      try reflexivity.
    destruct (decodeJwt helpers (String c' t')) as [d'|e']; simpl;
      [|reflexivity].
    destruct (negb (String.eqb (sub d') (sub d))); reflexivity.
  - rewrite Ha. destruct (_accessToken s) as [[|c' t']|]; simpl;
      try reflexivity.
    destruct (decodeJwt helpers (String c' t')) as [d'|e']; simpl;
      [|reflexivity].
    destruct (negb (String.eqb (sub d') (sub d))); reflexivity.
Qed.

Lemma polled_session (p : PollResponse)
  (r : StartAuthSessionWithCredentialsResponse) (this : Session) :
  _accessToken (polled p r this) = _accessToken this
  /\ _refreshToken (polled p r this) = _refreshToken this
  /\ accountName (polled p r this) = poll_accountName p
  /\ _startSessionResponse (polled p r this) = Some (rotated p r)
  /\ _hadRemoteInteraction (polled p r this)
     = (if first_remote_interaction p this then Some true
        else _hadRemoteInteraction this)
  /\ _pollTimer (polled p r this) = _pollTimer this
  /\ _pollingCanceled (polled p r this) = _pollingCanceled this.
Proof.
  unfold polled, noted.
  destruct (first_remote_interaction p this); repeat split.
Qed.

(** [_doPoll] from its [await] on, by the outcomes of the two setters. *)
Lemma _doPoll_resume_run (p : PollResponse) (m : Machine World)
  (r : StartAuthSessionWithCredentialsResponse) :
  _startSessionResponse (this m) = Some r ->
  _doPoll_resume helpers (Return p) m
  = if truthy_string (poll_accessToken p) then
      match set_accessToken helpers (poll_accessToken p)
              (polled p r (this m)) with
      | (Throw e, _) =>
          (Throw e,
           with_this (polled p r (this m))
             (with_emitted (emitted m ++ poll_events p (this m)) m))
      | (Return _, s3) =>
          match set_refreshToken helpers (poll_refreshToken p) s3 with
          | (Throw e, _) =>
              (Throw e,
               with_this s3
                 (with_emitted (emitted m ++ poll_events p (this m)) m))
          | (Return _, s4) =>
              (Return tt,
               with_this s4
                 (with_emitted
                    (emitted m ++ poll_events p (this m)
                     ++ [Ev_authenticated]) m))
          end
      end
    else if truthy_bool (_pollingCanceled (this m)) then
      (Return tt,
       with_this (noted p r (this m))
         (with_emitted (emitted m ++ poll_events p (this m)) m))
    else
      (Return tt,
       with_this (with_pollTimer (Some (length (timers m)))
                    (noted p r (this m)))
         (with_timers (timers m ++ [((pollInterval r * 1000)%Z, Pending)])
            (with_emitted (emitted m ++ poll_events p (this m)) m))).
Proof.
  intros Hr.
  unfold _doPoll_resume, the_startSessionResponse, emit, on_session,
    setTimeout_doPoll, polled, noted, poll_events, rotated.
  run_monad. rewrite Hr. simpl.
  unfold first_remote_interaction.
  destruct (truthy_bool (hadRemoteInteraction p)
            && negb (truthy_bool (_hadRemoteInteraction (this m)))); simpl;
    (destruct (truthy_string (poll_accessToken p)); simpl;
     [ match goal with
       | |- context [set_accessToken helpers ?t ?s] =>
           destruct (set_accessToken_cases helpers t s) as [[e ->] | ->];
           simpl
       end;
       [ rewrite <- ?app_assoc; reflexivity
       | match goal with
         | |- context [set_refreshToken helpers ?t ?s] =>
             destruct (set_refreshToken_cases helpers t s) as [[e ->] | ->];
             simpl
         end; (rewrite <- ?app_assoc; reflexivity) ]
     | destruct (truthy_bool (_pollingCanceled (this m))); simpl;
       rewrite <- ?app_assoc; reflexivity ]).
Qed.



(** X16.  When the answer of a poll request carries an access token that
    its setter refuses, the tick fails with the error of the setter and both
    tokens of the session are as before.  When the access token is accepted
    and the setter of the refresh token refuses the refresh token of the
    answer, the tick fails with that error, the access token of the answer
    is already stored and the refresh token of the session is as before.
    In both cases [accountName] is already overwritten, neither
    [authenticated] nor [error] is emitted and no tick is scheduled. *)
Theorem poll_tokens_refused (p : PollResponse) (m : Machine World)
  (r : StartAuthSessionWithCredentialsResponse) (e : Error) :
  _startSessionResponse (this m) = Some r ->
  truthy_string (poll_accessToken p) = true ->
  let m' := snd (_doPoll_resume helpers (Return p) m) in
  (fst (assign helpers AccessToken (poll_accessToken p) (this m)) = Throw e ->
   fst (_doPoll_resume helpers (Return p) m) = Throw e
   /\ this m' = polled p r (this m)
   /\ _accessToken (this m') = _accessToken (this m)
   /\ _refreshToken (this m') = _refreshToken (this m)
   /\ accountName (this m') = poll_accountName p
   /\ emitted m' = emitted m ++ poll_events p (this m)
   /\ timers m' = timers m)
  /\ (fst (assign helpers AccessToken (poll_accessToken p) (this m))
      = Return tt ->
      fst (assign helpers RefreshToken (poll_refreshToken p)
             (with_accessToken (poll_accessToken p) (this m))) = Throw e ->
      fst (_doPoll_resume helpers (Return p) m) = Throw e
      /\ this m' = with_accessToken (poll_accessToken p) (polled p r (this m))
      /\ _accessToken (this m') = poll_accessToken p
      /\ _refreshToken (this m') = _refreshToken (this m)
      /\ accountName (this m') = poll_accountName p
      /\ emitted m' = emitted m ++ poll_events p (this m)
      /\ timers m' = timers m).
Proof.
  intros Hr Htok m'. subst m'.
  destruct (polled_session p r (this m))
    as (Hpa & Hpr & Hname & Hps & _).
  assert (Hsame : option_map steamId (Some (rotated p r))
                  = option_map steamId (_startSessionResponse (this m)))
    by (rewrite Hr; reflexivity).
  assert (Hfirst : fst (set_accessToken helpers (poll_accessToken p)
                          (polled p r (this m)))
                   = fst (assign helpers AccessToken (poll_accessToken p)
                            (this m))).
  { apply (assign_depends AccessToken); [exact Hpa | exact Hpr|].
    rewrite Hps. exact Hsame. }
  assert (Hsecond : fst (set_refreshToken helpers (poll_refreshToken p)
                           (with_accessToken (poll_accessToken p)
                              (polled p r (this m))))
                    = fst (assign helpers RefreshToken (poll_refreshToken p)
                             (with_accessToken (poll_accessToken p)
                                (this m)))).
  { apply (assign_depends RefreshToken); [reflexivity | exact Hpr|].
    change (option_map steamId (_startSessionResponse (polled p r (this m)))
            = option_map steamId (_startSessionResponse (this m))).
    rewrite Hps. exact Hsame. }
  rewrite (_doPoll_resume_run p m Hr), Htok.
  destruct (set_accessToken_cases helpers (poll_accessToken p)
              (polled p r (this m))) as [[e1 H1] | H1];
    rewrite H1 in *; cbn [fst] in Hfirst; rewrite <- Hfirst; cbn [fst snd].
  - split; [|discriminate]. intros [= ->]. repeat split; assumption.
  - split; [discriminate|]. intros _.
    destruct (set_refreshToken_cases helpers (poll_refreshToken p)
                (with_accessToken (poll_accessToken p)
                   (polled p r (this m)))) as [[e2 H2] | H2];
      rewrite H2 in *; cbn [fst] in Hsecond; rewrite <- Hsecond;
      cbn [fst snd].
    + intros [= ->]. repeat split; assumption.
    + discriminate.
Qed.

End PollAnswerRun.


(** The session was started for [alice].  A poll brings tokens of [bob]:
    the access token is refused.  Another brings an access token of [alice]
    and a refresh token of [bob]: the access token is stored, the refresh
    token is refused. *)
Lemma poll_tokens_refused_witness :
  (fst (_doPoll_resume Doubles.helpers
          (Return (Doubles.tokens_of Doubles.bob))
          (Doubles.started_with Scenes.device_or_code))
   = Throw (new_Error msg_different_account)
   /\ _accessToken
        (this (snd (_doPoll_resume Doubles.helpers
                      (Return (Doubles.tokens_of Doubles.bob))
                      (Doubles.started_with Scenes.device_or_code))))
      = Datatypes.None)
  /\ (fst (_doPoll_resume Doubles.helpers (Return Scenes.mixed_tokens)
             (Doubles.started_with Scenes.device_or_code))
      = Throw (new_Error msg_different_account)
      /\ _accessToken
           (this (snd (_doPoll_resume Doubles.helpers
                         (Return Scenes.mixed_tokens)
                         (Doubles.started_with Scenes.device_or_code))))
         = Some (Doubles.token_of Doubles.alice)
      /\ _refreshToken
           (this (snd (_doPoll_resume Doubles.helpers
                         (Return Scenes.mixed_tokens)
                         (Doubles.started_with Scenes.device_or_code))))
         = Datatypes.None
      /\ emitted (snd (_doPoll_resume Doubles.helpers
                         (Return Scenes.mixed_tokens)
                         (Doubles.started_with Scenes.device_or_code)))
         = [Ev_debug "poll response"]).
Proof.
  split.
  - destruct (proj1 (@poll_tokens_refused unit Doubles.helpers
                       (Doubles.tokens_of Doubles.bob)
                       (Doubles.started_with Scenes.device_or_code)
                       Scenes.device_or_code
                       (new_Error msg_different_account)
                       eq_refl eq_refl))
      as (Hfst & _ & Haccess & _).
    + vm_compute. reflexivity.
    + exact (conj Hfst Haccess).
  - destruct (proj2 (@poll_tokens_refused unit Doubles.helpers
                       Scenes.mixed_tokens
                       (Doubles.started_with Scenes.device_or_code)
                       Scenes.device_or_code
                       (new_Error msg_different_account)
                       eq_refl eq_refl))
      as (Hfst & _ & Haccess & Hrefresh & _ & Hemitted & _).
    + vm_compute. reflexivity.
    + vm_compute. reflexivity.
    + exact (conj Hfst (conj Haccess (conj Hrefresh Hemitted))).
Defined.

(** *** A supplied guard code that the server refuses *)

Section RefusedCode.
Context {World : Type}.
Variable enums : Enums.
Variable handler : AuthenticationClient World.

(** A round only adds to the pending-action list. *)
Lemma process_confirmation_extends (i : AllowedConfirmation)
  (va va' : list StartSessionResponseValidAction) (m m' : Machine World) :
  process_confirmation enums handler i va m = (Return (Next va'), m') ->
  exists later, va' = va ++ later.
Proof.
  unfold process_confirmation.
  destruct (type i); unfold emit, setImmediate_doPoll; run_monad.
  - discriminate.
  - destruct (_attemptEmailCodeAuth handler _) as [[[|]|e] m1]; simpl;
      try discriminate.
    intros [= <- _]. eexists. reflexivity.
  - destruct (_attemptTotpCodeAuth handler _) as [[[|]|e] m1]; simpl;
      try discriminate.
    intros [= <- _]. eexists. reflexivity.
  - intros [= <- _]. eexists. reflexivity.
  - intros [= <- _]. eexists. reflexivity.
  - intros [= <- _]. exists []. rewrite app_nil_r. reflexivity.
  - discriminate.
Qed.

Lemma process_confirmations_extends (l : list AllowedConfirmation) :
  forall (va va' : list StartSessionResponseValidAction)
         (m m' : Machine World),
    process_confirmations enums handler l va m = (Return (Next va'), m') ->
    exists later, va' = va ++ later.
Proof.
  induction l as [|i l IH]; intros va va' m m'; simpl.
  - intros [= <- _]. exists []. rewrite app_nil_r. reflexivity.
  - unfold bind at 1.
    destruct (process_confirmation enums handler i va m)
      as [[[resp|va1]|e] m1] eqn:E; try discriminate.
    intros H. destruct (process_confirmation_extends _ _ _ E) as (l1 & ->).
    destruct (IH _ _ _ _ H) as (l2 & ->).
    exists (l1 ++ l2). rewrite app_assoc. reflexivity.
Qed.

(** The round of a code challenge whose supplied code the server refuses,
    in full. *)
Lemma round_refused (i : AllowedConfirmation)
  (va : list StartSessionResponseValidAction) (m : Machine World)
  (r : StartAuthSessionWithCredentialsResponse) (c : string) (ex : Error)
  (w : World) :
  is_code_challenge (type i) = true ->
  In i (allowedConfirmations r) ->
  _startSessionResponse (this m) = Some r ->
  _steamGuardCode (this m) = Some c -> c <> ""%string ->
  h_submitSteamGuardCode handler (submit_params r c) (world m)
  = (Throw ex, w) ->
  exists m1,
    this m1 = this m
    /\ process_confirmation enums handler i va m
       = if eresult_differs ex (wrong_code_for (type i))
         then (Throw ex, m1)
         else if EAuthSessionGuardType.eqb (type i)
                   EAuthSessionGuardType.EmailCode
                 && some_confirmation EAuthSessionGuardType.MachineToken r
         then match h_checkMachineAuthOrSendCodeEmail handler
                      (check_params (this m) r) w with
              | (Throw ex', w') =>
                  (Throw ex',
                   with_world w'
                     (with_calls
                        (calls m1
                         ++ [Call_checkMachineAuthOrSendCodeEmail
                               (check_params (this m) r)]) m1))
              | (Return res, w') =>
                  if EResult.eqb (result res) EResult.OK
                  then (Return (Returned {| actionRequired := false;
                                            validActions := Datatypes.None |}),
                        with_immediates (S (immediates m1))
                          (with_world w'
                             (with_calls
                                (calls m1
                                 ++ [Call_checkMachineAuthOrSendCodeEmail
                                       (check_params (this m) r)]) m1)))
                  else (Return (Next (va ++ [pending_action i])),
                        with_world w'
                          (with_calls
                             (calls m1
                              ++ [Call_checkMachineAuthOrSendCodeEmail
                                    (check_params (this m) r)]) m1))
              end
         else (Return (Next (va ++ [pending_action i])), m1).
Proof.
  intros Hcode Hin Hr Hc Hne Hsub.
  assert (Hneeds : some_confirmation EAuthSessionGuardType.EmailCode r
                   || some_confirmation EAuthSessionGuardType.DeviceCode r
                   = true).
  { destruct (type i) eqn:Ht; try discriminate.
    - rewrite (some_confirmation_In r i Hin Ht). reflexivity.
    - rewrite (some_confirmation_In r i Hin Ht). apply orb_true_r. }
  unfold process_confirmation, pending_action.
  destruct (type i) eqn:Ht; try discriminate; cbn [wrong_code_for].
  - set (m_e := with_emitted (emitted m ++ [Ev_debug "email code required"])
                  m).
    exists (code_submitted r c w m_e). split; [reflexivity|].
    unfold bind at 1, emit at 1, modify at 1. unfold bind at 1.
    fold m_e.
    pose proof (@submit_supplied_code_refused _ handler
                  EResult.InvalidLoginAuthCode m_e r c ex w Hr Hneeds Hc Hne
                  Hsub) as Hrun.
    destruct (eresult_differs ex EResult.InvalidLoginAuthCode) eqn:Hdiff.
    + unfold _attemptEmailCodeAuth. unfold bind at 1. rewrite Hrun.
      reflexivity.
    + rewrite (@_attemptEmailCodeAuth_after_code _ handler m_e _ r Hrun
                 eq_refl Hr).
      cbn [EAuthSessionGuardType.eqb andb].
      destruct (some_confirmation EAuthSessionGuardType.MachineToken r);
        [|reflexivity].
      change (this m_e) with (this m).
      change (world (code_submitted r c w m_e)) with w.
      destruct (h_checkMachineAuthOrSendCodeEmail handler
                  (check_params (this m) r) w) as [[res|ex'] w'];
        [|reflexivity].
      destruct (EResult.eqb (result res) EResult.OK); reflexivity.
  - set (m_e := with_emitted (emitted m ++ [Ev_debug "device code required"])
                  m).
    exists (code_submitted r c w m_e). split; [reflexivity|].
    unfold bind at 1, emit at 1, modify at 1. unfold bind at 1.
    fold m_e. unfold _attemptTotpCodeAuth. unfold bind at 1.
    pose proof (@submit_supplied_code_refused _ handler
                  EResult.TwoFactorCodeMismatch m_e r c ex w Hr Hneeds Hc Hne
                  Hsub) as Hrun.
    rewrite Hrun.
    destruct (eresult_differs ex EResult.TwoFactorCodeMismatch);
      reflexivity.
Qed.

(** C6 (as amended).  A guard code is supplied with the credentials, and
    the first code challenge of the session-start response comes after
    confirmations and [MachineToken] entries only; the code is submitted for
    it and the server refuses it.

    A refusal with a result other than the wrong-code result of the
    challenge ([InvalidLoginAuthCode] for [EmailCode],
    [TwoFactorCodeMismatch] for [DeviceCode]) propagates out of
    [startWithCredentials].

    A refusal with the wrong-code result is swallowed.  For [EmailCode]
    with [MachineToken] among the allowed confirmations the machine-token
    check is made next: its rejection propagates out of
    [startWithCredentials], and when it answers [OK]
    [startWithCredentials] returns that no action is required.  Otherwise
    the challenge joins the pending actions, after those of the challenges
    before it, and the loop goes on with the challenges after it: the
    challenge is in the list of every response that requires action, at
    that place, and [startWithCredentials] returns such a response when
    only confirmations and [MachineToken] entries follow.  (A later
    challenge can still end the call otherwise: a [None] challenge with no
    action required, another code challenge or an unknown type with an
    error.)

    The call is [startWithCredentials] run in one go, which is the call
    followed by its steps with nothing in between
    ([startWithCredentials_uninterrupted]). *)
Theorem guard_code_refusal
  (details : StartLoginSessionWithCredentialsDetails) (m : Machine World)
  (enc : EncryptedPassword) (w1 w2 w : World)
  (r : StartAuthSessionWithCredentialsResponse)
  (pre post : list AllowedConfirmation) (i : AllowedConfirmation)
  (c : string) (ex : Error) :
  details_steamGuardCode details = Some c -> c <> ""%string ->
  h_encryptPassword handler (details_accountName details)
    (details_password details) (world m) = (Return enc, w1) ->
  h_startSessionWithCredentials handler
    (start_params enums details enc (this m)) w1 = (Return r, w2) ->
  allowedConfirmations r = pre ++ i :: post ->
  forallb (fun c => is_passive (type c)) pre = true ->
  is_code_challenge (type i) = true ->
  h_submitSteamGuardCode handler (submit_params r c) w2 = (Throw ex, w) ->
  (eresult_differs ex (wrong_code_for (type i)) = true ->
   fst (startWithCredentials enums handler details m) = Throw ex)
  /\ (eresult ex = Some (wrong_code_for (type i)) ->
      type i = EAuthSessionGuardType.EmailCode ->
      some_confirmation EAuthSessionGuardType.MachineToken r = true ->
      (forall ex' w',
          h_checkMachineAuthOrSendCodeEmail handler
            {| machineAuthToken := details_steamGuardMachineToken details;
               check_session := r |} w = (Throw ex', w') ->
          fst (startWithCredentials enums handler details m) = Throw ex')
      /\ (forall res w',
             h_checkMachineAuthOrSendCodeEmail handler
               {| machineAuthToken := details_steamGuardMachineToken details;
                  check_session := r |} w = (Return res, w') ->
             result res = EResult.OK ->
             fst (startWithCredentials enums handler details m)
             = Return {| actionRequired := false;
                         validActions := Datatypes.None |}))
  /\ (eresult ex = Some (wrong_code_for (type i)) ->
      (type i = EAuthSessionGuardType.EmailCode ->
       some_confirmation EAuthSessionGuardType.MachineToken r = true ->
       exists res w',
         h_checkMachineAuthOrSendCodeEmail handler
           {| machineAuthToken := details_steamGuardMachineToken details;
              check_session := r |} w = (Return res, w')
         /\ result res <> EResult.OK) ->
      (forall response,
          fst (startWithCredentials enums handler details m)
          = Return response ->
          actionRequired response = true ->
          exists later,
            validActions response
            = Some (surfaced pre ++ pending_action i :: later))
      /\ (forallb (fun c => is_passive (type c)) post = true ->
          fst (startWithCredentials enums handler details m)
          = Return {| actionRequired := true;
                      validActions :=
                        Some (surfaced pre
                              ++ pending_action i :: surfaced post) |})).
Proof.
  intros Hc Hne Henc Hstart Hlist Hpre Hcode Hsub.
  destruct (startWithCredentials_started enums handler details m Henc Hstart)
    as (m0 & Hthis & Hworld & ->).
  assert (Hr : _startSessionResponse (this m0) = Some r)
    by (rewrite Hthis; reflexivity).
  assert (Hpassive : forall l,
             forallb (fun c => is_passive (type c)) l = true ->
             forall s, Forall (left_to_user s r) l).
  { intros l Hl s. apply Forall_forall. intros j Hj. left.
    apply (proj1 (forallb_forall _ _) Hl j Hj). }
  destruct (@process_confirmations_local _ enums handler r pre []
              (polling_reopened m0) Hr (Hpassive pre Hpre _))
    as (m1 & Hloop & Ht1 & _ & Hw1 & _).
  assert (Hr1 : _startSessionResponse (this m1) = Some r)
    by (rewrite Ht1; exact Hr).
  assert (Hc1 : _steamGuardCode (this m1) = Some c)
    by (rewrite Ht1; simpl; rewrite Hthis; exact Hc).
  assert (Hsub1 : h_submitSteamGuardCode handler (submit_params r c)
                    (world m1) = (Throw ex, w))
    by (rewrite Hw1; simpl; rewrite Hworld; exact Hsub).
  assert (Hin : In i (allowedConfirmations r))
    by (rewrite Hlist; apply in_or_app; right; left; reflexivity).
  assert (Hparams : check_params (this m1) r
                    = {| machineAuthToken :=
                           details_steamGuardMachineToken details;
                         check_session := r |})
    by (rewrite Ht1; unfold check_params; simpl; rewrite Hthis;
        reflexivity).
  destruct (round_refused i ([] ++ surfaced pre) m1 Hcode Hin Hr1 Hc1 Hne
              Hsub1) as (m2 & Ht2 & Hround).
  rewrite Hparams in Hround.
  rewrite (_processStartSessionResponse_run enums handler m0 Hr), Hlist.
  rewrite process_confirmations_app, Hloop.
  cbn [process_confirmations]. unfold bind. rewrite Hround.
  clear Hround. simpl app.
  split; [|split].
  - intros Hdiff. rewrite Hdiff. reflexivity.
  - intros Hex Hemail Hmt.
    rewrite (eresult_differs_wrong _ Hex), Hemail, Hmt. simpl.
    split.
    + intros ex' w' Hchk. rewrite Hchk. reflexivity.
    + intros res w' Hchk Hok. rewrite Hchk, Hok. reflexivity.
  - intros Hex Hcheck.
    rewrite (eresult_differs_wrong _ Hex).
    assert (Hnext :
              exists m3,
                this m3 = this m1
                /\ (if EAuthSessionGuardType.eqb (type i)
                         EAuthSessionGuardType.EmailCode
                       && some_confirmation
                            EAuthSessionGuardType.MachineToken r
                    then
                      match h_checkMachineAuthOrSendCodeEmail handler
                              {| machineAuthToken :=
                                   details_steamGuardMachineToken details;
                                 check_session := r |} w with
                      | (Throw ex', w') =>
                          (Throw ex',
                           with_world w'
                             (with_calls
                                (calls m2
                                 ++ [Call_checkMachineAuthOrSendCodeEmail
                                       {| machineAuthToken :=
                                            details_steamGuardMachineToken
                                              details;
                                          check_session := r |}]) m2))
                      | (Return res, w') =>
                          if EResult.eqb (result res) EResult.OK
                          then (Return
                                  (Returned
                                     {| actionRequired := false;
                                        validActions := Datatypes.None |}),
                                with_immediates (S (immediates m2))
                                  (with_world w'
                                     (with_calls
                                        (calls m2
                                         ++ [Call_checkMachineAuthOrSendCodeEmail
                                               {| machineAuthToken :=
                                                    details_steamGuardMachineToken
                                                      details;
                                                  check_session := r |}])
                                        m2)))
                          else (Return
                                  (Next (surfaced pre ++ [pending_action i])),
                                with_world w'
                                  (with_calls
                                     (calls m2
                                      ++ [Call_checkMachineAuthOrSendCodeEmail
                                            {| machineAuthToken :=
                                                 details_steamGuardMachineToken
                                                   details;
                                               check_session := r |}]) m2))
                      end
                    else (Return (Next (surfaced pre ++ [pending_action i])),
                          m2))
                   = (Return (Next (surfaced pre ++ [pending_action i])),
                      m3)).
    { destruct (EAuthSessionGuardType.eqb (type i)
                  EAuthSessionGuardType.EmailCode
                && some_confirmation EAuthSessionGuardType.MachineToken r)
        eqn:Hchecks.
      - apply andb_prop in Hchecks as [Hemail Hmt].
        apply EAuthSessionGuardType_eqb_eq in Hemail.
        destruct (Hcheck Hemail Hmt) as (res & w' & Hchk & Hres).
        rewrite Hchk.
        destruct (EResult.eqb (result res) EResult.OK) eqn:Hok.
        + apply EResult_eqb_eq in Hok. contradiction.
        + eexists. split; [|reflexivity]. simpl. exact Ht2.
      - exists m2. split; [exact Ht2 | reflexivity]. }
    destruct Hnext as (m3 & Ht3 & ->).
    assert (Hr3 : _startSessionResponse (this m3) = Some r)
      by (rewrite Ht3; exact Hr1).
    split.
    + intros response.
      destruct (process_confirmations enums handler post
                  (surfaced pre ++ [pending_action i]) m3)
        as [[[resp|va']|e] m4] eqn:Hrest; simpl.
      * intros [= <-] Haction.
        rewrite (process_confirmations_returned _ _ _ _ _ Hrest) in Haction.
        discriminate Haction.
      * destruct (process_confirmations_extends _ _ _ Hrest) as (later & ->).
        destruct (Nat.eqb _ 0); simpl; [discriminate|].
        intros [= <-] _. exists later. simpl.
        rewrite <- app_assoc. reflexivity.
      * discriminate.
    + intros Hpost.
      destruct (@process_confirmations_local _ enums handler r post
                  (surfaced pre ++ [pending_action i]) m3 Hr3
                  (Hpassive post Hpost _))
        as (m4 & Hrest & _).
      rewrite Hrest. simpl.
      rewrite <- app_assoc. simpl.
      destruct (surfaced pre ++ pending_action i :: surfaced post) eqn:E.
      * exfalso. destruct (surfaced pre); discriminate E.
      * reflexivity.
Qed.

End RefusedCode.

(** A supplied code, refused with an unrelated result for an [EmailCode]
    challenge: the refusal leaves [startWithCredentials]; and refused with
    [TwoFactorCodeMismatch] for a [DeviceCode] challenge that follows a
    device confirmation: both challenges are left to the caller. *)
Lemma guard_code_refusal_witness :
  fst (startWithCredentials Doubles.enums
         (Doubles.handler
            (Doubles.started_for Doubles.alice
               [EAuthSessionGuardType.EmailCode])
            (Throw (Doubles.rejection (EResult.Other 5)))
            Doubles.accepted)
         (Doubles.login (Some "12345"%string)) Doubles.fresh)
  = Throw (Doubles.rejection (EResult.Other 5))
  /\ fst (startWithCredentials Doubles.enums
            (Doubles.handler Scenes.device_or_code
               (Throw (Doubles.rejection EResult.TwoFactorCodeMismatch))
               Doubles.accepted)
            (Doubles.login (Some "12345"%string)) Doubles.fresh)
     = Return
         {| actionRequired := true;
            validActions :=
              Some (surfaced
                      [Doubles.confirmation
                         EAuthSessionGuardType.DeviceConfirmation]
                    ++ pending_action
                         (Doubles.confirmation
                            EAuthSessionGuardType.DeviceCode)
                       :: surfaced []) |}.
Proof.
  split.
  - apply (proj1
             (@guard_code_refusal unit Doubles.enums
                (Doubles.handler
                   (Doubles.started_for Doubles.alice
                      [EAuthSessionGuardType.EmailCode])
                   (Throw (Doubles.rejection (EResult.Other 5)))
                   Doubles.accepted)
                (Doubles.login (Some "12345"%string)) Doubles.fresh
                "encrypted"%string tt tt tt
                (Doubles.started_for Doubles.alice
                   [EAuthSessionGuardType.EmailCode])
                [] [] (Doubles.confirmation EAuthSessionGuardType.EmailCode)
                "12345"%string (Doubles.rejection (EResult.Other 5))
                eq_refl ltac:(discriminate) eq_refl eq_refl eq_refl eq_refl
                eq_refl eq_refl)).
    reflexivity.
  - apply (proj2 (proj2
             (@guard_code_refusal unit Doubles.enums
                (Doubles.handler Scenes.device_or_code
                   (Throw (Doubles.rejection EResult.TwoFactorCodeMismatch))
                   Doubles.accepted)
                (Doubles.login (Some "12345"%string)) Doubles.fresh
                "encrypted"%string tt tt tt Scenes.device_or_code
                [Doubles.confirmation EAuthSessionGuardType.DeviceConfirmation]
                [] (Doubles.confirmation EAuthSessionGuardType.DeviceCode)
                "12345"%string
                (Doubles.rejection EResult.TwoFactorCodeMismatch)
                eq_refl ltac:(discriminate) eq_refl eq_refl eq_refl eq_refl
                eq_refl eq_refl))).
    + reflexivity.
    + intros H. discriminate H.
    + reflexivity.
Defined.

(** What a later challenge can do to the list.  The code is refused with
    [InvalidLoginAuthCode] for an [EmailCode] challenge: a [None]
    challenge after it ends the call with no action required; for a
    [DeviceCode] challenge after it the same code is submitted again, and
    the refusal, which is not the wrong-code result of that challenge,
    leaves [startWithCredentials]. *)
Lemma refused_code_list_lost :
  fst (startWithCredentials Doubles.enums
         (Doubles.handler
            (Doubles.started_for Doubles.alice
               [EAuthSessionGuardType.EmailCode;
                EAuthSessionGuardType.None])
            (Throw (Doubles.rejection EResult.InvalidLoginAuthCode))
            Doubles.accepted)
         (Doubles.login (Some "12345"%string)) Doubles.fresh)
  = Return {| actionRequired := false; validActions := Datatypes.None |}
  /\ fst (startWithCredentials Doubles.enums
            (Doubles.handler
               (Doubles.started_for Doubles.alice
                  [EAuthSessionGuardType.EmailCode;
                   EAuthSessionGuardType.DeviceCode])
               (Throw (Doubles.rejection EResult.InvalidLoginAuthCode))
               Doubles.accepted)
            (Doubles.login (Some "12345"%string)) Doubles.fresh)
     = Throw (Doubles.rejection EResult.InvalidLoginAuthCode).
Proof. split; reflexivity. Qed.


(** *** Calls that nothing interrupts *)

Section Uninterrupted.
Context {World : Type}.
Variable helpers : Helpers.
Variable enums : Enums.
Variable handler : AuthenticationClient World.

Lemma uninterrupted_waits (fuel : nat) (k : Awaiting) (m : Machine World) :
  uninterrupted enums handler (S fuel) (Return (Waits k), m)
  = uninterrupted enums handler fuel (resume enums handler k m).
Proof. reflexivity. Qed.

Lemma uninterrupted_resolves (fuel : nat) (response : StartSessionResponse)
  (m : Machine World) :
  uninterrupted enums handler fuel (Return (Resolves response), m)
  = Some (Return (Resolves response), m).
Proof. destruct fuel; reflexivity. Qed.

Lemma uninterrupted_done (fuel : nat) (m : Machine World) :
  uninterrupted enums handler fuel (Return Done, m) = Some (Return Done, m).
Proof. destruct fuel; reflexivity. Qed.

Lemma uninterrupted_throws (fuel : nat) (ex : Error) (m : Machine World) :
  uninterrupted enums handler fuel (Throw ex, m) = Some (Throw ex, m).
Proof. destruct fuel; reflexivity. Qed.

#[local] Arguments uninterrupted : simpl never.

(** The steps and the methods, opened up to the monad. *)

Ltac open_steps :=
  unfold attempt_starts, attempt_goes_on, submit_settles,
         check_settles, submitted_resumes, attempt_settles,
         submitSteamGuardCode_call, send, receive,
         process_confirmation, _attemptEmailCodeAuth,
         _attemptTotpCodeAuth, submit_supplied_code,
         submitSteamGuardCode, ask, the_startSessionResponse,
         _verifyStarted, emit, setImmediate_doPoll, on_session,
         bind, ret, throw, gets, modify, try_catch.

(** A case distinction on what the code branches on next. *)
Ltac split_scrutinee :=
  match goal with
  | |- context [match ?x with _ => _ end] => is_var x; destruct x
  | |- context [h_submitSteamGuardCode ?h ?p ?w] =>
      destruct (h_submitSteamGuardCode h p w) as [[[]|?] ?]
  | |- context [h_checkMachineAuthOrSendCodeEmail ?h ?p ?w] =>
      destruct (h_checkMachineAuthOrSendCodeEmail h p w) as [[?|?] ?]
  | |- context [eresult_differs ?e ?c] => destruct (eresult_differs e c)
  | |- context [some_confirmation ?t ?r] => destruct (some_confirmation t r)
  | |- context [EResult.eqb ?a ?b] => destruct (EResult.eqb a b)
  end.

Ltac step_through_once :=
  first
    [ rewrite uninterrupted_waits
    | progress open_steps
    | progress simpl
    | split_scrutinee ].

(** The loop of [_processStartSessionResponse], step by step with the
    requests answered at once, is the loop run in one go: four steps at
    most for each challenge. *)
Lemma loop_uninterrupted (l : list AllowedConfirmation) :
  forall validActions (m : Machine World) fuel,
    4 * length l <= fuel ->
    uninterrupted enums handler fuel
      (loop_from enums l validActions m)
    = Some (loop_ends
              (process_confirmations enums handler l validActions m)).
Proof.
  induction l as [|i rest IH]; intros va m fuel Hfuel.
  - simpl. unfold ret, throw. destruct (Nat.eqb (length va) 0).
    + apply uninterrupted_throws.
    + apply uninterrupted_resolves.
  - cbn [length] in Hfuel.
    destruct fuel as [|[|[|[|fuel]]]]; try lia.
    assert (Hrest : forall j, 4 * length rest <= j + fuel) by (intros; lia).
    clear Hfuel.
    destruct m as [s t im inf em ca w su].
    destruct s.
    cbn [loop_from process_confirmations].
    unfold bind at 1.
    destruct (type i) eqn:Hi.
    all: unfold process_confirmation; rewrite Hi.
    all: repeat first [ rewrite Hi | step_through_once ].
    all: try apply uninterrupted_resolves.
    all: try apply uninterrupted_throws.
    all: try (apply IH; first [exact (Hrest 4)|exact (Hrest 3)| exact (Hrest 2) | exact (Hrest 1) | exact (Hrest 0)]).
Qed.

(** With the requests answered at once, the steps of
    [startWithCredentials] in a row are the method run in one go. *)
Lemma startWithCredentials_steps
  (details : StartLoginSessionWithCredentialsDetails) (m : Machine World) :
  exists fuel,
    uninterrupted enums handler fuel (startWithCredentials_call details m)
    = Some (resolves (startWithCredentials enums handler details m)).
Proof.
  destruct m as [s t im inf em ca w su].
  unfold startWithCredentials_call, startWithCredentials,
    _processStartSessionResponse, send, ask, on_session, emit,
    the_startSessionResponse, bind, ret, throw, gets, modify.
  simpl.
  destruct (h_encryptPassword handler (details_accountName details)
              (details_password details) w) as [[enc|ex] w1] eqn:Henc.
  2: { exists 1. rewrite uninterrupted_waits. simpl.
       unfold encryptPassword_settles, receive, bind. simpl.
       rewrite Henc. apply uninterrupted_throws. }
  simpl.
  match goal with
  | |- context [h_startSessionWithCredentials handler ?p ?w'] =>
      destruct (h_startSessionWithCredentials handler p w')
        as [[r|ex] w2] eqn:Hstart
  end.
  2: { exists 2. rewrite uninterrupted_waits. simpl.
       unfold encryptPassword_settles, receive, send, bind, ret, gets,
         modify. simpl.
       rewrite Henc. rewrite uninterrupted_waits. simpl.
       unfold startSession_settles, receive, bind. simpl.
       rewrite Hstart. apply uninterrupted_throws. }
  exists (S (S (4 * length (allowedConfirmations r)))).
  rewrite uninterrupted_waits. simpl.
  unfold encryptPassword_settles, receive, send, bind, ret, gets, modify.
  simpl.
  rewrite Henc. rewrite uninterrupted_waits. simpl.
  unfold startSession_settles, receive, on_session, emit,
    the_startSessionResponse, bind, ret, gets, modify.
  simpl.
  rewrite Hstart. simpl.
  rewrite loop_uninterrupted by apply Nat.le_refl.
  match goal with
  | |- context [process_confirmations enums handler ?l ?va ?m'] =>
      destruct (process_confirmations enums handler l va m')
        as [[[response|va']|ex] m'']
  end; simpl; try reflexivity.
  destruct (Nat.eqb (length va') 0); reflexivity.
Qed.

Lemma submitSteamGuardCode_steps (authCode : string) (m : Machine World) :
  uninterrupted enums handler 1 (submitSteamGuardCode_called authCode m)
  = Some (returns (submitSteamGuardCode handler authCode m)).
Proof.
  destruct m as [s t im inf em ca w su]. destruct s.
  unfold submitSteamGuardCode_called.
  repeat first [ step_through_once | reflexivity ].
Qed.

(** A step leaves the other suspended calls as they are. *)
Lemma resume_suspended (k : Awaiting) (m : Machine World) :
  suspended (snd (resume enums handler k m)) = suspended m.
Proof.
  assert (H : keeps (fun m' : Machine World => suspended m' = suspended m)
                (resume enums handler k)).
  { destruct k as [d|q|q c|o pt|q pt|b pt]; cbn [resume].
    - apply keeps_encryptPassword_settles; intros; assumption.
    - apply keeps_startSession_settles; intros; assumption.
    - apply keeps_submit_settles; intros; assumption.
    - apply keeps_submitted_resumes; intros; assumption.
    - apply keeps_check_settles; intros; assumption.
    - apply keeps_attempt_settles; intros; assumption. }
  exact (H m eq_refl).
Qed.

Lemma nth_error_last {A : Type} (l : list A) (a : A) :
  nth_error (l ++ [a]) (length l) = Some a.
Proof. induction l as [|b l IH]; [reflexivity | exact IH]. Qed.

Lemma without_last {A : Type} (l : list A) (a : A) :
  without (length l) (l ++ [a]) = l.
Proof.
  induction l as [|b l IH]; [reflexivity|]. simpl. rewrite IH. reflexivity.
Qed.

(** A suspended call, resumed at once, is the next step of
    [uninterrupted]. *)
Lemma perform_resumes_last (k : Awaiting) (m : Machine World) :
  perform helpers enums handler (T_resumes (length (suspended m)))
    (suspend (Return (Waits k), m))
  = Some (suspend (resume enums handler k m)).
Proof.
  unfold suspend at 2. simpl.
  rewrite nth_error_last, without_last.
  destruct m; reflexivity.
Qed.

Lemma suspend_suspended (s : Result Step * Machine World) :
  (forall k, fst s <> Return (Waits k)) -> suspend s = snd s.
Proof.
  destruct s as [[[response| |k]|ex] m]; intros H; try reflexivity.
  exfalso. exact (H k eq_refl).
Qed.

Lemma uninterrupted_run (fuel : nat) :
  forall (s s' : Result Step * Machine World),
    uninterrupted enums handler fuel s = Some s' ->
    exists n,
      run helpers enums handler
        (repeat (T_resumes (length (suspended (snd s)))) n) (suspend s)
      = Some (snd s').
Proof.
  induction fuel as [|fuel IH]; intros s s' Hs.
  - destruct s as [[[response| |k]|ex] m]; simpl in Hs;
      try discriminate; injection Hs as <-; exists 0; reflexivity.
  - destruct s as [[[response| |k]|ex] m];
      try (simpl in Hs; injection Hs as <-; exists 0; reflexivity).
    rewrite uninterrupted_waits in Hs.
    destruct (IH _ _ Hs) as [n Hn].
    rewrite resume_suspended in Hn.
    exists (S n). cbn [repeat run snd].
    rewrite perform_resumes_last. exact Hn.
Qed.

(** [T_startWithCredentials] is a run of the step model: the call, and
    then its steps, each as soon as the call waits. *)
Theorem startWithCredentials_uninterrupted
  (details : StartLoginSessionWithCredentialsDetails) (m : Machine World) :
  exists n,
    run helpers enums handler
      (T_call_startWithCredentials details
       :: repeat (T_resumes (length (suspended m))) n) m
    = perform helpers enums handler (T_startWithCredentials details) m.
Proof.
  destruct (startWithCredentials_steps details m) as [fuel Hfuel].
  destruct (@uninterrupted_run fuel _ _ Hfuel) as [n Hn].
  exists n. cbn [run perform].
  assert (Hsusp : suspended (snd (startWithCredentials_call details m))
                  = suspended m).
  { apply (@keeps_startWithCredentials_call _
             (fun m' => suspended m' = suspended m));
      try (intros; assumption). reflexivity. }
  rewrite Hsusp in Hn. rewrite Hn.
  destruct (startWithCredentials enums handler details m) as [[r|e] m'];
    reflexivity.
Qed.

(** [T_submitSteamGuardCode] likewise: the call and, when it waits, its
    one step. *)
Theorem submitSteamGuardCode_uninterrupted (authCode : string)
  (m : Machine World) :
  exists n,
    run helpers enums handler
      (T_call_submitSteamGuardCode authCode
       :: repeat (T_resumes (length (suspended m))) n) m
    = perform helpers enums handler (T_submitSteamGuardCode authCode) m.
Proof.
  destruct (@uninterrupted_run 1 _ _ (submitSteamGuardCode_steps authCode m))
    as [n Hn].
  exists n. cbn [run perform].
  assert (Hsusp : suspended (snd (submitSteamGuardCode_called authCode m))
                  = suspended m).
  { apply (@keeps_submitSteamGuardCode_called _
             (fun m' => suspended m' = suspended m));
      try (intros; assumption). reflexivity. }
  rewrite Hsusp in Hn. rewrite Hn.
  destruct (submitSteamGuardCode handler authCode m) as [[r|e] m'];
    reflexivity.
Qed.

End Uninterrupted.
